(** * BitBLAS quantized linear layer: bit-level repacking and operator cache

    A shallow embedding of [bitblas/module/__init__.py] (the three
    unpacking functions and the class [Linear]) together with the
    properties of its specification.  Python integers are [Z]; a tensor
    element of an integer dtype is kept as its signed value, with the
    wrap-around of the dtype written out; an element of a floating dtype
    is kept as its IEEE-754 bit pattern and computed on through
    [SpecFloat].  Python exceptions are the [Raise] branch of [result]. *)

From Stdlib Require Import ZArith String List Bool Lia.
From Stdlib Require Import Floats.SpecFloat.
Import ListNotations.

Open Scope string_scope.
Open Scope list_scope.
Open Scope Z_scope.

(** ** Exceptions and fallible results *)

Inductive exn : Type :=
| ValueError (msg : string)
| ZeroDivisionError
| IndexError
| AttributeError
| RuntimeError
| PackingRangeError
| UndefinedCast.

Inductive result (A : Type) : Type :=
| Ok (a : A)
| Raise (e : exn).

Arguments Ok {A} a.
Arguments Raise {A} e.

Definition bind {A B : Type} (r : result A) (k : A -> result B) : result B :=
  match r with
  | Ok a => k a
  | Raise e => Raise e
  end.

Declare Scope result_scope.
Delimit Scope result_scope with result.
Notation "x <- r ;; k" := (bind r (fun x => k))
  (at level 61, r at next level, right associativity) : result_scope.
Open Scope result_scope.

Definition is_ok {A : Type} (r : result A) : bool :=
  match r with Ok _ => true | Raise _ => false end.

(** Python's [a // b]: floor division, an exception on a zero divisor. *)
Definition floordiv (a b : Z) : result Z :=
  if b =? 0 then Raise ZeroDivisionError else Ok (a / b).

(** Python's [a % b]: the remainder has the sign of the divisor. *)
Definition pymod (a b : Z) : result Z :=
  if b =? 0 then Raise ZeroDivisionError else Ok (a mod b).

(** [range(n)] *)
Definition range (n : Z) : list Z := map Z.of_nat (seq 0 (Z.to_nat n)).

(** [reduce(operator.mul, l, 1)] *)
Definition prod (l : list Z) : Z := fold_left Z.mul l 1.

(** ** Fixed-width integers *)

(** The signed value of the low [w] bits of [z] (two's complement). *)
Definition wrap (w : Z) (z : Z) : Z := (z + 2 ^ (w - 1)) mod 2 ^ w - 2 ^ (w - 1).

(** The unsigned value of the low [w] bits of [z]. *)
Definition unsigned (w : Z) (z : Z) : Z := z mod 2 ^ w.

(** ** Element types *)

Inductive dtype : Type :=
| torch_int8
| torch_int32
| torch_float16
| torch_float32.

Definition dtype_eqb (a b : dtype) : bool :=
  match a, b with
  | torch_int8, torch_int8 | torch_int32, torch_int32
  | torch_float16, torch_float16 | torch_float32, torch_float32 => true
  | _, _ => false
  end.

Definition itemsize (dt : dtype) : Z :=
  match dt with
  | torch_int8 => 1
  | torch_float16 => 2
  | torch_int32 | torch_float32 => 4
  end.

Definition is_floating_point (dt : dtype) : bool :=
  match dt with
  | torch_float16 | torch_float32 => true
  | _ => false
  end.

(** [getattr(torch, name)] on the names of the dtypes above. *)
Definition torch_getattr (name : string) : result dtype :=
  if String.eqb name "int8" then Ok torch_int8
  else if String.eqb name "int32" then Ok torch_int32
  else if String.eqb name "int" then Ok torch_int32
  else if String.eqb name "float16" then Ok torch_float16
  else if String.eqb name "half" then Ok torch_float16
  else if String.eqb name "float32" then Ok torch_float32
  else if String.eqb name "float" then Ok torch_float32
  else Raise AttributeError.

(** ** Floating-point formats *)

(** Mantissa bits with the implicit one, and the exponent of infinity. *)
Definition float_prec (dt : dtype) : Z :=
  match dt with torch_float16 => 11 | _ => 24 end.

Definition float_emax (dt : dtype) : Z :=
  match dt with torch_float16 => 16 | _ => 128 end.

Definition mant_bits (dt : dtype) : Z := float_prec dt - 1.
Definition exp_bits (dt : dtype) : Z := 8 * itemsize dt - float_prec dt.

(** The float a bit pattern stands for. *)
Definition decode_float (dt : dtype) (bits : Z) : spec_float :=
  let mw := mant_bits dt in
  let ew := exp_bits dt in
  let s := Z.testbit bits (mw + ew) in
  let e := Z.shiftr bits mw mod 2 ^ ew in
  let m := bits mod 2 ^ mw in
  if e =? 0 then
    match m with
    | Zpos p => S754_finite s p (emin (float_prec dt) (float_emax dt))
    | _ => S754_zero s
    end
  else if e =? 2 ^ ew - 1 then
    if m =? 0 then S754_infinity s else S754_nan
  else
    match m + 2 ^ mw with
    | Zpos p => S754_finite s p (e - 1 + emin (float_prec dt) (float_emax dt))
    | _ => S754_nan
    end.

(** The bit pattern of a float in canonical form; a NaN becomes the quiet
    NaN with an empty payload. *)
Definition encode_float (dt : dtype) (f : spec_float) : Z :=
  let mw := mant_bits dt in
  let ew := exp_bits dt in
  let sign (s : bool) := if s then 2 ^ (mw + ew) else 0 in
  match f with
  | S754_zero s => sign s
  | S754_infinity s => sign s + (2 ^ ew - 1) * 2 ^ mw
  | S754_nan => (2 ^ ew - 1) * 2 ^ mw + 2 ^ (mw - 1)
  | S754_finite s m e =>
      sign s +
      (if Zpos m <? 2 ^ mw then Zpos m
       else (e - emin (float_prec dt) (float_emax dt) + 1) * 2 ^ mw + (Zpos m - 2 ^ mw))
  end.

(** Rounding a float to the format of [dt]. *)
Definition round_float (dt : dtype) (f : spec_float) : spec_float :=
  match f with
  | S754_finite s m e => binary_round (float_prec dt) (float_emax dt) s m e
  | _ => f
  end.

(** The integer part of a float, towards zero; nothing for NaN and the
    infinities. *)
Definition trunc_float (f : spec_float) : option Z :=
  match f with
  | S754_zero _ => Some 0
  | S754_finite s m e =>
      let a := if 0 <=? e then Zpos m * 2 ^ e else Zpos m / 2 ^ (- e) in
      Some (if s then - a else a)
  | _ => None
  end.

(** The float of format [dt] nearest to an integer, as a bit pattern. *)
Definition float_of_int (dt : dtype) (z : Z) : Z :=
  encode_float dt (binary_normalize (float_prec dt) (float_emax dt) z 0 false).

(** The conversion of one element from dtype [src] to dtype [dst], as
    [Tensor.to] and assignment into a tensor of another dtype do it.  A
    float outside the target integer range has no defined conversion. *)
Definition cast (src dst : dtype) (z : Z) : result Z :=
  if dtype_eqb src dst then Ok z
  else if is_floating_point dst then
    if is_floating_point src then
      Ok (encode_float dst (round_float dst (decode_float src z)))
    else Ok (float_of_int dst z)
  else if is_floating_point src then
    match trunc_float (decode_float src z) with
    | Some i =>
        if (- 2 ^ (8 * itemsize dst - 1) <=? i) && (i <? 2 ^ (8 * itemsize dst - 1))
        then Ok i else Raise UndefinedCast
    | None => Raise UndefinedCast
    end
  else Ok (wrap (8 * itemsize dst) z).

(** The conversion to a floating dtype, which is defined on every
    element. *)
Definition cast_to_float (src dst : dtype) (z : Z) : Z :=
  if dtype_eqb src dst then z
  else if is_floating_point src then
    encode_float dst (round_float dst (decode_float src z))
  else float_of_int dst z.

(** The product of two elements of dtype [dt]. *)
Definition mul_elem (dt : dtype) (a b : Z) : Z :=
  if is_floating_point dt then
    encode_float dt (SFmul (float_prec dt) (float_emax dt)
                       (decode_float dt a) (decode_float dt b))
  else wrap (8 * itemsize dt) (a * b).

(** Type promotion of a binary operation on two tensors. *)
Definition result_type (a b : dtype) : dtype :=
  match is_floating_point a, is_floating_point b with
  | true, false => a
  | false, true => b
  | _, _ => if itemsize a <? itemsize b then b else a
  end.

(** ** Tensors *)

(** A tensor: its dtype, its shape, and its elements as rows over the last
    axis in row-major order (a 2-D tensor of shape [(r, c)] has [r] rows of
    [c] elements, a 1-D tensor one row). *)
Record Tensor : Type := mkTensor {
  dtype_of : dtype;
  shape : list Z;
  rows : list (list Z)
}.

(** The tensor is a matrix of [r] rows and [c] columns. *)
Definition matrix (t : Tensor) (r c : nat) : Prop :=
  shape t = [Z.of_nat r; Z.of_nat c] /\
  length (rows t) = r /\
  Forall (fun row => length row = c) (rows t).

(** [t.shape[k]] *)
Definition dim (t : Tensor) (k : nat) : result Z :=
  match nth_error (shape t) k with
  | Some d => Ok d
  | None => Raise IndexError
  end.

(** [torch.zeros(shape, dtype=dt)] *)
Definition torch_zeros (sh : list Z) (dt : dtype) : result Tensor :=
  if forallb (fun d => 0 <=? d) sh then
    Ok (mkTensor dt sh
          (repeat (repeat 0 (Z.to_nat (last sh 1))) (Z.to_nat (prod (removelast sh)))))
  else Raise RuntimeError.

Fixpoint chunks {A : Type} (fuel n : nat) (l : list A) : list (list A) :=
  match fuel, l with
  | S fuel', _ :: _ => firstn n l :: chunks fuel' n (skipn n l)
  | _, _ => []
  end.

(** The bytes of an element, least significant first. *)
Definition to_bytes (size : Z) (z : Z) : list Z :=
  map (fun k => Z.shiftr z (8 * k) mod 256) (range size).

Definition of_bytes (dt : dtype) (bs : list Z) : Z :=
  let u := fold_right (fun b acc => b + 256 * acc) 0 bs in
  if is_floating_point dt then u else wrap (8 * itemsize dt) u.

(** [t.view(dt)]: the same memory read as elements of dtype [dt]; the last
    axis is rescaled by the ratio of the element sizes. *)
Definition view (t : Tensor) (dt : dtype) : result Tensor :=
  if dtype_eqb (dtype_of t) dt then Ok t
  else
    match shape t with
    | [] => Raise RuntimeError
    | _ :: _ =>
        let nbytes := last (shape t) 0 * itemsize (dtype_of t) in
        if nbytes mod itemsize dt =? 0 then
          Ok (mkTensor dt (removelast (shape t) ++ [nbytes / itemsize dt])
                (map (fun row =>
                        let bytes := flat_map (to_bytes (itemsize (dtype_of t))) row in
                        map (of_bytes dt)
                          (chunks (length bytes) (Z.to_nat (itemsize dt)) bytes))
                   (rows t)))
        else Raise RuntimeError
    end.

(** [t.T]: a matrix is transposed and a tensor of lower rank is returned
    as it is; the reversal of more than two axes, which the framework
    deprecates, is not modelled and is given as an error. *)
Definition transpose (t : Tensor) : result Tensor :=
  match shape t with
  | [] | [_] => Ok t
  | [r; c] =>
      Ok (mkTensor (dtype_of t) [c; r]
            (map (fun j => map (fun row => nth j row 0) (rows t)) (seq 0 (Z.to_nat c))))
  | _ => Raise RuntimeError
  end.

(** [t.contiguous()], [t.cpu()], [t.to(device)], [t.cuda()]: the elements,
    dtype and shape are kept; placement is not modelled. *)
Definition contiguous (t : Tensor) : Tensor := t.
Definition to_device (t : Tensor) : Tensor := t.

Fixpoint mapM {A B : Type} (f : A -> result B) (l : list A) : result (list B) :=
  match l with
  | [] => Ok []
  | a :: l' => b <- f a ;; bs <- mapM f l' ;; Ok (b :: bs)
  end.

(** [t.to(dt)] *)
Definition to_dtype (t : Tensor) (dt : dtype) : result Tensor :=
  rs <- mapM (mapM (cast (dtype_of t) dt)) (rows t) ;;
  Ok (mkTensor dt (shape t) rs).

(** [t[:, k]] *)
Definition column (t : Tensor) (k : Z) : list Z :=
  map (fun row => nth (Z.to_nat k) row 0) (rows t).

Fixpoint update {A : Type} (n : nat) (x : A) (l : list A) : list A :=
  match l, n with
  | [], _ => []
  | _ :: l', O => x :: l'
  | a :: l', S n' => a :: update n' x l'
  end.

Fixpoint map2 {A B C : Type} (f : A -> B -> C) (l1 : list A) (l2 : list B) : list C :=
  match l1, l2 with
  | a :: l1', b :: l2' => f a b :: map2 f l1' l2'
  | _, _ => []
  end.

(** [t[:, col] = v] where [v] holds one integer per row; the values are
    converted to the integer dtype of [t]. *)
Definition set_column (t : Tensor) (col : Z) (v : list Z) : Tensor :=
  mkTensor (dtype_of t) (shape t)
    (map2 (fun row x => update (Z.to_nat col) (wrap (8 * itemsize (dtype_of t)) x) row)
       (rows t) v).

(** [t + k] for an integer tensor and a Python integer. *)
Definition add_scalar (t : Tensor) (k : Z) : Tensor :=
  mkTensor (dtype_of t) (shape t)
    (map (map (fun z => wrap (8 * itemsize (dtype_of t)) (z + k))) (rows t)).

(** [torch.bitwise_and(t, k)] for an integer tensor and a Python integer,
    which has to fit 64 bits: the scalar takes the dtype of the tensor, and
    so does the result. *)
Definition bitwise_and (t : Tensor) (k : Z) : result Tensor :=
  if is_floating_point (dtype_of t) then Raise RuntimeError
  else if (k <? - 2 ^ 63) || (2 ^ 63 <=? k) then Raise RuntimeError
  else
    Ok (mkTensor (dtype_of t) (shape t)
          (map (map (fun z => Z.land z (wrap (8 * itemsize (dtype_of t)) k))) (rows t))).

(** ** The unpacking functions *)

(** The loop shared by the three functions:
    [for col in range(unpacked.shape[1]):
         i = col % elems
         unpacked[:, col] = packed[:, col // elems] >> (bits * i)] *)
Definition unpack_loop (packed unpacked : Tensor) (elems bits ncols : Z) : Tensor :=
  fold_left
    (fun unpacked col =>
       let i := col mod elems in
       set_column unpacked col
         (map (fun unit => Z.shiftr unit (bits * i)) (column packed (col / elems))))
    (range ncols) unpacked.

(** [2**bits - 1] as an argument of [torch.bitwise_and]: an integer only
    for a bit width that is not negative. *)
Definition mask_of (bits : Z) : result Z :=
  if bits <? 0 then Raise RuntimeError else Ok (2 ^ bits - 1).

Definition unpack_qzeros (qzeros : Tensor) (bits : Z) : result Tensor :=
  qzeros <- view qzeros torch_int32 ;;
  elems_per_int32 <- floordiv 32 bits ;;
  shape0 <- dim qzeros 0 ;;
  shape1 <- dim qzeros 1 ;;
  unpacked_zeros <- torch_zeros [shape0; shape1 * elems_per_int32] torch_int8 ;;
  let unpacked_zeros :=
    unpack_loop qzeros unpacked_zeros elems_per_int32 bits (shape1 * elems_per_int32) in
  mask <- mask_of bits ;;
  bitwise_and (add_scalar unpacked_zeros 1) mask.

Definition unpack_qzeros_v2 (qzeros : Tensor) (bits : Z) : result Tensor :=
  qzeros <- view qzeros torch_int32 ;;
  elems_per_int32 <- floordiv 32 bits ;;
  shape0 <- dim qzeros 0 ;;
  shape1 <- dim qzeros 1 ;;
  unpacked_zeros <- torch_zeros [shape0; shape1 * elems_per_int32] torch_int8 ;;
  let unpacked_zeros :=
    unpack_loop qzeros unpacked_zeros elems_per_int32 bits (shape1 * elems_per_int32) in
  mask <- mask_of bits ;;
  bitwise_and unpacked_zeros mask.

Definition unpack_qweight (qweight : Tensor) (bits : Z) : result Tensor :=
  qweight <- view qweight torch_int8 ;;
  elems_per_int8 <- floordiv 8 bits ;;
  shape0 <- dim qweight 0 ;;
  shape1 <- dim qweight 1 ;;
  unpacked_weight <- torch_zeros [shape0; shape1 * elems_per_int8] torch_int8 ;;
  let unpacked_weight :=
    unpack_loop qweight unpacked_weight elems_per_int8 bits (shape1 * elems_per_int8) in
  mask <- mask_of bits ;;
  bitwise_and unpacked_weight mask.

(** ** The packing function *)

(** Modelled from the spec: one storage unit of the codec's [pack], the
    fields ORed together at increasing shift offsets. *)
Definition pack_unit (bit_width : Z) (fields : list Z) : Z :=
  wrap 8
    (fold_left Z.lor
       (map2 (fun k v => Z.shiftl v (bit_width * k)) (range (Z.of_nat (length fields))) fields)
       0).

(** Modelled from the spec: [general_compress] of
    [bitblas.quantization.utils], the codec's [pack], which is not part of
    the module.  It ORs together [bit_width]-wide fields at increasing
    shift offsets into each 8-bit storage unit, one unit per
    [8 / bit_width] columns (the physical column count is the logical one
    times [bit_width / 8], rounded up, so the last unit of a row is
    completed with empty fields), and fails when an input value exceeds
    [2^bit_width - 1]. *)
Definition general_compress (x : Tensor) (bit_width : Z) : result Tensor :=
  elems_per_byte <- floordiv 8 bit_width ;;
  if elems_per_byte <=? 0 then Raise RuntimeError
  else if existsb (existsb (fun v => 2 ^ bit_width - 1 <? v)) (rows x) then
    Raise PackingRangeError
  else
    shape0 <- dim x 0 ;;
    shape1 <- dim x 1 ;;
    Ok (mkTensor torch_int8
          [shape0; (shape1 + elems_per_byte - 1) / elems_per_byte]
          (map (fun row =>
                  map (pack_unit bit_width)
                    (chunks (length row) (Z.to_nat elems_per_byte) row))
             (rows x))).

(** The element at row [i] and column [j]. *)
Definition entry (t : Tensor) (i j : nat) : Z := nth j (nth i (rows t) []) 0.

(** The specification's reading of sub-field [i] of an [N]-bit storage
    unit: a logical right shift of the unsigned unit, then a mask. *)
Definition extract_field (N : Z) (unit : Z) (bit_width i : Z) : Z :=
  Z.land (Z.shiftr (unsigned N unit) (bit_width * i)) (2 ^ bit_width - 1).

(** What the loop leaves in column [col] of the row unpacked from [prow]. *)
Definition unpacked_at (elems bits : Z) (prow : list Z) (col : Z) : Z :=
  wrap 8 (Z.shiftr (nth (Z.to_nat (col / elems)) prow 0) (bits * (col mod elems))).

(** The value the source computes for one element of [unpack_qweight] and
    [unpack_qzeros_v2]: the shifted unit stored as [int8], then masked. *)
Definition raw_at (elems bits : Z) (prow : list Z) (col : Z) : Z :=
  Z.land (unpacked_at elems bits prow col) (wrap 8 (2 ^ bits - 1)).

(** ... and of [unpack_qzeros]: one is added in [int8] before the mask. *)
Definition corrected_at (elems bits : Z) (prow : list Z) (col : Z) : Z :=
  Z.land (wrap 8 (unpacked_at elems bits prow col + 1)) (wrap 8 (2 ^ bits - 1)).

(** ** Element-wise operations on matrices *)

(** [t[:, :]]: indexing with two slices needs two axes. *)
Definition slice_all (t : Tensor) : result Tensor :=
  if (2 <=? length (shape t))%nat then Ok t else Raise IndexError.

Definition broadcast_dim (a b : Z) : result Z :=
  if a =? b then Ok a
  else if a =? 1 then Ok b
  else if b =? 1 then Ok a
  else Raise RuntimeError.

(** The shape two matrices are broadcast to.  The element-wise operations
    of the model cover tensors of rank two, the rank of every buffer the
    layer registers for scales and zero-points. *)
Definition broadcast_shapes (s1 s2 : list Z) : result (list Z) :=
  match s1, s2 with
  | [r1; c1], [r2; c2] =>
      r <- broadcast_dim r1 r2 ;; c <- broadcast_dim c1 c2 ;; Ok [r; c]
  | _, _ => Raise RuntimeError
  end.

(** The rows of a matrix expanded to shape [(r, c)]: an axis of size one
    is repeated. *)
Definition expand (t : Tensor) (r c : Z) : list (list Z) :=
  let rs :=
    if nth 0 (shape t) 0 =? r then rows t
    else repeat (hd [] (rows t)) (Z.to_nat r) in
  if nth 1 (shape t) 0 =? c then rs
  else map (fun row => repeat (hd 0 row) (Z.to_nat c)) rs.

(** [a * b] *)
Definition tensor_mul (a b : Tensor) : result Tensor :=
  sh <- broadcast_shapes (shape a) (shape b) ;;
  let dt := result_type (dtype_of a) (dtype_of b) in
  a' <- to_dtype a dt ;;
  b' <- to_dtype b dt ;;
  Ok (mkTensor dt sh
        (map2 (map2 (mul_elem dt))
           (expand a' (nth 0 sh 0) (nth 1 sh 0))
           (expand b' (nth 0 sh 0) (nth 1 sh 0)))).

(** [dst[:, :] = src]: the elements of [src], broadcast to the shape of
    [dst] and converted to its dtype, replace those of [dst]. *)
Definition setitem_all (dst src : Tensor) : result Tensor :=
  _ <- slice_all dst ;;
  sh <- broadcast_shapes (shape dst) (shape src) ;;
  if list_eq_dec Z.eq_dec sh (shape dst) then
    src' <- to_dtype src (dtype_of dst) ;;
    Ok (mkTensor (dtype_of dst) (shape dst)
          (expand src' (nth 0 sh 0) (nth 1 sh 0)))
  else Raise RuntimeError.

(** ** Operator configurations *)

(** [opt_M: Union[int, List[int]]] *)
Inductive OptM : Type :=
| StaticM (m : Z)
| DynamicM (ms : list Z).

Module MatmulConfig.

(** Modelled from the spec: the structural signature [MatmulConfig],
    which is not part of the module, with the fields
    [Linear._configure_bitblas_matmul] passes to it. *)
Record t : Type := mk {
  M : OptM;
  N : Z;
  K : Z;
  A_dtype : string;
  W_dtype : string;
  accum_dtype : string;
  out_dtype : string;
  storage_dtype : string;
  with_scaling : option bool;
  with_zeros : bool;
  group_size : Z;
  fast_decoding : option bool;
  with_bias : bool;
  propagate_b : bool;
  zeros_mode : option string;
  optimize_stratety : string
}.

Definition OptM_eq_dec (a b : OptM) : {a = b} + {a <> b}.
Proof. decide equality; [apply Z.eq_dec | apply (list_eq_dec Z.eq_dec)]. Defined.

(** Two configurations are equal iff every field is equal. *)
Definition eq_dec (a b : t) : {a = b} + {a <> b}.
Proof.
  decide equality;
    try apply string_dec; try apply Z.eq_dec; try apply bool_dec;
    try apply OptM_eq_dec;
    decide equality; try apply bool_dec; apply string_dec.
Defined.

Definition eqb (a b : t) : bool := if eq_dec a b then true else false.

End MatmulConfig.

(** The truth value of an optional flag: [None] is false. *)
Definition truthy (o : option bool) : bool :=
  match o with Some b => b | None => false end.

(** ** Operator handles *)

(** Modelled from the spec: what the kernel-compilation subsystem, which
    is not part of the module, produces for a configuration and a hardware
    target, as far as the layer reads it: bit width, source-format tag,
    declared output dtype, dynamic range, expected packed-weight shape,
    weight-layout transform and input-layout transform. *)
Record Kernel : Type := mkKernel {
  kernel_bit : Z;
  kernel_source_format : string;
  kernel_out_dtype : string;
  kernel_dynamic_range : option (list Z);
  kernel_weight_shape : list Z;
  kernel_weight_transform : option (Tensor -> Tensor);
  kernel_transform_input : Tensor -> Tensor
}.

Module Matmul.

(** Modelled from the spec: an operator handle of [bitblas.Matmul], which
    is not part of the module: the identity of the object, the
    configuration and the target it is bound to, and its compiled kernel. *)
Record t : Type := mk {
  op_id : nat;
  config : MatmulConfig.t;
  target : string;
  kernel : Kernel
}.

Definition bit (m : t) : Z := kernel_bit (kernel m).
Definition source_format (m : t) : string := kernel_source_format (kernel m).
Definition out_dtype (m : t) : string := kernel_out_dtype (kernel m).
Definition dynamic_range (m : t) : option (list Z) := kernel_dynamic_range (kernel m).
Definition retrieve_weight_shape (m : t) : list Z := kernel_weight_shape (kernel m).
Definition weight_transform (m : t) : option (Tensor -> Tensor) :=
  kernel_weight_transform (kernel m).
Definition transform_input (m : t) (A : Tensor) : Tensor :=
  kernel_transform_input (kernel m) A.

End Matmul.

(** ** The world outside the layer *)

Definition Cache : Type := list (MatmulConfig.t * Matmul.t).

(** The hardware, the kernel compiler, the operator caches, the persisted
    operator database, the tuning runs made so far, the file system as
    far as database paths go, and the class attribute
    [Linear._tuning_message_shown] with the printed lines.  Of the file
    system the world tells which paths exist, whether
    [os.makedirs(path, exist_ok=True)] returns or raises, and with
    [makedirs_leaves path] which other paths exist once that call is over:
    the parents it has made, also before it failed, and the other
    spellings of what it has made. *)
Record World : Type := mkWorld {
  nvidia_target : string;
  compile : MatmulConfig.t -> string -> Kernel;
  cuda_stream : Z;
  next_op_id : nat;
  caches : nat -> Cache;
  database : string -> string -> list (MatmulConfig.t * Kernel);
  tuning_log : list (nat * Z);
  path_exists : string -> bool;
  makedirs_ok : string -> bool;
  makedirs_leaves : string -> string -> bool;
  tuning_message_shown : bool;
  stdout : list string
}.

Definition set_cache (w : World) (ref : nat) (c : Cache) : World :=
  mkWorld (nvidia_target w) (compile w) (cuda_stream w) (next_op_id w)
    (fun r => if Nat.eqb r ref then c else caches w r)
    (database w) (tuning_log w) (path_exists w) (makedirs_ok w)
    (makedirs_leaves w)
    (tuning_message_shown w) (stdout w).

Definition set_next_op_id (w : World) (n : nat) : World :=
  mkWorld (nvidia_target w) (compile w) (cuda_stream w) n (caches w)
    (database w) (tuning_log w) (path_exists w) (makedirs_ok w)
    (makedirs_leaves w)
    (tuning_message_shown w) (stdout w).

Definition set_database (w : World) (path tgt : string)
    (entries : list (MatmulConfig.t * Kernel)) : World :=
  mkWorld (nvidia_target w) (compile w) (cuda_stream w) (next_op_id w) (caches w)
    (fun p t => if String.eqb p path && String.eqb t tgt then entries else database w p t)
    (tuning_log w) (path_exists w) (makedirs_ok w)
    (makedirs_leaves w)
    (tuning_message_shown w) (stdout w).

Definition log_tuning (w : World) (id : nat) (topk : Z) : World :=
  mkWorld (nvidia_target w) (compile w) (cuda_stream w) (next_op_id w) (caches w)
    (database w) (tuning_log w ++ [(id, topk)]) (path_exists w) (makedirs_ok w)
    (makedirs_leaves w)
    (tuning_message_shown w) (stdout w).

Definition print (w : World) (line : string) : World :=
  mkWorld (nvidia_target w) (compile w) (cuda_stream w) (next_op_id w) (caches w)
    (database w) (tuning_log w) (path_exists w) (makedirs_ok w)
    (makedirs_leaves w)
    (tuning_message_shown w) (stdout w ++ [line]).

Definition set_tuning_message_shown (w : World) (b : bool) : World :=
  mkWorld (nvidia_target w) (compile w) (cuda_stream w) (next_op_id w) (caches w)
    (database w) (tuning_log w) (path_exists w) (makedirs_ok w)
    (makedirs_leaves w)
    b (stdout w).

(** [os.makedirs(path, exist_ok=True)] for a path that does not exist:
    whether the call returns, and the world it leaves.  When it returns
    the path exists; when it raises the path still does not; in both
    cases the other paths are as the call leaves them. *)
Definition os_makedirs (w : World) (path : string) : bool * World :=
  let ok := makedirs_ok w path in
  (ok,
   mkWorld (nvidia_target w) (compile w) (cuda_stream w) (next_op_id w) (caches w)
     (database w) (tuning_log w)
     (fun p => if String.eqb p path then ok else makedirs_leaves w path p)
     (makedirs_ok w) (makedirs_leaves w)
     (tuning_message_shown w) (stdout w)).

(** [auto_detect_nvidia_target()] *)
Definition auto_detect_nvidia_target (w : World) : string := nvidia_target w.

(** Modelled from the spec: the method [hardware_aware_finetune] of
    [bitblas.Matmul], which is not part of the module.  A tuning pass tries
    the top-K candidate schedules of the handle; the pass is recorded in
    the world. *)
Definition hardware_aware_finetune (m : Matmul.t) (topk : Z) (w : World) : World :=
  log_tuning w (Matmul.op_id m) topk.

(** Modelled from the spec: the constructor [Matmul(config, target,
    enable_tuning)] of [bitblas.Matmul], which is not part of the module.
    It makes a new handle bound to the configuration and the target, and
    tunes it at once only when tuning is enabled. *)
Definition Matmul_new (config : MatmulConfig.t) (tgt : string) (enable_tuning : bool)
    (w : World) : Matmul.t * World :=
  let m := Matmul.mk (next_op_id w) config tgt (compile w config tgt) in
  let w := set_next_op_id w (S (next_op_id w)) in
  (m, if enable_tuning then hardware_aware_finetune m 20 w else w).

Module OperatorCache.

(** Modelled from the spec: the class of [bitblas.cache] behind
    [global_operator_cache], which is not part of the module.  A keyed
    collection from configurations to handles: [get] is a pure lookup,
    [add] inserts under the configuration, nothing is evicted;
    [load_from_database] hydrates the cache from the persisted store of a
    path and a target, and [save_into_database] writes the entries bound
    to the target back to it.  [size] is the number of entries. *)
Definition size (c : Cache) : Z := Z.of_nat (length c).

(** Modelled from the spec: the pure lookup of a configuration. *)
Definition get (c : Cache) (config : MatmulConfig.t) : option Matmul.t :=
  option_map snd (find (fun e => MatmulConfig.eqb (fst e) config) c).

(** Modelled from the spec: the insertion of a handle under its
    configuration, in the place of an earlier entry for it. *)
Definition add (c : Cache) (config : MatmulConfig.t) (op : Matmul.t) : Cache :=
  (config, op) :: filter (fun e => negb (MatmulConfig.eqb (fst e) config)) c.

(** Modelled from the spec: every persisted entry becomes a new handle
    object in the cache. *)
Fixpoint hydrate (entries : list (MatmulConfig.t * Kernel)) (tgt : string)
    (id : nat) (c : Cache) : Cache * nat :=
  match entries with
  | [] => (c, id)
  | (config, k) :: rest =>
      hydrate rest tgt (S id) (add c config (Matmul.mk id config tgt k))
  end.

(** Modelled from the spec: hydration of the cache [ref] from the store
    of [path] and [tgt]. *)
Definition load_from_database (ref : nat) (path tgt : string) (w : World) : World :=
  let (c, id) := hydrate (database w path tgt) tgt (next_op_id w) (caches w ref) in
  set_next_op_id (set_cache w ref c) id.

(** Modelled from the spec: the entries of the cache [ref] bound to
    [tgt] replace the store of [path] and [tgt]. *)
Definition save_into_database (ref : nat) (path tgt : string) (w : World) : World :=
  set_database w path tgt
    (map (fun e => (fst e, Matmul.kernel (snd e)))
       (filter (fun e => String.eqb (Matmul.target (snd e)) tgt) (caches w ref))).

End OperatorCache.

(** ** The layer *)

(** A foreign quantized-linear module as [repack_from_gptq] reads it. *)
Module GPTQ.
Record t : Type := mk {
  qweight : Tensor;
  scales : Tensor;
  qzeros : Tensor;
  bias : option Tensor
}.
End GPTQ.

(** An argument of the kernel's entry point: the address of a tensor
    ([ctypes.c_void_p(t.data_ptr())], kept as the tensor it addresses), the
    handle of the execution stream, or a Python integer. *)
Inductive carg : Type :=
| c_void_p (t : Tensor)
| stream_handle (s : Z)
| py_int (m : Z).

(** An attribute that may not have been set yet. *)
Definition attr {A : Type} (o : option A) : result A :=
  match o with Some a => Ok a | None => Raise AttributeError end.

(** [int("".join(c for c in s if c.isdigit()))] *)
Fixpoint int_of_digits (s : string) (acc : Z) : Z :=
  match s with
  | EmptyString => acc
  | String c s' =>
      let n := Z.of_nat (Ascii.nat_of_ascii c) in
      if (48 <=? n) && (n <=? 57) then int_of_digits s' (10 * acc + (n - 48))
      else int_of_digits s' acc
  end.

(** [str(x)] of an optional string inside an f-string. *)
Definition str_of (o : option string) : string :=
  match o with Some s => s | None => "None" end.

Module Linear.

Definition opt_M : OptM := DynamicM [16; 32; 64; 128; 256; 512].
Definition STORAGE_DTYPE : string := "int8".
Definition TORCH_STORAGE_DTYPE : dtype := torch_int8.

(** The attributes of a constructed layer.  A buffer that was not
    registered is [None]; [bias] is [None] when the layer has no bias. *)
Record t : Type := mk {
  operator_cache : nat;
  database_path : string;
  in_features : Z;
  out_features : Z;
  group_size : Z;
  torch_dtype : dtype;
  is_consitent : bool;
  zeros_mode : option string;
  bitblas_matmul : Matmul.t;
  bits : Z;
  source_format : string;
  weight : option Tensor;
  qweight : option Tensor;
  scales : option Tensor;
  zeros : option Tensor;
  bias : option Tensor;
  q_params : list carg
}.

Definition consistent (self : t) : bool := is_consitent self.

Definition set_buffers (self : t)
    (w qw sc z b : option Tensor) : t :=
  mk (operator_cache self) (database_path self) (in_features self)
    (out_features self) (group_size self) (torch_dtype self) (is_consitent self)
    (zeros_mode self) (bitblas_matmul self) (bits self) (source_format self)
    w qw sc z b (q_params self).

Definition set_weight (self : t) (x : Tensor) : t :=
  set_buffers self (Some x) (qweight self) (scales self) (zeros self) (bias self).
Definition set_qweight (self : t) (x : Tensor) : t :=
  set_buffers self (weight self) (Some x) (scales self) (zeros self) (bias self).
Definition set_scales (self : t) (x : Tensor) : t :=
  set_buffers self (weight self) (qweight self) (Some x) (zeros self) (bias self).
Definition set_zeros (self : t) (x : Tensor) : t :=
  set_buffers self (weight self) (qweight self) (scales self) (Some x) (bias self).
Definition set_bias (self : t) (x : option Tensor) : t :=
  set_buffers self (weight self) (qweight self) (scales self) (zeros self) x.

Definition set_q_params (self : t) (ps : list carg) : t :=
  mk (operator_cache self) (database_path self) (in_features self)
    (out_features self) (group_size self) (torch_dtype self) (is_consitent self)
    (zeros_mode self) (bitblas_matmul self) (bits self) (source_format self)
    (weight self) (qweight self) (scales self) (zeros self) (bias self) ps.

Definition config (self : t) : MatmulConfig.t := Matmul.config (bitblas_matmul self).

(** [[ctypes.c_void_p(arr.data_ptr()) for arr in param_list]]; an entry
    that is [None] has no [data_ptr]. *)
Definition void_ptrs (param_list : list (option Tensor)) : result (list carg) :=
  mapM (fun arr => a <- attr arr ;; Ok (c_void_p a)) param_list.

Definition init_params (self : t) : result t :=
  if is_consitent self then
    weight <- attr (weight self) ;;
    let param_list := [Some weight] in
    let param_list :=
      if MatmulConfig.with_bias (config self) then param_list ++ [bias self]
      else param_list in
    q_params <- void_ptrs param_list ;;
    Ok (set_q_params self q_params)
  else
    qweight <- attr (qweight self) ;;
    let param_list := [Some qweight] in
    param_list <-
      (if truthy (MatmulConfig.with_scaling (config self)) then
         scales <- attr (scales self) ;; Ok (param_list ++ [Some scales])
       else Ok param_list) ;;
    param_list <-
      (if MatmulConfig.with_zeros (config self) then
         zeros <- attr (zeros self) ;; Ok (param_list ++ [Some zeros])
       else Ok param_list) ;;
    let param_list :=
      if MatmulConfig.with_bias (config self) then param_list ++ [bias self]
      else param_list in
    q_params <- void_ptrs param_list ;;
    Ok (set_q_params self q_params).

Definition _validate_parameters (group_size in_features out_features : Z) : result unit :=
  if negb (in_features mod 16 =? 0) || negb (out_features mod 16 =? 0) then
    Raise (ValueError "`in_features` and `out_features` must be divisible by 16.")
  else
    m <- pymod in_features group_size ;;
    if negb (m =? 0) then
      Raise (ValueError "`in_features` must be divisible by `group_size`.")
    else Ok tt.

Definition _set_group_size (group_size : option Z) (in_features : Z) : Z :=
  match group_size with
  | None => in_features
  | Some g => if g =? -1 then in_features else g
  end.

(** [_initialize_buffers], on a layer whose buffers are still unset. *)
Definition _initialize_buffers (self : t) (in_features out_features : Z) (bias : bool)
    : result t :=
  self <-
    (if consistent self then
       cols <- floordiv in_features (group_size self) ;;
       weight <- torch_zeros [out_features; cols] (torch_dtype self) ;;
       Ok (set_weight self weight)
     else
       qweight <- torch_zeros (Matmul.retrieve_weight_shape (bitblas_matmul self))
                    TORCH_STORAGE_DTYPE ;;
       let self := set_qweight self qweight in
       cols <- floordiv in_features (group_size self) ;;
       scales <- torch_zeros [out_features; cols] (torch_dtype self) ;;
       let self := set_scales self scales in
       if match zeros_mode self with
          | Some m => String.eqb m "quantized"
          | None => false
          end
       then
         let storage_nbit := int_of_digits STORAGE_DTYPE 0 in
         rws <- floordiv in_features (group_size self) ;;
         per <- floordiv out_features storage_nbit ;;
         zeros <- torch_zeros [rws; per * bits self] TORCH_STORAGE_DTYPE ;;
         Ok (set_zeros self zeros)
       else
         cols <- floordiv in_features (group_size self) ;;
         zeros <- torch_zeros [out_features; cols] (torch_dtype self) ;;
         Ok (set_zeros self zeros)) ;;
  if bias then
    b <- torch_zeros [out_features] (torch_dtype self) ;;
    Ok (set_bias self (Some b))
  else Ok (set_bias self None).

(** [self.operator_cache] and [self.database_path] are the two
    attributes the method reads. *)
Definition _get_or_create_bitblas_operator (operator_cache : nat) (database_path : string)
    (config : MatmulConfig.t) (enable_tuning : bool) (w : World) : Matmul.t * World :=
  let BITBLAS_TARGET := auto_detect_nvidia_target w in
  let w :=
    if OperatorCache.size (caches w operator_cache) =? 0 then
      OperatorCache.load_from_database operator_cache database_path BITBLAS_TARGET w
    else w in
  match OperatorCache.get (caches w operator_cache) config with
  | Some bitblas_matmul => (bitblas_matmul, w)
  | None =>
      let (bitblas_matmul, w) := Matmul_new config BITBLAS_TARGET false w in
      if enable_tuning then
        let w :=
          if negb (tuning_message_shown w) then
            set_tuning_message_shown
              (print w "Compiling matmul kernels...this may take a few minutes. This is a one-time operation.")
              true
          else w in
        let w := hardware_aware_finetune bitblas_matmul 20 w in
        let w :=
          set_cache w operator_cache
            (OperatorCache.add (caches w operator_cache) config bitblas_matmul) in
        let w :=
          OperatorCache.save_into_database operator_cache database_path BITBLAS_TARGET w in
        (bitblas_matmul, w)
      else (bitblas_matmul, w)
  end.

(** The arguments of [__init__]. *)
Record init_args : Type := mk_args {
  arg_in_features : Z;
  arg_out_features : Z;
  arg_bias : bool;
  arg_A_dtype : string;
  arg_W_dtype : string;
  arg_accum_dtype : string;
  arg_out_dtype : string;
  arg_group_size : option Z;
  arg_with_scaling : option bool;
  arg_with_zeros : bool;
  arg_zeros_mode : option string;
  arg_opt_M : OptM;
  arg_enable_tuning : bool;
  arg_fast_decoding : option bool;
  arg_propagate_b : bool;
  arg_operator_cache : option nat;
  arg_database_path : option string;
  arg_create_missing_path : bool
}.

(** The process-wide cache and database path. *)
Definition global_operator_cache : nat := 0%nat.

(** [_configure_bitblas_matmul]: the handle, its bit width and its source
    format. *)
Definition _configure_bitblas_matmul (operator_cache : nat) (database_path : string)
    (opt_M : OptM) (out_features in_features group_size : Z)
    (A_dtype W_dtype accum_dtype out_dtype : string)
    (with_scaling : option bool) (with_zeros : bool) (zeros_mode : option string)
    (enable_tuning : bool) (fast_decoding : option bool) (bias propagate_b : bool)
    (w : World) : Matmul.t * World :=
  let matmul_config :=
    MatmulConfig.mk opt_M out_features in_features A_dtype W_dtype accum_dtype out_dtype
      STORAGE_DTYPE with_scaling with_zeros group_size fast_decoding bias propagate_b
      zeros_mode "SingleBatchDecodeOnly" in
  _get_or_create_bitblas_operator operator_cache database_path matmul_config
    enable_tuning w.

(** [__init__]; [BITBLAS_DATABASE_PATH] is the default database path. *)
Definition __init__ (BITBLAS_DATABASE_PATH : string) (a : init_args) (w : World)
    : result t * World :=
  let operator_cache :=
    match arg_operator_cache a with Some c => c | None => global_operator_cache end in
  let (database_path, w) :=
    match arg_database_path a with
    | None => (BITBLAS_DATABASE_PATH, w)
    | Some p =>
        if path_exists w p then (p, w)
        else if arg_create_missing_path a then
          let (created, w) := os_makedirs w p in
          if created then (p, w) else (BITBLAS_DATABASE_PATH, w)
        else (BITBLAS_DATABASE_PATH, w)
    end in
  let in_features := arg_in_features a in
  let out_features := arg_out_features a in
  let group_size := _set_group_size (arg_group_size a) in_features in
  match torch_getattr (arg_A_dtype a) with
  | Raise e => (Raise e, w)
  | Ok torch_dtype =>
      let is_consitent := String.eqb (arg_A_dtype a) (arg_W_dtype a) in
      match _validate_parameters group_size in_features out_features with
      | Raise e => (Raise e, w)
      | Ok _ =>
          let (bitblas_matmul, w) :=
            _configure_bitblas_matmul operator_cache database_path (arg_opt_M a)
              out_features in_features group_size
              (arg_A_dtype a) (arg_W_dtype a) (arg_accum_dtype a) (arg_out_dtype a)
              (arg_with_scaling a) (arg_with_zeros a) (arg_zeros_mode a)
              (arg_enable_tuning a) (arg_fast_decoding a) (arg_bias a)
              (arg_propagate_b a) w in
          let self :=
            mk operator_cache database_path in_features out_features group_size
              torch_dtype is_consitent (arg_zeros_mode a) bitblas_matmul
              (Matmul.bit bitblas_matmul) (Matmul.source_format bitblas_matmul)
              None None None None None [] in
          (_initialize_buffers self in_features out_features (arg_bias a), w)
      end
  end.

(** [forward]: the layer with its refreshed [q_params], the output
    buffer, and the positional arguments [lib.call] is invoked with. *)
Definition forward (self : t) (A : Tensor) (output : option Tensor) (w : World)
    : result (t * Tensor * list carg) :=
  let A := Matmul.transform_input (bitblas_matmul self) A in
  let stream := cuda_stream w in
  let A_void := c_void_p A in
  let stream_handle := stream_handle stream in
  self <- init_params self ;;
  let args := A_void :: q_params self in
  output <-
    match output with
    | None =>
        dt <- torch_getattr (Matmul.out_dtype (bitblas_matmul self)) ;;
        torch_zeros (removelast (shape A) ++ [out_features self]) dt
    | Some o => Ok o
    end ;;
  let args := args ++ [c_void_p output] in
  let args :=
    match Matmul.dynamic_range (bitblas_matmul self) with
    | Some _ =>
        let m := prod (removelast (shape A)) in
        args ++ [py_int m]
    | None => args
    end in
  let args := args ++ [stream_handle] in
  Ok (self, output, args).

(** The branches of [repack_from_gptq] on the zeros mode of the handle's
    configuration, from the decoded integer zero-points [intzeros];
    [self.zeros] is assigned in each of the three recognised modes. *)
Definition store_zeros (self : t) (intzeros : Tensor) : result t :=
  let mode := MatmulConfig.zeros_mode (config self) in
  if match mode with Some m => String.eqb m "original" | None => false end then
    z <- to_dtype intzeros torch_float16 ;;
    Ok (set_zeros self (contiguous z))
  else if match mode with Some m => String.eqb m "rescale" | None => false end then
    lhs <- (z <- to_dtype intzeros torch_float16 ;; slice_all z) ;;
    rhs <- (s <- attr (scales self) ;; slice_all s) ;;
    product <- tensor_mul lhs rhs ;;
    zeros <- attr (zeros self) ;;
    zeros <- setitem_all zeros product ;;
    Ok (set_zeros self zeros)
  else if match mode with Some m => String.eqb m "quantized" | None => false end then
    zt <- transpose intzeros ;;
    compressed <- general_compress (contiguous zt) (bits self) ;;
    z <- to_dtype compressed torch_float32 ;;
    _ <- attr (qweight self) ;;
    zeros <- attr (zeros self) ;;
    z <- to_dtype (to_device z) (dtype_of zeros) ;;
    Ok (set_zeros self (contiguous z))
  else
    Raise (ValueError ("Unsupported zeros type: " ++ str_of mode)).

(** The body shared by [repack_from_gptq] and [repack_from_gptq_v2], which
    differ in the function that unpacks the zero-points.  The layer is
    returned as the call leaves it, also when the call raises. *)
Definition repack (unpack : Tensor -> Z -> result Tensor)
    (self : t) (gptq_module : GPTQ.t) : t * result unit :=
  match (q <- transpose (GPTQ.qweight gptq_module) ;;
         view (contiguous q) TORCH_STORAGE_DTYPE) with
  | Raise e => (self, Raise e)
  | Ok qweight =>
  match unpack_qweight qweight (bits self) with
  | Raise e => (self, Raise e)
  | Ok intweight =>
  let intweight := contiguous intweight in
  let qweight :=
    match Matmul.weight_transform (bitblas_matmul self) with
    | Some weight_transform => to_device (weight_transform (to_device intweight))
    | None => qweight
    end in
  let self := set_qweight self qweight in
  match (s <- transpose (GPTQ.scales gptq_module) ;;
         view (contiguous s) (torch_dtype self)) with
  | Raise e => (self, Raise e)
  | Ok scales =>
  let self := set_scales self scales in
  match (z <- unpack (GPTQ.qzeros gptq_module) (bits self) ;;
         zt <- transpose z ;; Ok (contiguous zt)) with
  | Raise e => (self, Raise e)
  | Ok intzeros =>
  match store_zeros self intzeros with
  | Raise e => (self, Raise e)
  | Ok self =>
  match bias self with
  | None => (self, Ok tt)
  | Some _ =>
      match (b <- attr (GPTQ.bias gptq_module) ;; to_dtype b torch_float16) with
      | Raise e => (self, Raise e)
      | Ok b => (set_bias self (Some (contiguous b)), Ok tt)
      end
  end end end end end end.

Definition repack_from_gptq (self : t) (gptq_module : GPTQ.t) (device : string)
    : t * result unit :=
  repack unpack_qzeros self gptq_module.

Definition repack_from_gptq_v2 (self : t) (gptq_module : GPTQ.t) : t * result unit :=
  repack unpack_qzeros_v2 self gptq_module.

End Linear.

(** The world after the lazy hydration at the start of a lookup. *)
Definition hydrated (ref : nat) (path : string) (w : World) : World :=
  if OperatorCache.size (caches w ref) =? 0 then
    OperatorCache.load_from_database ref path (auto_detect_nvidia_target w) w
  else w.


(** ** Sample values for the worked instances *)

(** A tensor of the given shape with every element equal to [v]. *)
Definition filled (dt : dtype) (r c : nat) (v : Z) : Tensor :=
  mkTensor dt [Z.of_nat r; Z.of_nat c] (repeat (repeat v c) r).

Definition sample_kernel : Kernel :=
  mkKernel 4 "uint" "float16" (Some [16; 32; 64; 128; 256; 512]) [16; 8] None (fun A => A).

Definition sample_world : World :=
  mkWorld "cuda" (fun _ _ => sample_kernel) 7 0%nat (fun _ => []) (fun _ _ => []) []
    (fun _ => true) (fun _ => true) (fun _ _ => true) false [].

(** Arguments of [__init__] for a layer of 16 inputs and 16 outputs with a
    bias, every other argument at its default but the ones given. *)
Definition sample_args (A_dtype W_dtype : string) (with_scaling with_zeros : bool)
    (zeros_mode : option string) (enable_tuning : bool) : Linear.init_args :=
  Linear.mk_args 16 16 true A_dtype W_dtype "float16" "float16" (Some (-1))
    (Some with_scaling) with_zeros zeros_mode Linear.opt_M enable_tuning None false
    None None true.

Definition sample_config (A_dtype : string) (zeros_mode : option string) : MatmulConfig.t :=
  MatmulConfig.mk Linear.opt_M 16 16 A_dtype "int4" "float16" "float16" "int8"
    (Some true) true 16 None true false zeros_mode "SingleBatchDecodeOnly".

(** The quantized layer [__init__] builds in [sample_world] from
    [sample_args A_dtype "int4" true true zeros_mode true], where [dt] is
    the dtype named by [A_dtype]: 16 inputs and 16 outputs at 4 bits, with
    empty buffers. *)
Definition sample_layer (A_dtype : string) (dt : dtype) (zeros_mode : option string)
    : Linear.t :=
  Linear.mk 0%nat "default" 16 16 16 dt false zeros_mode
    (Matmul.mk 0%nat (sample_config A_dtype zeros_mode) "cuda" sample_kernel) 4 "uint"
    None (Some (filled torch_int8 16 8 0)) (Some (filled dt 16 1 0))
    (Some (filled dt 16 1 0)) (Some (mkTensor dt [16] [repeat 0 16])) [].

(** A foreign module for that layer: 4-bit weights packed in 32-bit units
    along the input axis (every byte is [0x12]), one group per output,
    scales and bias of dtype [dt] with the bit pattern [scale], and every
    packed zero-point field equal to 1. *)
Definition sample_gptq (dt : dtype) (scale : Z) : GPTQ.t :=
  GPTQ.mk (filled torch_int32 2 16 303174162) (filled dt 1 16 scale)
    (filled torch_int32 1 2 286331153) (Some (mkTensor dt [16] [repeat scale 16])).

(** ** The remaining methods of the layer *)

(** The database path [__init__] settles on (lines 135 to 159 of the
    module): the requested path when it exists or can be created, the
    default one otherwise. *)
Definition resolve_database_path (BITBLAS_DATABASE_PATH : string) (a : Linear.init_args)
    (w : World) : string * World :=
  match Linear.arg_database_path a with
  | None => (BITBLAS_DATABASE_PATH, w)
  | Some p =>
      if path_exists w p then (p, w)
      else if Linear.arg_create_missing_path a then
        let (created, w) := os_makedirs w p in
        if created then (p, w) else (BITBLAS_DATABASE_PATH, w)
      else (BITBLAS_DATABASE_PATH, w)
  end.

(** How a call of [load_and_transform_weight] ends: normally, on one of its
    two assertions, or on an exception of the weight transform or of
    [nn.Parameter]. *)
Inductive load_outcome : Type :=
| Loaded
| AssertionError (msg : string)
| Raised (e : exn).

(** [nn.Parameter(t)]: a parameter requires gradients, which only a
    tensor of a floating dtype can. *)
Definition nn_Parameter (t : Tensor) : result Tensor :=
  if is_floating_point (dtype_of t) then Ok t else Raise RuntimeError.

(** [load_and_transform_weight].  [transform_weight] is the method of the
    handle that brings a weight into the layout of the kernel; it belongs
    to the kernel-compilation subsystem and is taken as a parameter.  The
    layer is returned as the call leaves it. *)
Definition load_and_transform_weight
    (transform_weight : Matmul.t -> Tensor -> result Tensor)
    (self : Linear.t) (weight : Tensor) (scales zeros bias : option Tensor)
    : Linear.t * load_outcome :=
  if Linear.consistent self then
    match scales with
    | Some _ => (self, AssertionError "scales should be None for consistent mode.")
    | None =>
    match zeros with
    | Some _ => (self, AssertionError "zeros should be None for consistent mode.")
    | None =>
    match transform_weight (Linear.bitblas_matmul self) weight with
    | Raise e => (self, Raised e)
    | Ok weight =>
    match nn_Parameter weight with
    | Raise e => (self, Raised e)
    | Ok weight =>
    let self := Linear.set_weight self weight in
    match bias with
    | Some b => (Linear.set_bias self (Some b), Loaded)
    | None => (self, Loaded)
    end end end end end
  else
    match transform_weight (Linear.bitblas_matmul self) weight with
    | Raise e => (self, Raised e)
    | Ok weight =>
    let self := Linear.set_qweight self weight in
    let self := match scales with Some s => Linear.set_scales self s | None => self end in
    let self := match zeros with Some z => Linear.set_zeros self z | None => self end in
    let self := match bias with Some b => Linear.set_bias self (Some b) | None => self end in
    (self, Loaded)
    end.

(** Every entry of a cache is stored under the configuration of its own
    handle. *)
Definition coherent (c : Cache) : Prop :=
  Forall (fun e => Matmul.config (snd e) = fst e) c.

(** The configuration [_configure_bitblas_matmul] asks the cache for. *)
Definition config_of_args (a : Linear.init_args) : MatmulConfig.t :=
  MatmulConfig.mk (Linear.arg_opt_M a) (Linear.arg_out_features a)
    (Linear.arg_in_features a) (Linear.arg_A_dtype a) (Linear.arg_W_dtype a)
    (Linear.arg_accum_dtype a) (Linear.arg_out_dtype a) Linear.STORAGE_DTYPE
    (Linear.arg_with_scaling a) (Linear.arg_with_zeros a)
    (Linear._set_group_size (Linear.arg_group_size a) (Linear.arg_in_features a))
    (Linear.arg_fast_decoding a) (Linear.arg_bias a) (Linear.arg_propagate_b a)
    (Linear.arg_zeros_mode a) "SingleBatchDecodeOnly".

(** Two layers agree on every attribute that is not a buffer. *)
Definition same_settings (s0 self : Linear.t) : Prop :=
  Linear.operator_cache s0 = Linear.operator_cache self /\
  Linear.database_path s0 = Linear.database_path self /\
  Linear.in_features s0 = Linear.in_features self /\
  Linear.out_features s0 = Linear.out_features self /\
  Linear.group_size s0 = Linear.group_size self /\
  Linear.torch_dtype s0 = Linear.torch_dtype self /\
  Linear.is_consitent s0 = Linear.is_consitent self /\
  Linear.zeros_mode s0 = Linear.zeros_mode self /\
  Linear.bitblas_matmul s0 = Linear.bitblas_matmul self /\
  Linear.bits s0 = Linear.bits self /\
  Linear.source_format s0 = Linear.source_format self /\
  Linear.q_params s0 = Linear.q_params self.

(** The line [_get_or_create_bitblas_operator] prints before the first
    tuning run of the process. *)
Definition tuning_message : string :=
  "Compiling matmul kernels...this may take a few minutes. This is a one-time operation.".

(** The number of times a line has been printed. *)
Definition printed (w : World) (line : string) : nat :=
  count_occ string_dec (stdout w) line.

(** * Properties *)

(** ** Fixed-width integers *)

Lemma wrap_mod (w z : Z) : 0 < w -> wrap w z mod 2 ^ w = z mod 2 ^ w.
Proof.
  intros Hw. unfold wrap.
  rewrite Zminus_mod_idemp_l. f_equal. lia.
Qed.

Lemma wrap_range (w z : Z) : 0 < w -> - 2 ^ (w - 1) <= wrap w z < 2 ^ (w - 1).
Proof.
  intros Hw. unfold wrap.
  assert (H2 : 2 ^ w = 2 * 2 ^ (w - 1)).
  { rewrite <- Z.pow_succ_r by lia. f_equal. lia. }
  assert (Hp : 0 < 2 ^ (w - 1)) by (apply Z.pow_pos_nonneg; lia).
  pose proof (Z.mod_pos_bound (z + 2 ^ (w - 1)) (2 ^ w)) as Hb. lia.
Qed.

Lemma wrap_small (w z : Z) :
  0 < w -> - 2 ^ (w - 1) <= z < 2 ^ (w - 1) -> wrap w z = z.
Proof.
  intros Hw Hz. unfold wrap.
  assert (H2 : 2 ^ w = 2 * 2 ^ (w - 1)).
  { rewrite <- Z.pow_succ_r by lia. f_equal. lia. }
  rewrite Z.mod_small by lia. lia.
Qed.

Lemma wrap_testbit (w z m : Z) :
  0 < w -> 0 <= m < w -> Z.testbit (wrap w z) m = Z.testbit z m.
Proof.
  intros Hw Hm.
  rewrite <- (Z.mod_pow2_bits_low (wrap w z) w m) by lia.
  rewrite wrap_mod by lia.
  apply Z.mod_pow2_bits_low. lia.
Qed.

Lemma wrap_wrap_add (w z k : Z) : 0 < w -> wrap w (wrap w z + k) = wrap w (z + k).
Proof.
  intros Hw. unfold wrap at 1 3. f_equal. 
  replace (wrap w z + k + 2 ^ (w - 1)) with (wrap w z + (k + 2 ^ (w - 1))) by lia.
  replace (z + k + 2 ^ (w - 1)) with (z + (k + 2 ^ (w - 1))) by lia.
  rewrite <- Zplus_mod_idemp_l, wrap_mod, Zplus_mod_idemp_l by lia. reflexivity.
Qed.

Lemma mask_ones (b : Z) : 2 ^ b - 1 = Z.ones b.
Proof. rewrite Z.ones_equiv. lia. Qed.

(** The low [b] bits of an 8-bit value do not depend on the wrap-around. *)
Lemma land_wrap_mask (b z : Z) :
  0 <= b <= 8 -> Z.land (wrap 8 z) (2 ^ b - 1) = z mod 2 ^ b.
Proof.
  intros Hb. rewrite mask_ones, Z.land_ones by lia.
  rewrite <- (Z.mod_mod_divide (wrap 8 z) (2 ^ 8) (2 ^ b)).
  - rewrite wrap_mod by lia. apply Z.mod_mod_divide.
    exists (2 ^ (8 - b)). rewrite <- Z.pow_add_r by lia. f_equal. lia.
  - exists (2 ^ (8 - b)). rewrite <- Z.pow_add_r by lia. f_equal. lia.
Qed.

(** A logical shift of the unsigned unit and an arithmetic shift of the
    signed unit agree on every field that lies inside the unit. *)
Lemma extract_field_shiftr (N u b i : Z) :
  0 <= b -> 0 <= i -> b * i + b <= N ->
  extract_field N u b i = Z.shiftr u (b * i) mod 2 ^ b.
Proof.
  intros Hb Hi HN. unfold extract_field, unsigned.
  rewrite mask_ones, Z.land_ones by lia.
  apply Z.bits_inj'. intros m Hm.
  destruct (Z_lt_ge_dec m b) as [Hlt | Hge].
  - rewrite !Z.mod_pow2_bits_low by lia.
    rewrite !Z.shiftr_spec by lia.
    apply Z.mod_pow2_bits_low. nia.
  - rewrite !Z.mod_pow2_bits_high by lia. reflexivity.
Qed.

Lemma extract_field_range (N u b i : Z) :
  0 <= b -> 0 <= extract_field N u b i < 2 ^ b.
Proof.
  intros Hb. unfold extract_field.
  rewrite mask_ones, Z.land_ones by lia.
  apply Z.mod_pos_bound. apply Z.pow_pos_nonneg; lia.
Qed.

(** ** Lists *)

Lemma repeat_as_map {A B : Type} (x : A) (l : list B) :
  repeat x (length l) = map (fun _ => x) l.
Proof. induction l; simpl; congruence. Qed.

Lemma map2_map_map {A B C D : Type} (f : B -> C -> D) (g : A -> B) (h : A -> C) (l : list A) :
  map2 f (map g l) (map h l) = map (fun a => f (g a) (h a)) l.
Proof. induction l; simpl; congruence. Qed.

Lemma update_app_repeat {A : Type} (l : list A) (x d : A) (n : nat) :
  update (length l) x (l ++ repeat d (S n)) = (l ++ [x]) ++ repeat d n.
Proof. induction l as [|a l IH]; simpl in *; [reflexivity | now rewrite IH]. Qed.

Lemma range_succ (n : nat) : range (Z.of_nat (S n)) = range (Z.of_nat n) ++ [Z.of_nat n].
Proof.
  unfold range. rewrite !Nat2Z.id, seq_S, map_app. reflexivity.
Qed.

Lemma range_length (n : nat) : length (range (Z.of_nat n)) = n.
Proof. unfold range. rewrite length_map, length_seq, Nat2Z.id. reflexivity. Qed.

Lemma nth_range (n j : nat) : (j < n)%nat -> nth j (range (Z.of_nat n)) 0 = Z.of_nat j.
Proof.
  intros H. unfold range. rewrite Nat2Z.id.
  change 0 with (Z.of_nat 0). rewrite map_nth, seq_nth by lia. reflexivity.
Qed.

(** ** The unpacking loop *)

Lemma unpack_loop_prefix (packed unpacked : Tensor) (elems bits : Z) (n : nat) :
  dtype_of unpacked = torch_int8 ->
  rows unpacked = map (fun _ => repeat 0 n) (rows packed) ->
  forall k, (k <= n)%nat ->
    let t := unpack_loop packed unpacked elems bits (Z.of_nat k) in
    dtype_of t = torch_int8 /\ shape t = shape unpacked /\
    rows t = map (fun prow => map (unpacked_at elems bits prow) (range (Z.of_nat k))
                                ++ repeat 0 (n - k)) (rows packed).
Proof.
  intros Hdt Hrows. induction k as [|k IH]; intros Hk; cbn zeta.
  - unfold unpack_loop. simpl. rewrite Nat.sub_0_r. auto.
  - destruct IH as (IHd & IHs & IHr); [lia|].
    unfold unpack_loop in *. rewrite range_succ, fold_left_app. simpl.
    set (t := fold_left _ (range (Z.of_nat k)) unpacked) in *.
    unfold set_column. cbn [dtype_of shape rows]. repeat split; auto.
    rewrite IHr, IHd. unfold column.
    rewrite map_map, map2_map_map. apply map_ext. intros prow.
    replace (n - k)%nat with (S (n - S k)) by lia.
    change (itemsize torch_int8) with 1. change (8 * 1) with 8.
    rewrite Nat2Z.id.
    rewrite <- (range_length k) at 1.
    rewrite <- (length_map (unpacked_at elems bits prow)).
    rewrite update_app_repeat, map_app. reflexivity.
Qed.

Lemma unpack_loop_rows (packed unpacked : Tensor) (elems bits : Z) (n : nat) :
  dtype_of unpacked = torch_int8 ->
  rows unpacked = map (fun _ => repeat 0 n) (rows packed) ->
  let t := unpack_loop packed unpacked elems bits (Z.of_nat n) in
  dtype_of t = torch_int8 /\ shape t = shape unpacked /\
  rows t = map (fun prow => map (unpacked_at elems bits prow) (range (Z.of_nat n)))
             (rows packed).
Proof.
  intros Hdt Hrows.
  destruct (unpack_loop_prefix packed unpacked elems bits n Hdt Hrows n (le_n n))
    as (Hd & Hs & Hr).
  cbn zeta. repeat split; auto.
  rewrite Hr. apply map_ext. intros prow.
  rewrite Nat.sub_diag. simpl. apply app_nil_r.
Qed.

Lemma prod_single (a : Z) : prod [a] = a.
Proof. unfold prod. simpl. destruct a; reflexivity. Qed.

Lemma forallb_nonneg_2 (a b : Z) :
  0 <= a -> 0 <= b -> forallb (fun d => 0 <=? d) [a; b] = true.
Proof. intros Ha Hb. simpl. rewrite !(proj2 (Z.leb_le _ _)) by lia. reflexivity. Qed.

(** The allocation and the loop together, on a matrix of [r] rows and [c]
    storage units of [N] bits per row. *)
Lemma unpack_body (packed : Tensor) (r c : nat) (N bits : Z) :
  matrix packed r c -> 0 < bits -> 0 <= N ->
  exists u,
    torch_zeros [Z.of_nat r; Z.of_nat c * (N / bits)] torch_int8 = Ok u /\
    let t := unpack_loop packed u (N / bits) bits (Z.of_nat c * (N / bits)) in
    dtype_of t = torch_int8 /\
    shape t = [Z.of_nat r; Z.of_nat c * (N / bits)] /\
    rows t = map (fun prow => map (unpacked_at (N / bits) bits prow)
                                (range (Z.of_nat c * (N / bits)))) (rows packed).
Proof.
  intros (Hs & Hl & Hr) Hb HN.
  assert (He : 0 <= N / bits) by (apply Z.div_pos; lia).
  unfold torch_zeros. rewrite forallb_nonneg_2 by lia.
  eexists. split; [reflexivity|].
  set (n := Z.to_nat (Z.of_nat c * (N / bits))).
  assert (Hn : Z.of_nat c * (N / bits) = Z.of_nat n) by (unfold n; lia).
  rewrite Hn.
  match goal with |- context [unpack_loop packed ?u _ _ _] =>
    destruct (unpack_loop_rows packed u (N / bits) bits n) as (Hd' & Hs' & Hr')
  end.
  - reflexivity.
  - cbn [rows last removelast]. rewrite prod_single, !Nat2Z.id, <- Hl.
    apply repeat_as_map.
  - cbn zeta. rewrite Hd', Hs', Hr'. cbn [shape]. auto.
Qed.

Lemma mask_fits (bits : Z) :
  0 < bits <= 32 -> (2 ^ bits - 1 <? - 2 ^ 63) || (2 ^ 63 <=? 2 ^ bits - 1) = false.
Proof.
  intros Hb.
  assert (H1 : 2 ^ bits <= 2 ^ 32) by (apply Z.pow_le_mono_r; lia).
  assert (H0 : 0 < 2 ^ bits) by (apply Z.pow_pos_nonneg; lia).
  apply orb_false_iff. split; [apply Z.ltb_ge | apply Z.leb_gt]; lia.
Qed.

Lemma unpack_qweight_rows (qweight : Tensor) (r c : nat) (bits : Z) :
  dtype_of qweight = torch_int8 -> matrix qweight r c -> 0 < bits <= 32 ->
  unpack_qweight qweight bits =
  Ok (mkTensor torch_int8 [Z.of_nat r; Z.of_nat c * (8 / bits)]
        (map (fun prow => map (raw_at (8 / bits) bits prow)
                            (range (Z.of_nat c * (8 / bits)))) (rows qweight))).
Proof.
  intros Hdt Hm Hb. unfold unpack_qweight, view.
  rewrite Hdt. cbn [dtype_eqb bind]. unfold floordiv.
  rewrite (proj2 (Z.eqb_neq bits 0)) by lia. cbn [bind].
  destruct Hm as (Hs & Hm'). unfold dim. rewrite Hs. cbn [nth_error bind].
  destruct (unpack_body qweight r c 8 bits (conj Hs Hm')) as (u & Hu & Hd & Hsh & Hr);
    [lia .. |].
  rewrite Hu. cbn [bind]. unfold mask_of.
  rewrite (proj2 (Z.ltb_ge bits 0)) by lia. cbn [bind].
  unfold bitwise_and. rewrite Hd. cbn [is_floating_point].
  rewrite mask_fits by lia. rewrite Hsh, Hr, map_map.
  do 2 f_equal. apply map_ext. intros prow. rewrite map_map. reflexivity.
Qed.

Lemma unpack_qzeros_v2_rows (qzeros : Tensor) (r c : nat) (bits : Z) :
  dtype_of qzeros = torch_int32 -> matrix qzeros r c -> 0 < bits <= 32 ->
  unpack_qzeros_v2 qzeros bits =
  Ok (mkTensor torch_int8 [Z.of_nat r; Z.of_nat c * (32 / bits)]
        (map (fun prow => map (raw_at (32 / bits) bits prow)
                            (range (Z.of_nat c * (32 / bits)))) (rows qzeros))).
Proof.
  intros Hdt Hm Hb. unfold unpack_qzeros_v2, view.
  rewrite Hdt. cbn [dtype_eqb bind]. unfold floordiv.
  rewrite (proj2 (Z.eqb_neq bits 0)) by lia. cbn [bind].
  destruct Hm as (Hs & Hm'). unfold dim. rewrite Hs. cbn [nth_error bind].
  destruct (unpack_body qzeros r c 32 bits (conj Hs Hm')) as (u & Hu & Hd & Hsh & Hr);
    [lia .. |].
  rewrite Hu. cbn [bind]. unfold mask_of.
  rewrite (proj2 (Z.ltb_ge bits 0)) by lia. cbn [bind].
  unfold bitwise_and. rewrite Hd. cbn [is_floating_point].
  rewrite mask_fits by lia. rewrite Hsh, Hr, map_map.
  do 2 f_equal. apply map_ext. intros prow. rewrite map_map. reflexivity.
Qed.

Lemma unpack_qzeros_rows (qzeros : Tensor) (r c : nat) (bits : Z) :
  dtype_of qzeros = torch_int32 -> matrix qzeros r c -> 0 < bits <= 32 ->
  unpack_qzeros qzeros bits =
  Ok (mkTensor torch_int8 [Z.of_nat r; Z.of_nat c * (32 / bits)]
        (map (fun prow => map (corrected_at (32 / bits) bits prow)
                            (range (Z.of_nat c * (32 / bits)))) (rows qzeros))).
Proof.
  intros Hdt Hm Hb. unfold unpack_qzeros, view.
  rewrite Hdt. cbn [dtype_eqb bind]. unfold floordiv.
  rewrite (proj2 (Z.eqb_neq bits 0)) by lia. cbn [bind].
  destruct Hm as (Hs & Hm'). unfold dim. rewrite Hs. cbn [nth_error bind].
  destruct (unpack_body qzeros r c 32 bits (conj Hs Hm')) as (u & Hu & Hd & Hsh & Hr);
    [lia .. |].
  rewrite Hu. cbn [bind]. unfold mask_of.
  rewrite (proj2 (Z.ltb_ge bits 0)) by lia. cbn [bind].
  unfold bitwise_and, add_scalar. cbn [dtype_of shape rows]. rewrite Hd.
  cbn [is_floating_point].
  rewrite mask_fits by lia. rewrite Hsh, Hr, !map_map.
  do 2 f_equal. apply map_ext. intros prow. rewrite !map_map. reflexivity.
Qed.

(** ** Elements of the unpacked tensors *)

Lemma wrap_congr (w x y : Z) : 0 < w -> x mod 2 ^ w = y mod 2 ^ w -> wrap w x = wrap w y.
Proof.
  intros Hw H. unfold wrap. f_equal.
  rewrite <- (Zplus_mod_idemp_l x), <- (Zplus_mod_idemp_l y), H. reflexivity.
Qed.

Lemma testbit_small (v b m : Z) : 0 <= v < 2 ^ b -> b <= m -> Z.testbit v m = false.
Proof.
  intros Hv Hm.
  destruct (Z_lt_ge_dec b 0) as [Hneg | Hpos].
  - rewrite Z.pow_neg_r in Hv by lia. lia.
  - rewrite <- (Z.mod_small v (2 ^ b)) by lia.
    apply Z.mod_pow2_bits_high. lia.
Qed.

Lemma widths_cases (b : Z) : In b [1; 2; 4; 8] -> b = 1 \/ b = 2 \/ b = 4 \/ b = 8.
Proof. simpl. intuition lia. Qed.

Lemma wrap_mask (b : Z) :
  In b [1; 2; 4; 8] -> wrap 8 (2 ^ b - 1) = if b =? 8 then -1 else 2 ^ b - 1.
Proof.
  intros H. apply widths_cases in H.
  destruct H as [-> | [-> | [-> | ->]]]; reflexivity.
Qed.

(** The position of sub-field [col mod e] lies inside the storage unit. *)
Lemma field_inside (N b col : Z) :
  0 < b -> b <= N -> 0 <= col ->
  0 <= col mod (N / b) /\ b * (col mod (N / b)) + b <= N.
Proof.
  intros Hb HN Hc.
  assert (He : 0 < N / b) by (apply Z.div_str_pos; lia).
  pose proof (Z.mod_pos_bound col (N / b) He) as Hm.
  pose proof (Z.mul_div_le N b Hb) as Hd.
  split; [lia | nia].
Qed.

(** An element of [unpack_qweight] or [unpack_qzeros_v2] is the field of
    the specification, stored as a signed 8-bit value. *)
Lemma raw_at_field (N b : Z) (prow : list Z) (col : Z) :
  In b [1; 2; 4; 8] -> 8 <= N -> 0 <= col ->
  raw_at (N / b) b prow col =
  wrap 8 (extract_field N (nth (Z.to_nat (col / (N / b))) prow 0) b (col mod (N / b))).
Proof.
  intros Hb HN Hc. unfold raw_at, unpacked_at.
  set (u := nth _ prow 0). set (i := col mod (N / b)).
  assert (Hb' : 0 < b <= 8) by (apply widths_cases in Hb; lia).
  destruct (field_inside N b col) as (Hi & Hin); [lia .. |]. fold i in Hi, Hin.
  rewrite extract_field_shiftr by lia.
  rewrite wrap_mask by assumption.
  destruct (Z.eqb_spec b 8) as [-> | Hne].
  - rewrite Z.land_m1_r. apply wrap_congr; [lia|].
    rewrite Z.mod_mod; [reflexivity | lia].
  - rewrite land_wrap_mask by lia.
    symmetry. apply wrap_small; [lia|].
    assert (Hlt : 2 ^ b <= 2 ^ 4).
    { apply Z.pow_le_mono_r; [lia|]. apply widths_cases in Hb. lia. }
    pose proof (Z.mod_pos_bound (Z.shiftr u (b * i)) (2 ^ b)) as Hm.
    assert (0 < 2 ^ b) by (apply Z.pow_pos_nonneg; lia).
    change (2 ^ 4) with 16 in Hlt. change (2 ^ (8 - 1)) with 128. lia.
Qed.

(** An element of [unpack_qzeros] is the field plus one, masked to the bit
    width, stored as a signed 8-bit value. *)
Lemma corrected_at_field (N b : Z) (prow : list Z) (col : Z) :
  In b [1; 2; 4; 8] -> 8 <= N -> 0 <= col ->
  corrected_at (N / b) b prow col =
  wrap 8 (Z.land
            (extract_field N (nth (Z.to_nat (col / (N / b))) prow 0) b (col mod (N / b)) + 1)
            (2 ^ b - 1)).
Proof.
  intros Hb HN Hc. unfold corrected_at, unpacked_at.
  set (u := nth _ prow 0). set (i := col mod (N / b)).
  assert (Hb' : 0 < b <= 8) by (apply widths_cases in Hb; lia).
  destruct (field_inside N b col) as (Hi & Hin); [lia .. |]. fold i in Hi, Hin.
  rewrite extract_field_shiftr by lia.
  rewrite wrap_mask by assumption.
  rewrite wrap_wrap_add by lia.
  rewrite (mask_ones b), (Z.land_ones _ b) by lia.
  rewrite Zplus_mod_idemp_l.
  destruct (Z.eqb_spec b 8) as [-> | Hne].
  - rewrite Z.land_m1_r. apply wrap_congr; [lia|].
    rewrite Z.mod_mod; [reflexivity | lia].
  - rewrite <- mask_ones, land_wrap_mask by lia.
    symmetry. apply wrap_small; [lia|].
    assert (Hlt : 2 ^ b <= 2 ^ 4).
    { apply Z.pow_le_mono_r; [lia|]. apply widths_cases in Hb. lia. }
    pose proof (Z.mod_pos_bound (Z.shiftr u (b * i) + 1) (2 ^ b)) as Hm.
    assert (0 < 2 ^ b) by (apply Z.pow_pos_nonneg; lia).
    change (2 ^ 4) with 16 in Hlt. change (2 ^ (8 - 1)) with 128. lia.
Qed.

Lemma entry_map_rows (dt : dtype) (sh : list Z) (F : list Z -> Z -> Z)
      (rs : list (list Z)) (n i j : nat) :
  (i < length rs)%nat -> (j < n)%nat ->
  entry (mkTensor dt sh (map (fun prow => map (F prow) (range (Z.of_nat n))) rs)) i j =
  F (nth i rs []) (Z.of_nat j).
Proof.
  intros Hi Hj. unfold entry. cbn [rows].
  rewrite (nth_indep _ [] (map (F []) (range (Z.of_nat n))))
    by (rewrite length_map; exact Hi).
  rewrite (map_nth (fun prow => map (F prow) (range (Z.of_nat n)))).
  rewrite (nth_indep _ 0 (F (nth i rs []) 0))
    by (rewrite length_map, range_length; exact Hj).
  rewrite (map_nth (F (nth i rs []))), nth_range by exact Hj. reflexivity.
Qed.

Lemma matrix_map_rows (dt : dtype) (F : list Z -> Z -> Z) (rs : list (list Z)) (r n : nat) :
  length rs = r ->
  matrix (mkTensor dt [Z.of_nat r; Z.of_nat n]
            (map (fun prow => map (F prow) (range (Z.of_nat n))) rs)) r n.
Proof.
  intros Hl. unfold matrix. cbn [shape rows]. repeat split.
  - rewrite length_map. exact Hl.
  - apply Forall_forall. intros row Hin. apply in_map_iff in Hin.
    destruct Hin as (prow & <- & _). rewrite length_map. apply range_length.
Qed.

(** The number of columns after unpacking [c] units of [N] bits. *)
Lemma unpacked_columns (N b : Z) (c : nat) :
  0 < b -> 0 <= N ->
  Z.of_nat c * (N / b) = Z.of_nat (c * Z.to_nat (N / b)).
Proof.
  intros Hb HN. assert (0 <= N / b) by (apply Z.div_pos; lia). lia.
Qed.

Lemma wrap_field (N u b i : Z) :
  0 <= b < 8 -> wrap 8 (extract_field N u b i) = extract_field N u b i.
Proof.
  intros Hb. apply wrap_small; [lia|].
  pose proof (extract_field_range N u b i (proj1 Hb)) as Hr.
  assert (2 ^ b <= 2 ^ 7) by (apply Z.pow_le_mono_r; lia).
  change (2 ^ (8 - 1)) with 128. change (2 ^ 7) with 128 in *. lia.
Qed.

Lemma wrap_masked (x b : Z) :
  0 <= b < 8 -> wrap 8 (Z.land x (2 ^ b - 1)) = Z.land x (2 ^ b - 1).
Proof.
  intros Hb. apply wrap_small; [lia|].
  rewrite mask_ones, Z.land_ones by lia.
  pose proof (Z.mod_pos_bound x (2 ^ b)) as Hr.
  assert (0 < 2 ^ b) by (apply Z.pow_pos_nonneg; lia).
  assert (2 ^ b <= 2 ^ 7) by (apply Z.pow_le_mono_r; lia).
  change (2 ^ (8 - 1)) with 128. change (2 ^ 7) with 128 in *. lia.
Qed.

(** The elements of [unpack_qweight]. *)
Lemma unpack_qweight_entries (b : Z) (qweight : Tensor) (r c : nat) :
  In b [1; 2; 4; 8] -> dtype_of qweight = torch_int8 -> matrix qweight r c ->
  exists out,
    unpack_qweight qweight b = Ok out /\
    dtype_of out = torch_int8 /\
    matrix out r (c * Z.to_nat (8 / b)) /\
    forall i j, (i < r)%nat -> (j < c * Z.to_nat (8 / b))%nat ->
      entry out i j =
      wrap 8 (extract_field 8 (entry qweight i (Z.to_nat (Z.of_nat j / (8 / b))))
                b (Z.of_nat j mod (8 / b))).
Proof.
  intros Hb Hdt Hm.
  assert (Hb' : 0 < b <= 8) by (apply widths_cases in Hb; lia).
  rewrite (unpack_qweight_rows qweight r c b Hdt Hm) by lia.
  rewrite unpacked_columns by lia.
  destruct Hm as (_ & Hl & _).
  eexists. split; [reflexivity|]. split; [reflexivity|].
  split; [apply matrix_map_rows; exact Hl|].
  intros i j Hi Hj.
  rewrite entry_map_rows by (rewrite ?Hl; assumption).
  apply raw_at_field; [assumption | lia | lia].
Qed.

(** The elements of [unpack_qzeros_v2]. *)
Lemma unpack_qzeros_v2_entries (b : Z) (qzeros : Tensor) (r c : nat) :
  In b [1; 2; 4; 8] -> dtype_of qzeros = torch_int32 -> matrix qzeros r c ->
  exists out,
    unpack_qzeros_v2 qzeros b = Ok out /\
    dtype_of out = torch_int8 /\
    matrix out r (c * Z.to_nat (32 / b)) /\
    forall i j, (i < r)%nat -> (j < c * Z.to_nat (32 / b))%nat ->
      entry out i j =
      wrap 8 (extract_field 32 (entry qzeros i (Z.to_nat (Z.of_nat j / (32 / b))))
                b (Z.of_nat j mod (32 / b))).
Proof.
  intros Hb Hdt Hm.
  assert (Hb' : 0 < b <= 8) by (apply widths_cases in Hb; lia).
  rewrite (unpack_qzeros_v2_rows qzeros r c b Hdt Hm) by lia.
  rewrite unpacked_columns by lia.
  destruct Hm as (_ & Hl & _).
  eexists. split; [reflexivity|]. split; [reflexivity|].
  split; [apply matrix_map_rows; exact Hl|].
  intros i j Hi Hj.
  rewrite entry_map_rows by (rewrite ?Hl; assumption).
  apply raw_at_field; [assumption | lia | lia].
Qed.

(** The elements of [unpack_qzeros]. *)
Lemma unpack_qzeros_entries (b : Z) (qzeros : Tensor) (r c : nat) :
  In b [1; 2; 4; 8] -> dtype_of qzeros = torch_int32 -> matrix qzeros r c ->
  exists out,
    unpack_qzeros qzeros b = Ok out /\
    dtype_of out = torch_int8 /\
    matrix out r (c * Z.to_nat (32 / b)) /\
    forall i j, (i < r)%nat -> (j < c * Z.to_nat (32 / b))%nat ->
      entry out i j =
      wrap 8 (Z.land
                (extract_field 32 (entry qzeros i (Z.to_nat (Z.of_nat j / (32 / b))))
                   b (Z.of_nat j mod (32 / b)) + 1)
                (2 ^ b - 1)).
Proof.
  intros Hb Hdt Hm.
  assert (Hb' : 0 < b <= 8) by (apply widths_cases in Hb; lia).
  rewrite (unpack_qzeros_rows qzeros r c b Hdt Hm) by lia.
  rewrite unpacked_columns by lia.
  destruct Hm as (_ & Hl & _).
  eexists. split; [reflexivity|]. split; [reflexivity|].
  split; [apply matrix_map_rows; exact Hl|].
  intros i j Hi Hj.
  rewrite entry_map_rows by (rewrite ?Hl; assumption).
  apply corrected_at_field; [assumption | lia | lia].
Qed.

(** ** The fields of the storage units (C3) *)

(** For a bit width [b] in {1, 2, 4, 8}, column [j] of the
    result of [unpack_qweight] (8-bit units) and of [unpack_qzeros_v2]
    (32-bit units) is sub-field [j mod (N/b)] of storage unit [j / (N/b)],
    extracted by a logical shift of the unsigned unit and a mask, and kept
    as a signed 8-bit value; [unpack_qzeros] keeps that field plus one,
    masked again.  For [b] in {1, 2, 4} the stored value is the unsigned
    field itself and lies in [0, 2^b), also when the unit is negative. *)
Proposition unpack_extracts_fields (b : Z) :
  In b [1; 2; 4; 8] ->
  (forall (qweight : Tensor) (r c : nat),
      dtype_of qweight = torch_int8 -> matrix qweight r c ->
      exists out,
        unpack_qweight qweight b = Ok out /\
        matrix out r (c * Z.to_nat (8 / b)) /\
        forall i j, (i < r)%nat -> (j < c * Z.to_nat (8 / b))%nat ->
          let field := extract_field 8 (entry qweight i (Z.to_nat (Z.of_nat j / (8 / b))))
                         b (Z.of_nat j mod (8 / b)) in
          entry out i j = wrap 8 field /\
          (b <> 8 -> entry out i j = field /\ 0 <= entry out i j < 2 ^ b)) /\
  (forall (qzeros : Tensor) (r c : nat),
      dtype_of qzeros = torch_int32 -> matrix qzeros r c ->
      exists out2 out,
        unpack_qzeros_v2 qzeros b = Ok out2 /\
        unpack_qzeros qzeros b = Ok out /\
        matrix out2 r (c * Z.to_nat (32 / b)) /\
        matrix out r (c * Z.to_nat (32 / b)) /\
        forall i j, (i < r)%nat -> (j < c * Z.to_nat (32 / b))%nat ->
          let field := extract_field 32 (entry qzeros i (Z.to_nat (Z.of_nat j / (32 / b))))
                         b (Z.of_nat j mod (32 / b)) in
          entry out2 i j = wrap 8 field /\
          entry out i j = wrap 8 (Z.land (field + 1) (2 ^ b - 1)) /\
          (b <> 8 -> entry out2 i j = field /\ 0 <= entry out2 i j < 2 ^ b /\
                     0 <= entry out i j < 2 ^ b)).
Proof.
  intros Hb.
  assert (Hb' : 0 < b <= 8) by (apply widths_cases in Hb; lia).
  split.
  - intros qweight r c Hdt Hm.
    destruct (unpack_qweight_entries b qweight r c Hb Hdt Hm) as (out & Ho & _ & Hmo & He).
    exists out. split; [exact Ho|]. split; [exact Hmo|].
    intros i j Hi Hj field. split; [apply He; assumption|].
    intros Hne. rewrite He by assumption. fold field.
    unfold field. rewrite wrap_field by lia.
    split; [reflexivity | apply extract_field_range; lia].
  - intros qzeros r c Hdt Hm.
    destruct (unpack_qzeros_v2_entries b qzeros r c Hb Hdt Hm) as (out2 & Ho2 & _ & Hm2 & He2).
    destruct (unpack_qzeros_entries b qzeros r c Hb Hdt Hm) as (out & Ho & _ & Hmo & He).
    exists out2, out. split; [exact Ho2|]. split; [exact Ho|].
    split; [exact Hm2|]. split; [exact Hmo|].
    intros i j Hi Hj field.
    split; [apply He2; assumption|]. split; [apply He; assumption|].
    intros Hne. rewrite He2, He by assumption. fold field.
    unfold field. rewrite wrap_field, wrap_masked by lia.
    split; [reflexivity|]. split; [apply extract_field_range; lia|].
    rewrite mask_ones, Z.land_ones by lia. apply Z.mod_pos_bound.
    apply Z.pow_pos_nonneg; lia.
Qed.

(** A weight unit [0xB4 = -76] at 4 bits gives the fields 4 and 11; a
    zero-point unit [-1] gives 15 in every field. *)
Lemma unpack_extracts_fields_witness :
  In 4 [1; 2; 4; 8] /\
  (exists out,
      unpack_qweight (mkTensor torch_int8 [1; 1] [[-76]]) 4 = Ok out /\
      entry out 0 0 = 4 /\ entry out 0 1 = 11) /\
  (exists out2,
      unpack_qzeros_v2 (mkTensor torch_int32 [1; 1] [[-1]]) 4 = Ok out2 /\
      entry out2 0 7 = 15).
Proof.
  assert (H4 : In 4 [1; 2; 4; 8]) by (simpl; auto).
  split; [exact H4|].
  destruct (unpack_extracts_fields 4 H4) as (Hw & Hz).
  split.
  - destruct (Hw (mkTensor torch_int8 [1; 1] [[-76]]) 1%nat 1%nat) as (out & Ho & _ & He).
    + reflexivity.
    + repeat split. repeat constructor.
    + exists out. split; [exact Ho|].
      destruct (He 0%nat 0%nat) as (_ & H0); [simpl; lia .. |].
      destruct (He 0%nat 1%nat) as (_ & H1); [simpl; lia .. |].
      split; [apply H0 | apply H1]; lia.
  - destruct (Hz (mkTensor torch_int32 [1; 1] [[-1]]) 1%nat 1%nat)
      as (out2 & out & Ho2 & _ & _ & _ & He).
    + reflexivity.
    + repeat split. repeat constructor.
    + exists out2. split; [exact Ho2|].
      destruct (He 0%nat 7%nat) as (_ & _ & H7); [simpl; lia .. |].
      apply H7. lia.
Defined.

(** C3, evaluated at 8 bits on a weight unit of [-1] (the byte [0xFF]) and
    on a zero-point unit whose low byte is 200.  The field the claim
    describes is 255, respectively 200; [unpack_qweight] returns [-1] and
    [unpack_qzeros_v2] returns [-56]: the result tensor is [int8], in which
    the mask [2^8 - 1] is [-1], so the value is sign-extended and lies
    outside [0, 2^8). *)
Theorem unpack_at_8_bits_is_signed :
  exists out out2,
    unpack_qweight (mkTensor torch_int8 [1; 1] [[-1]]) 8 = Ok out /\
    unpack_qzeros_v2 (mkTensor torch_int32 [1; 1] [[200]]) 8 = Ok out2 /\
    extract_field 8 (-1) 8 (0 mod (8 / 8)) = 255 /\
    entry out 0 0 = -1 /\
    ~ (0 <= entry out 0 0 < 2 ^ 8) /\
    extract_field 32 200 8 (0 mod (32 / 8)) = 200 /\
    entry out2 0 0 = -56 /\
    ~ (0 <= entry out2 0 0 < 2 ^ 8).
Proof.
  eexists. eexists.
  split; [vm_compute; reflexivity|]. split; [vm_compute; reflexivity|].
  repeat split; vm_compute; intuition discriminate.
Qed.

(** ** The zero-point correction (C2) *)

(** For a bit width [b] in {1, 2, 4, 8} and a packed
    zero-point array of 32-bit units, [unpack_qzeros] returns for each
    field [(field + 1) & (2^b - 1)] and [unpack_qzeros_v2] returns the field,
    both kept as signed 8-bit values; a field of [2^b - 1] wraps to 0 under
    the correction.  For [b] in {1, 2, 4} the signed 8-bit value is the
    unsigned one. *)
Proposition zero_point_correction (b : Z) (qzeros : Tensor) (r c : nat) :
  In b [1; 2; 4; 8] -> dtype_of qzeros = torch_int32 -> matrix qzeros r c ->
  exists corrected v2,
    unpack_qzeros qzeros b = Ok corrected /\
    unpack_qzeros_v2 qzeros b = Ok v2 /\
    forall i j, (i < r)%nat -> (j < c * Z.to_nat (32 / b))%nat ->
      let field := extract_field 32 (entry qzeros i (Z.to_nat (Z.of_nat j / (32 / b))))
                     b (Z.of_nat j mod (32 / b)) in
      entry corrected i j = wrap 8 (Z.land (field + 1) (2 ^ b - 1)) /\
      entry v2 i j = wrap 8 field /\
      (field = 2 ^ b - 1 -> entry corrected i j = 0) /\
      (b <> 8 ->
       entry corrected i j = Z.land (field + 1) (2 ^ b - 1) /\ entry v2 i j = field).
Proof.
  intros Hb Hdt Hm.
  assert (Hb' : 0 < b <= 8) by (apply widths_cases in Hb; lia).
  destruct (unpack_qzeros_entries b qzeros r c Hb Hdt Hm) as (out & Ho & _ & _ & He).
  destruct (unpack_qzeros_v2_entries b qzeros r c Hb Hdt Hm) as (out2 & Ho2 & _ & _ & He2).
  exists out, out2. split; [exact Ho|]. split; [exact Ho2|].
  intros i j Hi Hj field.
  split; [apply He; assumption|]. split; [apply He2; assumption|].
  split.
  - intros Hf. rewrite He by assumption. fold field. rewrite Hf.
    replace (2 ^ b - 1 + 1) with (2 ^ b) by lia.
    rewrite mask_ones, Z.land_ones, Z.mod_same by (try apply Z.pow_nonzero; lia).
    reflexivity.
  - intros Hne. rewrite He, He2 by assumption. fold field.
    unfold field. rewrite wrap_field, wrap_masked by lia. split; reflexivity.
Qed.

(** At 4 bits a zero-point unit whose first field is 15 and whose second
    field is 2: the corrected variant gives 0 and 3, the v2 variant 15 and 2. *)
Lemma zero_point_correction_witness :
  exists corrected v2,
    unpack_qzeros (mkTensor torch_int32 [1; 1] [[47]]) 4 = Ok corrected /\
    unpack_qzeros_v2 (mkTensor torch_int32 [1; 1] [[47]]) 4 = Ok v2 /\
    entry corrected 0 0 = 0 /\ entry v2 0 0 = 15 /\
    entry corrected 0 1 = 3 /\ entry v2 0 1 = 2.
Proof.
  destruct (zero_point_correction 4 (mkTensor torch_int32 [1; 1] [[47]]) 1%nat 1%nat)
    as (corrected & v2 & Hc & Hv & He).
  - simpl. auto.
  - reflexivity.
  - repeat split. repeat constructor.
  - exists corrected, v2. split; [exact Hc|]. split; [exact Hv|].
    destruct (He 0%nat 0%nat) as (_ & _ & _ & H0); [simpl; lia .. |].
    destruct (He 0%nat 1%nat) as (_ & _ & _ & H1); [simpl; lia .. |].
    destruct H0 as (H0c & H0v); [lia|]. destruct H1 as (H1c & H1v); [lia|].
    repeat split; assumption.
Defined.

(** C2, evaluated at 8 bits.  A raw field of 127 gives [-128] under the
    correction where the claim has [(127 + 1) & 255 = 128], and a raw field
    of 200 comes back from the v2 variant as [-56], not unchanged: the
    values are held in [int8].  (A raw field of 255 does wrap to 0.) *)
Theorem zero_points_at_8_bits_are_signed :
  exists corrected v2 wrapped,
    unpack_qzeros (mkTensor torch_int32 [1; 1] [[127]]) 8 = Ok corrected /\
    unpack_qzeros_v2 (mkTensor torch_int32 [1; 1] [[200]]) 8 = Ok v2 /\
    unpack_qzeros (mkTensor torch_int32 [1; 1] [[255]]) 8 = Ok wrapped /\
    extract_field 32 127 8 0 = 127 /\
    Z.land (extract_field 32 127 8 0 + 1) (2 ^ 8 - 1) = 128 /\
    entry corrected 0 0 = -128 /\
    extract_field 32 200 8 0 = 200 /\
    entry v2 0 0 = -56 /\
    entry wrapped 0 0 = 0.
Proof.
  eexists. eexists. eexists.
  split; [vm_compute; reflexivity|]. split; [vm_compute; reflexivity|].
  split; [vm_compute; reflexivity|].
  repeat split.
Qed.

(** ** Packing (C1) *)

Lemma chunks_nth {A : Type} (e : nat) :
  (0 < e)%nat ->
  forall (fuel : nat) (l : list A) (q : nat),
    (length l <= fuel)%nat -> (q * e < length l)%nat ->
    nth q (chunks fuel e l) [] = firstn e (skipn (q * e) l).
Proof.
  intros He. induction fuel as [|fuel IH]; intros l q Hf Hq.
  - lia.
  - destruct l as [|a l]; [cbn [length] in Hq; lia|].
    destruct q as [|q].
    + reflexivity.
    + cbn [chunks nth]. rewrite IH.
      * rewrite skipn_skipn. f_equal. f_equal. lia.
      * rewrite length_skipn. cbn [length] in Hf |- *. lia.
      * rewrite length_skipn. cbn [length] in Hq |- *. lia.
Qed.

Lemma chunks_length {A : Type} (e : nat) :
  (0 < e)%nat ->
  forall (k fuel : nat) (l : list A),
    length l = (k * e)%nat -> (length l <= fuel)%nat ->
    length (chunks fuel e l) = k.
Proof.
  intros He. induction k as [|k IH]; intros fuel l Hl Hf.
  - destruct l; [|discriminate]. destruct fuel; reflexivity.
  - destruct l as [|a l]; [cbn [length] in Hl; lia|].
    destruct fuel as [|fuel]; [cbn [length] in Hf; lia|].
    cbn [chunks length]. f_equal. apply IH.
    + rewrite length_skipn, Hl. lia.
    + rewrite length_skipn. cbn [length] in Hf |- *. lia.
Qed.

Lemma fold_lor_testbit (l : list Z) (acc n : Z) :
  Z.testbit (fold_left Z.lor l acc) n =
  Z.testbit acc n || existsb (fun x => Z.testbit x n) l.
Proof.
  revert acc. induction l as [|x l IH]; intros acc; simpl.
  - now rewrite orb_false_r.
  - rewrite IH, Z.lor_spec, orb_assoc. reflexivity.
Qed.

(** The fields shifted to positions [s], [s+1], ... leave the bits below
    position [s] clear. *)
Lemma shifted_fields_below (b : Z) (fields : list Z) (s : nat) (n : Z) :
  0 <= n < b * Z.of_nat s ->
  existsb (fun x => Z.testbit x n)
    (map2 (fun k v => Z.shiftl v (b * k)) (map Z.of_nat (seq s (length fields))) fields)
  = false.
Proof.
  revert s. induction fields as [|v fs IH]; intros s Hn; [reflexivity|].
  cbn [length seq map map2 existsb].
  rewrite Z.shiftl_spec, Z.testbit_neg_r by lia.
  apply IH. nia.
Qed.

Lemma shifted_fields_testbit (b : Z) (fields : list Z) :
  0 < b -> Forall (fun v => 0 <= v < 2 ^ b) fields ->
  forall (s i : nat) (m : Z),
    (i < length fields)%nat -> 0 <= m < b ->
    existsb (fun x => Z.testbit x (b * Z.of_nat (s + i) + m))
      (map2 (fun k v => Z.shiftl v (b * k)) (map Z.of_nat (seq s (length fields))) fields)
    = Z.testbit (nth i fields 0) m.
Proof.
  intros Hb Hall. induction Hall as [|v fs Hv Hfs IH]; intros s i m Hi Hm.
  - simpl in Hi. lia.
  - cbn [length seq map map2 existsb]. rewrite Z.shiftl_spec by nia.
    destruct i as [|i].
    + rewrite Nat.add_0_r.
      replace (b * Z.of_nat s + m - b * Z.of_nat s) with m by lia.
      rewrite shifted_fields_below by nia.
      apply orb_false_r.
    + rewrite (testbit_small v b) by (try assumption; nia).
      cbn [orb nth].
      replace (s + S i)%nat with (S s + i)%nat by lia.
      apply IH; [simpl in Hi; lia | assumption].
Qed.

(** Sub-field [i] of a packed unit is the [i]-th value that was packed. *)
Lemma pack_unit_field (b : Z) (fields : list Z) (i : nat) :
  0 < b -> Forall (fun v => 0 <= v < 2 ^ b) fields ->
  b * Z.of_nat (length fields) <= 8 -> (i < length fields)%nat ->
  extract_field 8 (pack_unit b fields) b (Z.of_nat i) = nth i fields 0.
Proof.
  intros Hb Hall Hlen Hi.
  assert (Hv : 0 <= nth i fields 0 < 2 ^ b).
  { apply (proj1 (Forall_forall _ _) Hall). apply nth_In. exact Hi. }
  rewrite extract_field_shiftr by nia.
  apply Z.bits_inj'. intros m Hm.
  destruct (Z_lt_ge_dec m b) as [Hlt | Hge].
  - rewrite Z.mod_pow2_bits_low by lia.
    rewrite Z.shiftr_spec by lia.
    unfold pack_unit. rewrite wrap_testbit by nia.
    rewrite fold_lor_testbit. unfold range. rewrite Nat2Z.id.
    rewrite Z.testbit_0_l. cbn [orb].
    replace (m + b * Z.of_nat i) with (b * Z.of_nat (0 + i) + m) by lia.
    apply shifted_fields_testbit; (assumption || lia).
  - rewrite Z.mod_pow2_bits_high by lia.
    symmetry. apply (testbit_small _ b); (assumption || lia).
Qed.

Lemma in_firstn {A : Type} (n : nat) (l : list A) (x : A) : In x (firstn n l) -> In x l.
Proof. intros H. rewrite <- (firstn_skipn n l). apply in_or_app. now left. Qed.

Lemma in_skipn {A : Type} (n : nat) (l : list A) (x : A) : In x (skipn n l) -> In x l.
Proof. intros H. rewrite <- (firstn_skipn n l). apply in_or_app. now right. Qed.

Lemma ratio_pos (b : Z) : In b [1; 2; 4; 8] -> 0 < 8 / b /\ b * (8 / b) = 8.
Proof.
  intros H. apply widths_cases in H.
  destruct H as [-> | [-> | [-> | ->]]]; split; reflexivity.
Qed.

(** One row: unpacking the packed row gives the row back. *)
Lemma pack_row_round_trip (b : Z) (row : list Z) (k : nat) :
  In b [1; 2; 4; 8] ->
  length row = (k * Z.to_nat (8 / b))%nat ->
  Forall (fun v => 0 <= v < 2 ^ b /\ v < 128) row ->
  map (raw_at (8 / b) b
         (map (pack_unit b) (chunks (length row) (Z.to_nat (8 / b)) row)))
    (range (Z.of_nat k * (8 / b))) = row.
Proof.
  intros Hb Hlen Hall.
  destruct (ratio_pos b Hb) as (He & Hbe).
  assert (Hb' : 0 < b <= 8) by (apply widths_cases in Hb; lia).
  set (e := Z.to_nat (8 / b)) in *.
  assert (Hez : 8 / b = Z.of_nat e) by (unfold e; lia).
  assert (He' : (0 < e)%nat) by lia.
  rewrite Hez, <- Nat2Z.inj_mul, <- Hlen.
  apply (nth_ext _ _ 0 0).
  - rewrite length_map. apply range_length.
  - rewrite length_map, range_length. intros j Hj.
    rewrite (nth_indep _ 0 (raw_at (Z.of_nat e) b
               (map (pack_unit b) (chunks (length row) e row)) 0))
      by (rewrite length_map, range_length; exact Hj).
    rewrite map_nth, nth_range by exact Hj.
    rewrite <- Hez, raw_at_field by (assumption || lia). rewrite Hez.
    rewrite <- Nat2Z.inj_div, <- Nat2Z.inj_mod, Nat2Z.id.
    set (q := (j / e)%nat). set (i := (j mod e)%nat).
    assert (Hji : (j = q * e + i)%nat).
    { unfold q, i. pose proof (Nat.div_mod_eq j e). lia. }
    assert (Hi : (i < e)%nat) by (apply Nat.mod_upper_bound; lia).
    assert (Hq : (q < k)%nat).
    { destruct (Nat.lt_ge_cases q k) as [H | H]; [exact H|]. nia. }
    assert (Hqe : (q * e + e <= length row)%nat) by nia.
    rewrite (nth_indep _ 0 (pack_unit b []))
      by (rewrite length_map, (chunks_length e He' k); lia).
    rewrite map_nth, chunks_nth by lia.
    assert (Hfl : length (firstn e (skipn (q * e) row)) = e).
    { rewrite length_firstn, length_skipn. lia. }
    rewrite pack_unit_field.
    + rewrite nth_firstn, (proj2 (Nat.ltb_lt i e) Hi), nth_skipn, <- Hji.
      apply wrap_small; [lia|].
      assert (Hv : 0 <= nth j row 0 < 2 ^ b /\ nth j row 0 < 128).
      { apply (proj1 (Forall_forall _ _) Hall). apply nth_In. exact Hj. }
      change (2 ^ (8 - 1)) with 128. lia.
    + lia.
    + apply Forall_forall. intros v Hv.
      apply (proj1 (Forall_forall _ _) Hall).
      apply in_firstn, in_skipn in Hv. exact Hv.
    + rewrite Hfl. lia.
    + rewrite Hfl. exact Hi.
Qed.

Lemma existsb_exceeds_false (b : Z) (rs : list (list Z)) :
  Forall (Forall (fun v => 0 <= v < 2 ^ b /\ v < 128)) rs ->
  existsb (existsb (fun v => 2 ^ b - 1 <? v)) rs = false.
Proof.
  intros H. induction H as [|row rs Hrow _ IH]; [reflexivity|].
  cbn [existsb]. rewrite IH, orb_false_r.
  induction Hrow as [|v row Hv _ IHrow]; [reflexivity|].
  cbn [existsb]. rewrite IHrow, orb_false_r. apply Z.ltb_ge. lia.
Qed.

(** Where the round-trip law holds.  For a bit width [b] in {1, 2, 4, 8}
    and an array [x] of the data model (its column count is a multiple of
    the packing ratio [8 / b]) whose elements lie in [0, 2^b) and below
    128, unpacking the packed array gives [x] back.  For [b] in {1, 2, 4}
    that is every array the law is about; at 8 bits the elements from 128
    to 255 are left out. *)
Proposition pack_unpack_round_trip (b : Z) (x : Tensor) (r c k : nat) :
  In b [1; 2; 4; 8] ->
  is_floating_point (dtype_of x) = false ->
  matrix x r c ->
  c = (k * Z.to_nat (8 / b))%nat ->
  Forall (Forall (fun v => 0 <= v < 2 ^ b /\ v < 128)) (rows x) ->
  exists packed unpacked,
    general_compress x b = Ok packed /\
    unpack_qweight packed b = Ok unpacked /\
    shape unpacked = shape x /\
    rows unpacked = rows x.
Proof.
  intros Hb _ (Hs & Hl & Hr) Hc Hall.
  destruct (ratio_pos b Hb) as (He & Hbe).
  assert (Hb' : 0 < b <= 8) by (apply widths_cases in Hb; lia).
  set (e := Z.to_nat (8 / b)) in *.
  assert (Hez : 8 / b = Z.of_nat e) by (unfold e; lia).
  assert (He' : (0 < e)%nat) by lia.
  unfold general_compress, floordiv.
  rewrite (proj2 (Z.eqb_neq b 0)) by lia. cbn [bind].
  rewrite (proj2 (Z.leb_gt (8 / b) 0)) by lia.
  rewrite existsb_exceeds_false by exact Hall.
  unfold dim. rewrite Hs. cbn [nth_error bind].
  assert (Hk : (Z.of_nat c + 8 / b - 1) / (8 / b) = Z.of_nat k).
  { rewrite Hc, Nat2Z.inj_mul, <- Hez.
    replace (Z.of_nat k * (8 / b) + 8 / b - 1) with (8 / b - 1 + Z.of_nat k * (8 / b)) by lia.
    rewrite Z.div_add by lia. rewrite Z.div_small by lia. lia. }
  rewrite Hk.
  set (packed := mkTensor torch_int8 _ _).
  assert (Hmp : matrix packed r k).
  { unfold matrix, packed. cbn [shape rows]. split; [reflexivity|].
    split; [rewrite length_map; exact Hl|].
    apply Forall_forall. intros prow Hin. apply in_map_iff in Hin.
    destruct Hin as (row & <- & Hin). rewrite length_map.
    apply (chunks_length e He' k); [|lia].
    rewrite (proj1 (Forall_forall _ _) Hr row Hin). exact Hc. }
  exists packed. eexists. split; [reflexivity|].
  split; [apply (unpack_qweight_rows packed r k b); [reflexivity | exact Hmp | lia]|].
  split.
  - cbn [shape]. rewrite Hc, Nat2Z.inj_mul, <- Hez. reflexivity.
  - unfold packed. cbn [rows]. rewrite map_map.
    rewrite <- (map_id (rows x)) at 2. apply map_ext_in. intros row Hin.
    apply pack_row_round_trip.
    + exact Hb.
    + rewrite (proj1 (Forall_forall _ _) Hr row Hin). exact Hc.
    + apply (proj1 (Forall_forall _ _) Hall row Hin).
Qed.

(** Two rows of four 4-bit values are packed into two bytes per row and
    come back unchanged. *)
Lemma pack_unpack_round_trip_witness :
  exists packed unpacked,
    general_compress (mkTensor torch_int8 [2; 4] [[1; 2; 3; 15]; [9; 8; 7; 6]]) 4 = Ok packed /\
    unpack_qweight packed 4 = Ok unpacked /\
    shape unpacked = [2; 4] /\
    rows unpacked = [[1; 2; 3; 15]; [9; 8; 7; 6]].
Proof.
  apply (pack_unpack_round_trip 4
           (mkTensor torch_int8 [2; 4] [[1; 2; 3; 15]; [9; 8; 7; 6]]) 2 4 2).
  - simpl. auto.
  - reflexivity.
  - repeat split. repeat constructor.
  - reflexivity.
  - repeat constructor; cbn; lia.
Defined.

(** C1, evaluated at 8 bits on the array [[200]], one column at a packing
    ratio of one.  Packing stores the byte [0xC8], whose field is 200 as
    the law wants; [unpack_qweight] returns [-56]: its result tensor is
    [int8], where the mask [2^8 - 1] is [-1] and 200 cannot be held.  The
    array comes back with its shape and another element. *)
Theorem round_trip_fails_at_8_bits :
  let x := mkTensor torch_int32 [1; 1] [[200]] in
  exists packed unpacked,
    general_compress x 8 = Ok packed /\
    unpack_qweight packed 8 = Ok unpacked /\
    extract_field 8 (entry packed 0 0) 8 0 = entry x 0 0 /\
    shape unpacked = shape x /\
    rows unpacked = [[-56]] /\
    rows unpacked <> rows x.
Proof.
  eexists. eexists.
  split; [vm_compute; reflexivity|]. split; [vm_compute; reflexivity|].
  split; [vm_compute; reflexivity|]. split; [reflexivity|].
  split; [reflexivity|]. cbn [rows]. discriminate.
Qed.

(** ** Construction (C10) *)

Lemma sample_layer_constructed :
  fst (Linear.__init__ "default"
         (sample_args "float16" "int4" true true (Some "rescale") true) sample_world)
  = Ok (sample_layer "float16" torch_float16 (Some "rescale")) /\
  fst (Linear.__init__ "default"
         (sample_args "float16" "int4" true true (Some "bogus") true) sample_world)
  = Ok (sample_layer "float16" torch_float16 (Some "bogus")) /\
  fst (Linear.__init__ "default"
         (sample_args "float32" "int4" true true (Some "original") true) sample_world)
  = Ok (sample_layer "float32" torch_float32 (Some "original")).
Proof. repeat split; vm_compute; reflexivity. Qed.

Lemma validated_group_size (g i o : Z) :
  Linear._validate_parameters g i o = Ok tt -> g <> 0 /\ i mod g = 0.
Proof.
  unfold Linear._validate_parameters, pymod.
  destruct (negb (i mod 16 =? 0) || negb (o mod 16 =? 0)); [discriminate|].
  destruct (Z.eqb_spec g 0) as [-> | Hg]; [discriminate|]. cbn [bind].
  destruct (Z.eqb_spec (i mod g) 0) as [Hm | Hm]; [|discriminate].
  intros _. split; assumption.
Qed.

(** C10.  A layer constructed in consistent mode ([A_dtype] equal to
    [W_dtype]) has a weight buffer of shape
    [(out_features, in_features // group_size)], not
    [(out_features, in_features)]: with a group size [g] given and other
    than -1 it has [in_features // g] columns, and with the default group
    size of -1 (or [None]), normalized to [in_features], it has one column
    per output row whatever [in_features] is. *)
Theorem consistent_weight_shape (default_path : string) (a : Linear.init_args)
    (w w' : World) (self : Linear.t) :
  Linear.arg_A_dtype a = Linear.arg_W_dtype a ->
  Linear.__init__ default_path a w = (Ok self, w') ->
  Linear.group_size self =
    Linear._set_group_size (Linear.arg_group_size a) (Linear.arg_in_features a) /\
  exists weight,
    Linear.weight self = Some weight /\
    shape weight =
      [Linear.arg_out_features a; Linear.arg_in_features a / Linear.group_size self] /\
    (forall g, Linear.arg_group_size a = Some g -> g <> -1 ->
     Linear.group_size self = g /\
     shape weight = [Linear.arg_out_features a; Linear.arg_in_features a / g]) /\
    (Linear.arg_group_size a = Some (-1) \/ Linear.arg_group_size a = None ->
     Linear.group_size self = Linear.arg_in_features a /\
     shape weight = [Linear.arg_out_features a; 1] /\
     rows weight = repeat [0] (Z.to_nat (Linear.arg_out_features a))).
Proof.
  intros Hcons. unfold Linear.__init__.
  destruct (match Linear.arg_database_path a with
            | Some p => _
            | None => _
            end) as [database_path w1].
  destruct (torch_getattr (Linear.arg_A_dtype a)) as [dt | e]; [|discriminate].
  destruct (Linear._validate_parameters _ _ _) as [[] | e] eqn:Hval; [|discriminate].
  destruct (Linear._configure_bitblas_matmul _ _ _ _ _ _ _ _ _ _ _ _ _ _ _ _ _ _)
    as [bitblas_matmul w2].
  rewrite Hcons, String.eqb_refl.
  destruct (validated_group_size _ _ _ Hval) as (Hg & Hmod).
  unfold Linear._initialize_buffers, Linear.consistent.
  cbn [Linear.is_consitent Linear.group_size Linear.torch_dtype bind].
  unfold floordiv. rewrite (proj2 (Z.eqb_neq _ 0) Hg). cbn [bind].
  destruct (torch_zeros _ dt) as [weight | e] eqn:Hz; [|discriminate]. cbn [bind].
  assert (Hw : shape weight =
               [Linear.arg_out_features a;
                Linear.arg_in_features a /
                Linear._set_group_size (Linear.arg_group_size a) (Linear.arg_in_features a)]
               /\ rows weight =
                  repeat (repeat 0 (Z.to_nat
                     (Linear.arg_in_features a /
                      Linear._set_group_size (Linear.arg_group_size a)
                        (Linear.arg_in_features a))))
                    (Z.to_nat (Linear.arg_out_features a))).
  { unfold torch_zeros in Hz.
    destruct (forallb _ _); [|discriminate]. inversion Hz; subst weight.
    cbn [shape rows last removelast]. rewrite prod_single. split; reflexivity. }
  destruct Hw as (Hsh & Hrows).
  assert (Hfinal : forall self0,
             Linear.group_size self0 =
               Linear._set_group_size (Linear.arg_group_size a) (Linear.arg_in_features a) ->
             Linear.weight self0 = Some weight ->
             self0 = self ->
             Linear.group_size self =
               Linear._set_group_size (Linear.arg_group_size a) (Linear.arg_in_features a) /\
             exists weight0,
               Linear.weight self = Some weight0 /\
               shape weight0 =
                 [Linear.arg_out_features a;
                  Linear.arg_in_features a / Linear.group_size self] /\
               (forall g, Linear.arg_group_size a = Some g -> g <> -1 ->
                Linear.group_size self = g /\
                shape weight0 =
                  [Linear.arg_out_features a; Linear.arg_in_features a / g]) /\
               (Linear.arg_group_size a = Some (-1) \/ Linear.arg_group_size a = None ->
                Linear.group_size self = Linear.arg_in_features a /\
                shape weight0 = [Linear.arg_out_features a; 1] /\
                rows weight0 = repeat [0] (Z.to_nat (Linear.arg_out_features a)))).
  { intros self0 Hgs Hwt <-. split; [exact Hgs|].
    exists weight. split; [exact Hwt|]. rewrite Hgs. split; [exact Hsh|].
    split.
    - intros g Hgiven Hne.
      assert (Hn : Linear._set_group_size (Linear.arg_group_size a)
                     (Linear.arg_in_features a) = g).
      { rewrite Hgiven. unfold Linear._set_group_size.
        rewrite (proj2 (Z.eqb_neq g (-1)) Hne). reflexivity. }
      rewrite Hn in *. split; [reflexivity | exact Hsh].
    - intros Hdef.
      assert (Hn : Linear._set_group_size (Linear.arg_group_size a)
                     (Linear.arg_in_features a) = Linear.arg_in_features a).
      { destruct Hdef as [-> | ->]; reflexivity. }
      rewrite Hn in *. rewrite Hsh, Hrows, Z.div_same by exact Hg.
      split; [reflexivity|]. split; reflexivity. }
  destruct (Linear.arg_bias a).
  - cbn [Linear.torch_dtype Linear.set_weight Linear.set_buffers].
    destruct (torch_zeros [Linear.arg_out_features a] dt) as [b | e];
      cbn [bind]; intros H; [|discriminate].
    injection H as Hs _. refine (Hfinal _ _ _ Hs); reflexivity.
  - intros H. injection H as Hs _. refine (Hfinal _ _ _ Hs); reflexivity.
Qed.

(** Two consistent float16 layers of 16 inputs and 16 outputs.  With a
    group size of 4 the weight buffer has shape (16, 4); with the group
    size at its default it has shape (16, 1). *)
Lemma consistent_weight_shape_witness :
  let grouped :=
    Linear.mk_args 16 16 true "float16" "float16" "float16" "float16" (Some 4)
      (Some false) false None Linear.opt_M true None false None None true in
  let default := sample_args "float16" "float16" false false None true in
  (exists self weight,
    fst (Linear.__init__ "default" grouped sample_world) = Ok self /\
    Linear.group_size self = 4 /\
    Linear.weight self = Some weight /\
    shape weight = [16; 4]) /\
  (exists self weight,
    fst (Linear.__init__ "default" default sample_world) = Ok self /\
    Linear.group_size self = 16 /\
    Linear.weight self = Some weight /\
    shape weight = [16; 1]).
Proof.
  intros grouped default. split.
  - destruct (Linear.__init__ "default" grouped sample_world) as [r w'] eqn:Hinit.
    destruct r as [self | e]; [|vm_compute in Hinit; discriminate].
    destruct (consistent_weight_shape "default" grouped sample_world w' self
                eq_refl Hinit)
      as (_ & weight & Hw & _ & Hgiven & _).
    destruct (Hgiven 4 eq_refl) as (Hg & Hsh); [discriminate|].
    exists self, weight. split; [reflexivity|]. split; [exact Hg|].
    split; [exact Hw | exact Hsh].
  - destruct (Linear.__init__ "default" default sample_world) as [r w'] eqn:Hinit.
    destruct r as [self | e]; [|vm_compute in Hinit; discriminate].
    destruct (consistent_weight_shape "default" default sample_world w' self
                eq_refl Hinit)
      as (_ & weight & Hw & _ & _ & Hdef).
    destruct Hdef as (Hg & Hsh & _); [left; reflexivity|].
    exists self, weight. split; [reflexivity|]. split; [exact Hg|].
    split; [exact Hw | exact Hsh].
Defined.

(** ** Dispatch (C4) *)

(** C4.  On a quantized (non-consistent) layer whose configuration has
    scaling, zeros and bias enabled, [forward] invokes the entry point with
    the arguments activation, packed weight, scales, zeros, bias, output,
    then the dynamic size (present iff the handle declares a dynamic range,
    and equal to the product of all activation dimensions but the last),
    and the stream token last.  The output is the caller's buffer, or a new
    one of the activation's leading dimensions by [out_features]. *)
Theorem forward_argument_order (self : Linear.t) (A : Tensor) (output : option Tensor)
    (w : World) (qweight scales zeros bias out : Tensor) :
  Linear.is_consitent self = false ->
  truthy (MatmulConfig.with_scaling (Linear.config self)) = true ->
  MatmulConfig.with_zeros (Linear.config self) = true ->
  MatmulConfig.with_bias (Linear.config self) = true ->
  Linear.qweight self = Some qweight ->
  Linear.scales self = Some scales ->
  Linear.zeros self = Some zeros ->
  Linear.bias self = Some bias ->
  match output with
  | Some o => out = o
  | None =>
      exists dt,
        torch_getattr (Matmul.out_dtype (Linear.bitblas_matmul self)) = Ok dt /\
        torch_zeros
          (removelast (shape (Matmul.transform_input (Linear.bitblas_matmul self) A))
             ++ [Linear.out_features self]) dt = Ok out
  end ->
  let A' := Matmul.transform_input (Linear.bitblas_matmul self) A in
  exists self',
    Linear.forward self A output w =
    Ok (self', out,
        [c_void_p A'; c_void_p qweight; c_void_p scales; c_void_p zeros; c_void_p bias;
         c_void_p out]
        ++ match Matmul.dynamic_range (Linear.bitblas_matmul self) with
           | Some _ => [py_int (prod (removelast (shape A')))]
           | None => []
           end
        ++ [stream_handle (cuda_stream w)]).
Proof.
  intros Hc Hs Hz Hb Hqw Hsc Hzr Hbi Hout A'.
  unfold Linear.forward, Linear.init_params. fold A'.
  rewrite Hc, Hqw, Hs, Hsc, Hz, Hzr, Hb, Hbi. cbn [attr bind app].
  unfold Linear.void_ptrs. cbn [mapM attr bind].
  cbn [Linear.q_params Linear.set_q_params Linear.bitblas_matmul Linear.out_features].
  destruct output as [o |].
  - subst out. cbn [bind]. eexists.
    destruct (Matmul.dynamic_range (Linear.bitblas_matmul self)); reflexivity.
  - destruct Hout as (dt & Hdt & Hzeros). fold A' in Hzeros.
    rewrite Hdt. cbn [bind]. rewrite Hzeros. cbn [bind]. eexists.
    destruct (Matmul.dynamic_range (Linear.bitblas_matmul self)); reflexivity.
Qed.

(** The sample layer on an activation of shape (2, 3, 16), no output
    buffer supplied: the dynamic size is 6 and the stream token is last. *)
Lemma forward_argument_order_witness :
  exists self' out,
    shape out = [2; 3; 16] /\
    Linear.forward (sample_layer "float16" torch_float16 (Some "rescale"))
      (mkTensor torch_float16 [2; 3; 16] []) None sample_world =
    Ok (self', out,
        [c_void_p (mkTensor torch_float16 [2; 3; 16] []);
         c_void_p (filled torch_int8 16 8 0);
         c_void_p (filled torch_float16 16 1 0);
         c_void_p (filled torch_float16 16 1 0);
         c_void_p (mkTensor torch_float16 [16] [repeat 0 16]);
         c_void_p out; py_int 6; stream_handle 7]).
Proof.
  destruct (torch_zeros [2; 3; 16] torch_float16) as [out | e] eqn:Hz;
    [|vm_compute in Hz; discriminate].
  destruct (forward_argument_order
              (sample_layer "float16" torch_float16 (Some "rescale"))
              (mkTensor torch_float16 [2; 3; 16] []) None sample_world
              (filled torch_int8 16 8 0) (filled torch_float16 16 1 0)
              (filled torch_float16 16 1 0) (mkTensor torch_float16 [16] [repeat 0 16])
              out eq_refl eq_refl eq_refl eq_refl eq_refl eq_refl eq_refl eq_refl)
    as (self' & Hf).
  - exists torch_float16. split; [reflexivity | exact Hz].
  - exists self', out. split; [|exact Hf].
    vm_compute in Hz. injection Hz as <-. reflexivity.
Defined.

(** ** The operator cache (C8, C9) *)

Lemma config_eqb_refl (c : MatmulConfig.t) : MatmulConfig.eqb c c = true.
Proof. unfold MatmulConfig.eqb. destruct (MatmulConfig.eq_dec c c); congruence. Qed.

Lemma get_add_same (c : Cache) (config : MatmulConfig.t) (op : Matmul.t) :
  OperatorCache.get (OperatorCache.add c config op) config = Some op.
Proof.
  unfold OperatorCache.get, OperatorCache.add. cbn [find fst].
  rewrite config_eqb_refl. reflexivity.
Qed.

Lemma get_some_size (c : Cache) (config : MatmulConfig.t) (op : Matmul.t) :
  OperatorCache.get c config = Some op -> (OperatorCache.size c =? 0) = false.
Proof.
  destruct c; [discriminate|]. intros _. reflexivity.
Qed.

(** A hit leaves the world as it is and returns the cached handle. *)
Lemma cache_hit (ref : nat) (path : string) (config : MatmulConfig.t)
      (enable_tuning : bool) (w : World) (h : Matmul.t) :
  OperatorCache.get (caches w ref) config = Some h ->
  Linear._get_or_create_bitblas_operator ref path config enable_tuning w = (h, w).
Proof.
  intros Hget. unfold Linear._get_or_create_bitblas_operator.
  rewrite (get_some_size _ _ _ Hget), Hget. reflexivity.
Qed.

Lemma hydrated_keeps (ref : nat) (path : string) (w : World) :
  tuning_log (hydrated ref path w) = tuning_log w /\
  nvidia_target (hydrated ref path w) = nvidia_target w /\
  compile (hydrated ref path w) = compile w /\
  database (hydrated ref path w) = database w /\
  tuning_message_shown (hydrated ref path w) = tuning_message_shown w.
Proof.
  unfold hydrated. destruct (OperatorCache.size (caches w ref) =? 0); [|auto 6].
  unfold OperatorCache.load_from_database.
  destruct (OperatorCache.hydrate _ _ _ _). cbn. auto 6.
Qed.

(** What a miss does, with and without tuning. *)
Lemma cache_miss (ref : nat) (path : string) (config : MatmulConfig.t)
      (enable_tuning : bool) (w : World) :
  let w0 := hydrated ref path w in
  let tgt := nvidia_target w in
  let h := Matmul.mk (next_op_id w0) config tgt (compile w config tgt) in
  OperatorCache.get (caches w0 ref) config = None ->
  exists w',
    Linear._get_or_create_bitblas_operator ref path config enable_tuning w = (h, w') /\
    if enable_tuning then
      tuning_log w' = tuning_log w ++ [(Matmul.op_id h, 20)] /\
      caches w' ref = OperatorCache.add (caches w0 ref) config h /\
      database w' path tgt =
        map (fun e => (fst e, Matmul.kernel (snd e)))
          (filter (fun e => String.eqb (Matmul.target (snd e)) tgt) (caches w' ref))
    else
      tuning_log w' = tuning_log w /\
      caches w' = caches w0 /\
      database w' = database w.
Proof.
  intros w0 tgt h Hmiss.
  destruct (hydrated_keeps ref path w) as (Hlog & Htgt & Hcomp & Hdb & _).
  fold w0 in Hlog, Htgt, Hcomp, Hdb.
  unfold Linear._get_or_create_bitblas_operator.
  change (if OperatorCache.size (caches w ref) =? 0
          then OperatorCache.load_from_database ref path (auto_detect_nvidia_target w) w
          else w) with w0.
  rewrite Hmiss. unfold Matmul_new, auto_detect_nvidia_target. cbn [negb].
  rewrite Hcomp. fold tgt. fold h.
  destruct enable_tuning.
  - eexists. split; [reflexivity|].
    destruct (tuning_message_shown (set_next_op_id w0 (S (next_op_id w0))));
      cbn; rewrite ?Hlog, ?Nat.eqb_refl, ?String.eqb_refl; cbn; auto.
  - eexists. split; [reflexivity|]. cbn. auto.
Qed.

(** C8, as amended.  When [_get_or_create_bitblas_operator] misses in the
    cache (after the lazy hydration), it constructs a new handle for the
    configuration and the target with tuning disabled.  If tuning was
    requested it then tunes the handle once with the top 20 candidates,
    inserts it into the cache and persists the cache to the backing store;
    if tuning was not requested the new handle is returned, and neither the
    cache nor the backing store is changed. *)
Theorem miss_builds_then_caches_if_tuned (ref : nat) (path : string)
    (config : MatmulConfig.t) (enable_tuning : bool) (w : World) :
  let w0 := hydrated ref path w in
  let tgt := nvidia_target w in
  OperatorCache.get (caches w0 ref) config = None ->
  exists h w',
    Linear._get_or_create_bitblas_operator ref path config enable_tuning w = (h, w') /\
    Matmul.config h = config /\ Matmul.target h = tgt /\
    Matmul.op_id h = next_op_id w0 /\
    if enable_tuning then
      tuning_log w' = tuning_log w ++ [(Matmul.op_id h, 20)] /\
      OperatorCache.get (caches w' ref) config = Some h /\
      In (config, Matmul.kernel h) (database w' path tgt) /\
      database w' path tgt =
        map (fun e => (fst e, Matmul.kernel (snd e)))
          (filter (fun e => String.eqb (Matmul.target (snd e)) tgt) (caches w' ref))
    else
      tuning_log w' = tuning_log w /\
      OperatorCache.get (caches w' ref) config = None /\
      caches w' = caches w0 /\
      database w' = database w.
Proof.
  intros w0 tgt Hmiss.
  destruct (cache_miss ref path config enable_tuning w Hmiss) as (w' & Hcall & Hrest).
  fold w0 tgt in Hcall, Hrest.
  eexists. exists w'. split; [exact Hcall|].
  cbn [Matmul.config Matmul.target Matmul.op_id] in *.
  repeat (split; [reflexivity|]).
  destruct enable_tuning.
  - destruct Hrest as (Hlog & Hc & Hdb).
    split; [exact Hlog|]. split; [rewrite Hc; apply get_add_same|].
    split; [|exact Hdb].
    rewrite Hdb, Hc. unfold OperatorCache.add. cbn [filter snd Matmul.target].
    rewrite String.eqb_refl. left. reflexivity.
  - destruct Hrest as (Hlog & Hc & Hdb).
    split; [exact Hlog|]. split; [rewrite Hc; exact Hmiss|]. split; assumption.
Qed.

(** A first construction with tuning in the sample world: the handle is
    built, tuned once, cached and saved. *)
Lemma miss_builds_then_caches_if_tuned_witness :
  exists h w',
    Linear._get_or_create_bitblas_operator 0 "default"
      (sample_config "float16" (Some "rescale")) true sample_world = (h, w') /\
    tuning_log w' = [(Matmul.op_id h, 20)] /\
    OperatorCache.get (caches w' 0%nat) (sample_config "float16" (Some "rescale")) = Some h /\
    In (sample_config "float16" (Some "rescale"), Matmul.kernel h)
      (database w' "default" "cuda").
Proof.
  destruct (miss_builds_then_caches_if_tuned 0 "default"
              (sample_config "float16" (Some "rescale")) true sample_world eq_refl)
    as (h & w' & Hcall & _ & _ & _ & Hlog & Hget & Hin & _).
  exists h, w'. repeat split; assumption.
Defined.

(** A miss without tuning: the new handle is returned but it is neither
    in the cache nor in the backing store afterwards. *)
Lemma miss_builds_then_caches_if_tuned_counterexample :
  exists h w',
    OperatorCache.get (caches (hydrated 0 "default" sample_world) 0%nat)
      (sample_config "float16" (Some "rescale")) = None /\
    Linear._get_or_create_bitblas_operator 0 "default"
      (sample_config "float16" (Some "rescale")) false sample_world = (h, w') /\
    OperatorCache.get (caches w' 0%nat) (sample_config "float16" (Some "rescale")) = None /\
    database w' "default" "cuda" = [].
Proof.
  eexists. eexists. split; [reflexivity|]. split; [reflexivity|].
  split; reflexivity.
Qed.

(** C9.  Tuning runs at most once per signature.  A configuration that is
    in the cache is answered with the cached handle, the world unchanged
    and so without any tuning, whether or not tuning is requested.  Two
    successive calls with the same configuration and target, both
    requesting tuning, tune at most once: the second call returns the
    handle of the first and changes nothing, and when the first call was a
    miss the two calls together run exactly one tuning pass. *)
Theorem tuning_at_most_once (ref : nat) (path path' : string)
    (config : MatmulConfig.t) (w : World) :
  (forall (h : Matmul.t) (enable_tuning : bool),
      OperatorCache.get (caches w ref) config = Some h ->
      Linear._get_or_create_bitblas_operator ref path config enable_tuning w = (h, w)) /\
  (let (h1, w1) := Linear._get_or_create_bitblas_operator ref path config true w in
   let (h2, w2) := Linear._get_or_create_bitblas_operator ref path' config true w1 in
   h2 = h1 /\ w2 = w1 /\
   nvidia_target w1 = nvidia_target w /\
   OperatorCache.get (caches w1 ref) config = Some h1 /\
   match OperatorCache.get (caches (hydrated ref path w) ref) config with
   | Some h => h1 = h /\ tuning_log w2 = tuning_log w
   | None => tuning_log w2 = tuning_log w ++ [(Matmul.op_id h1, 20)]
   end).
Proof.
  split.
  - intros h enable_tuning Hget. apply cache_hit. exact Hget.
  - destruct (hydrated_keeps ref path w) as (Hlog & Htgt & _).
    destruct (OperatorCache.get (caches (hydrated ref path w) ref) config)
      as [h |] eqn:Hget.
    + assert (Hcall : Linear._get_or_create_bitblas_operator ref path config true w
                      = (h, hydrated ref path w)).
      { unfold Linear._get_or_create_bitblas_operator.
        change (if OperatorCache.size (caches w ref) =? 0
                then OperatorCache.load_from_database ref path
                       (auto_detect_nvidia_target w) w
                else w) with (hydrated ref path w).
        rewrite Hget. reflexivity. }
      rewrite Hcall, (cache_hit ref path' config true _ h Hget).
      repeat split; assumption.
    + destruct (cache_miss ref path config true w Hget) as (w1 & Hcall & Hl & Hc & _).
      rewrite Hcall.
      assert (Hget1 : OperatorCache.get (caches w1 ref) config =
                      Some (Matmul.mk (next_op_id (hydrated ref path w)) config
                              (nvidia_target w)
                              (compile w config (nvidia_target w)))).
      { rewrite Hc. apply get_add_same. }
      rewrite (cache_hit ref path' config true w1 _ Hget1).
      split; [reflexivity|]. split; [reflexivity|].
      split; [|split; [exact Hget1 | exact Hl]].
      unfold Linear._get_or_create_bitblas_operator in Hcall.
      change (if OperatorCache.size (caches w ref) =? 0
              then OperatorCache.load_from_database ref path
                     (auto_detect_nvidia_target w) w
              else w) with (hydrated ref path w) in Hcall.
      rewrite Hget in Hcall. unfold Matmul_new in Hcall. cbn [negb] in Hcall.
      injection Hcall as _ <-.
      destruct (tuning_message_shown _); cbn; exact Htgt.
Qed.

(** In the sample world, whose cache and database are empty: the first call
    tunes the new handle, the second returns the same handle and leaves
    the single tuning pass as it is, and so does a later lookup. *)
Lemma tuning_at_most_once_witness :
  exists h1 w1,
    Linear._get_or_create_bitblas_operator 0 "default"
      (sample_config "float16" (Some "rescale")) true sample_world = (h1, w1) /\
    Linear._get_or_create_bitblas_operator 0 "other"
      (sample_config "float16" (Some "rescale")) true w1 = (h1, w1) /\
    tuning_log w1 = [(Matmul.op_id h1, 20)] /\
    Linear._get_or_create_bitblas_operator 0 "default"
      (sample_config "float16" (Some "rescale")) false w1 = (h1, w1).
Proof.
  destruct (tuning_at_most_once 0 "default" "other"
              (sample_config "float16" (Some "rescale")) sample_world) as (_ & Htwice).
  destruct (Linear._get_or_create_bitblas_operator 0 "default"
              (sample_config "float16" (Some "rescale")) true sample_world)
    as [h1 w1] eqn:Hfirst.
  destruct (Linear._get_or_create_bitblas_operator 0 "other"
              (sample_config "float16" (Some "rescale")) true w1)
    as [h2 w2] eqn:Hsecond.
  destruct Htwice as (-> & -> & _ & Hget & Hlog).
  exists h1, w1. split; [reflexivity|]. split; [exact Hsecond|].
  split; [exact Hlog|].
  destruct (tuning_at_most_once 0 "default" "other"
              (sample_config "float16" (Some "rescale")) w1) as (Hhit & _).
  apply Hhit. exact Hget.
Defined.

(** ** Repacking from a foreign module (C5, C6, C7) *)



(** [repack] step by step, the attributes read from the layer the call
    started with. *)
Lemma repack_steps (unpack : Tensor -> Z -> result Tensor) (self : Linear.t) (g : GPTQ.t) :
  Linear.repack unpack self g =
  match (q <- transpose (GPTQ.qweight g) ;; view (contiguous q) Linear.TORCH_STORAGE_DTYPE) with
  | Raise e => (self, Raise e)
  | Ok qweight =>
  match unpack_qweight qweight (Linear.bits self) with
  | Raise e => (self, Raise e)
  | Ok intweight =>
  let self1 :=
    Linear.set_qweight self
      match Matmul.weight_transform (Linear.bitblas_matmul self) with
      | Some weight_transform => weight_transform intweight
      | None => qweight
      end in
  match (s <- transpose (GPTQ.scales g) ;; view (contiguous s) (Linear.torch_dtype self)) with
  | Raise e => (self1, Raise e)
  | Ok scales =>
  let self2 := Linear.set_scales self1 scales in
  match (z <- unpack (GPTQ.qzeros g) (Linear.bits self) ;; transpose z) with
  | Raise e => (self2, Raise e)
  | Ok intzeros =>
  match Linear.store_zeros self2 intzeros with
  | Raise e => (self2, Raise e)
  | Ok self3 =>
  match Linear.bias self3 with
  | None => (self3, Ok tt)
  | Some _ =>
      match (b <- attr (GPTQ.bias g) ;; to_dtype b torch_float16) with
      | Raise e => (self3, Raise e)
      | Ok b => (Linear.set_bias self3 (Some b), Ok tt)
      end
  end end end end end end.
Proof.
  unfold Linear.repack.
  destruct (q <- transpose (GPTQ.qweight g) ;; view (contiguous q) Linear.TORCH_STORAGE_DTYPE);
    [|reflexivity].
  destruct (unpack_qweight _ _); [|reflexivity].
  cbv zeta.
  destruct (s <- transpose (GPTQ.scales g) ;; view (contiguous s) _); [|reflexivity].
  change (Linear.bits (Linear.set_scales (Linear.set_qweight self ?x) ?y))
    with (Linear.bits self).
  destruct (unpack (GPTQ.qzeros g) (Linear.bits self)) as [z | e]; [|reflexivity].
  cbn [bind]. destruct (transpose z); reflexivity.
Qed.




Lemma mapM_map {A B : Type} (f : A -> result B) (g : A -> B) (l : list A) :
  (forall a, In a l -> f a = Ok (g a)) -> mapM f l = Ok (map g l).
Proof.
  induction l as [|a l IH]; intros H; [reflexivity|].
  cbn [mapM map]. rewrite (H a (or_introl eq_refl)). cbn [bind].
  rewrite IH by (intros b Hb; apply H; right; exact Hb). reflexivity.
Qed.

Lemma cast_float (src dst : dtype) (z : Z) :
  is_floating_point dst = true -> cast src dst z = Ok (cast_to_float src dst z).
Proof.
  intros Hd. unfold cast, cast_to_float. rewrite Hd.
  destruct (dtype_eqb src dst); [reflexivity|].
  destruct (is_floating_point src); reflexivity.
Qed.


(** A conversion to a floating dtype never fails. *)
Lemma to_dtype_float (t : Tensor) (dt : dtype) :
  is_floating_point dt = true ->
  to_dtype t dt =
  Ok (mkTensor dt (shape t) (map (map (cast_to_float (dtype_of t) dt)) (rows t))).
Proof.
  intros Hd. unfold to_dtype.
  rewrite (mapM_map _ (map (cast_to_float (dtype_of t) dt))).
  - reflexivity.
  - intros row _. apply mapM_map. intros z _. apply cast_float. exact Hd.
Qed.












(** In the "original" mode the stored zero-points are float16 whatever
    the activation dtype of the layer is. *)
Lemma store_zeros_original (self self' : Linear.t) (intzeros : Tensor) :
  MatmulConfig.zeros_mode (Linear.config self) = Some "original" ->
  Linear.store_zeros self intzeros = Ok self' ->
  exists z, Linear.zeros self' = Some z /\ dtype_of z = torch_float16.
Proof.
  intros Hmode. unfold Linear.store_zeros. rewrite Hmode.
  cbn [String.eqb Ascii.eqb Bool.eqb].
  rewrite to_dtype_float by reflexivity. cbn [bind].
  intros H. injection H as <-. eexists. split; reflexivity.
Qed.

(** C6, evaluated on a layer whose activation dtype is float32 (the sample
    layer that [__init__] builds for [A_dtype = "float32"] and zeros mode
    "original"): after [repack_from_gptq] the zero buffer and the bias are
    float16, not the activation dtype of the layer, while the scales are
    float32. *)
Theorem original_zeros_and_bias_are_float16 :
  let self := sample_layer "float32" torch_float32 (Some "original") in
  let run := Linear.repack_from_gptq self
               (sample_gptq torch_float32 (float_of_int torch_float32 3)) "cuda" in
  fst (Linear.__init__ "default"
         (sample_args "float32" "int4" true true (Some "original") true) sample_world)
    = Ok self /\
  snd run = Ok tt /\
  Linear.torch_dtype (fst run) = torch_float32 /\
  option_map dtype_of (Linear.scales (fst run)) = Some torch_float32 /\
  option_map dtype_of (Linear.zeros (fst run)) = Some torch_float16 /\
  option_map dtype_of (Linear.bias (fst run)) = Some torch_float16.
Proof.
  cbv zeta. split; [vm_compute; reflexivity|].
  repeat split; vm_compute; reflexivity.
Qed.

(** * Further properties of the module *)

(** ** The unpacking functions at every bit width *)

Lemma rows_matrix (dt : dtype) (F : list Z -> Z -> Z) (rs : list (list Z)) (r : nat) (n : Z) :
  length rs = r -> 0 <= n ->
  matrix (mkTensor dt [Z.of_nat r; n] (map (fun prow => map (F prow) (range n)) rs))
    r (Z.to_nat n).
Proof.
  intros Hl Hn. pose proof (matrix_map_rows dt F rs r (Z.to_nat n) Hl) as H.
  rewrite Z2Nat.id in H by exact Hn. exact H.
Qed.

(** X1.  For every bit width from 1 to 32, a power of two or not, the three
    unpacking functions succeed on a matrix of storage units of their
    dtype and return an [int8] matrix with the same number of rows and
    [N // bits] columns per storage unit ([N = 8] for weights, 32 for
    zero-points). *)
Theorem unpack_shape (bits : Z) (r c : nat) :
  0 < bits <= 32 ->
  (forall qweight, dtype_of qweight = torch_int8 -> matrix qweight r c ->
     exists out, unpack_qweight qweight bits = Ok out /\
       dtype_of out = torch_int8 /\
       matrix out r (Z.to_nat (Z.of_nat c * (8 / bits)))) /\
  (forall qzeros, dtype_of qzeros = torch_int32 -> matrix qzeros r c ->
     exists out out2,
       unpack_qzeros qzeros bits = Ok out /\
       unpack_qzeros_v2 qzeros bits = Ok out2 /\
       dtype_of out = torch_int8 /\ dtype_of out2 = torch_int8 /\
       matrix out r (Z.to_nat (Z.of_nat c * (32 / bits))) /\
       matrix out2 r (Z.to_nat (Z.of_nat c * (32 / bits)))).
Proof.
  intros Hb. split.
  - intros q Hdt Hm. rewrite (unpack_qweight_rows q r c bits Hdt Hm Hb).
    eexists. split; [reflexivity|]. split; [reflexivity|].
    apply rows_matrix; [apply Hm|].
    apply Z.mul_nonneg_nonneg; [lia | apply Z.div_pos; lia].
  - intros q Hdt Hm.
    rewrite (unpack_qzeros_rows q r c bits Hdt Hm Hb).
    rewrite (unpack_qzeros_v2_rows q r c bits Hdt Hm Hb).
    eexists. eexists. split; [reflexivity|]. split; [reflexivity|].
    split; [reflexivity|]. split; [reflexivity|].
    assert (0 <= Z.of_nat c * (32 / bits))
      by (apply Z.mul_nonneg_nonneg; [lia | apply Z.div_pos; lia]).
    split; apply rows_matrix; (apply Hm || assumption).
Qed.

(** Three-bit fields: two per byte, ten per 32-bit unit. *)
Lemma unpack_shape_witness :
  (exists out, unpack_qweight (filled torch_int8 2 3 (-1)) 3 = Ok out /\
               shape out = [2; 6]) /\
  (exists out, unpack_qzeros (filled torch_int32 2 3 (-1)) 3 = Ok out /\
               shape out = [2; 30]).
Proof.
  destruct (unpack_shape 3 2 3) as (Hw & Hz); [lia|].
  split.
  - destruct (Hw (filled torch_int8 2 3 (-1))) as (out & Ho & _ & Hs & _).
    + reflexivity.
    + repeat split. repeat constructor.
    + exists out. split; [exact Ho | exact Hs].
  - destruct (Hz (filled torch_int32 2 3 (-1))) as (out & out2 & Ho & _ & _ & _ & (Hs & _) & _).
    + reflexivity.
    + repeat split. repeat constructor.
    + exists out. split; [exact Ho | exact Hs].
Defined.

Lemma wrap_low_mask (bits : Z) : 0 < bits < 8 -> wrap 8 (2 ^ bits - 1) = 2 ^ bits - 1.
Proof.
  intros Hb. apply wrap_small; [lia|].
  assert (0 < 2 ^ bits) by (apply Z.pow_pos_nonneg; lia).
  assert (2 ^ bits <= 2 ^ 7) by (apply Z.pow_le_mono_r; lia).
  change (2 ^ (8 - 1)) with 128. change (2 ^ 7) with 128 in *. lia.
Qed.

Lemma raw_at_low (elems bits : Z) (prow : list Z) (col : Z) :
  0 < bits < 8 ->
  raw_at elems bits prow col =
  Z.shiftr (nth (Z.to_nat (col / elems)) prow 0) (bits * (col mod elems)) mod 2 ^ bits.
Proof.
  intros Hb. unfold raw_at, unpacked_at.
  rewrite wrap_low_mask, land_wrap_mask by lia. reflexivity.
Qed.

Lemma corrected_at_low (elems bits : Z) (prow : list Z) (col : Z) :
  0 < bits < 8 ->
  corrected_at elems bits prow col = (raw_at elems bits prow col + 1) mod 2 ^ bits.
Proof.
  intros Hb. rewrite raw_at_low by exact Hb. unfold corrected_at, unpacked_at.
  rewrite wrap_low_mask, wrap_wrap_add, land_wrap_mask by lia.
  rewrite Zplus_mod_idemp_l. reflexivity.
Qed.

Lemma Forall_rows (P : Z -> Prop) (F : list Z -> Z -> Z) (rs : list (list Z)) (n : Z) :
  (forall prow col, P (F prow col)) ->
  Forall (Forall P) (map (fun prow => map (F prow) (range n)) rs).
Proof.
  intros H. apply Forall_forall. intros row Hin. apply in_map_iff in Hin.
  destruct Hin as (prow & <- & _). apply Forall_forall. intros v Hv.
  apply in_map_iff in Hv. destruct Hv as (col & <- & _). apply H.
Qed.

(** X2.  For every bit width from 1 to 7, every element the three
    unpacking functions return lies in [0, 2^bits), whatever the storage
    units hold. *)
Theorem unpack_range (bits : Z) (r c : nat) :
  0 < bits < 8 ->
  (forall qweight, dtype_of qweight = torch_int8 -> matrix qweight r c ->
     exists out, unpack_qweight qweight bits = Ok out /\
       Forall (Forall (fun v => 0 <= v < 2 ^ bits)) (rows out)) /\
  (forall qzeros, dtype_of qzeros = torch_int32 -> matrix qzeros r c ->
     exists out out2,
       unpack_qzeros qzeros bits = Ok out /\
       unpack_qzeros_v2 qzeros bits = Ok out2 /\
       Forall (Forall (fun v => 0 <= v < 2 ^ bits)) (rows out) /\
       Forall (Forall (fun v => 0 <= v < 2 ^ bits)) (rows out2)).
Proof.
  intros Hb.
  assert (Hp : 0 < 2 ^ bits) by (apply Z.pow_pos_nonneg; lia).
  split.
  - intros q Hdt Hm. rewrite (unpack_qweight_rows q r c bits Hdt Hm) by lia.
    eexists. split; [reflexivity|]. cbn [rows]. apply Forall_rows.
    intros prow col. rewrite raw_at_low by exact Hb. apply Z.mod_pos_bound. exact Hp.
  - intros q Hdt Hm.
    rewrite (unpack_qzeros_rows q r c bits Hdt Hm) by lia.
    rewrite (unpack_qzeros_v2_rows q r c bits Hdt Hm) by lia.
    eexists. eexists. split; [reflexivity|]. split; [reflexivity|]. cbn [rows].
    split; apply Forall_rows; intros prow col.
    + rewrite corrected_at_low by exact Hb. apply Z.mod_pos_bound. exact Hp.
    + rewrite raw_at_low by exact Hb. apply Z.mod_pos_bound. exact Hp.
Qed.

(** Negative units at 3 bits: every field is 7, and 0 after the correction. *)
Lemma unpack_range_witness :
  (exists out, unpack_qweight (filled torch_int8 1 1 (-1)) 3 = Ok out /\
               rows out = [[7; 7]]) /\
  (exists out, unpack_qzeros (filled torch_int32 1 1 (-1)) 3 = Ok out /\
               Forall (Forall (fun v => 0 <= v < 2 ^ 3)) (rows out)).
Proof.
  destruct (unpack_range 3 1 1) as (Hw & Hz); [lia|].
  split.
  - destruct (Hw (filled torch_int8 1 1 (-1))) as (out & Ho & _).
    + reflexivity.
    + repeat split. repeat constructor.
    + exists out. split; [exact Ho|]. vm_compute in Ho. injection Ho as <-. reflexivity.
  - destruct (Hz (filled torch_int32 1 1 (-1))) as (out & out2 & Ho & _ & Hr & _).
    + reflexivity.
    + repeat split. repeat constructor.
    + exists out. split; [exact Ho | exact Hr].
Defined.

(** X3.  For every bit width from 1 to 7 the corrected zero-points are the
    uncorrected ones plus one modulo [2^bits]: [unpack_qzeros] and
    [unpack_qzeros_v2] return tensors of one shape, and each element of the
    first is the element of the second plus one, with [2^bits - 1] wrapping
    to 0. *)
Theorem correction_is_plus_one (bits : Z) (qzeros : Tensor) (r c : nat) :
  0 < bits < 8 -> dtype_of qzeros = torch_int32 -> matrix qzeros r c ->
  exists corrected v2,
    unpack_qzeros qzeros bits = Ok corrected /\
    unpack_qzeros_v2 qzeros bits = Ok v2 /\
    shape corrected = shape v2 /\
    forall i j, (i < r)%nat -> (j < c * Z.to_nat (32 / bits))%nat ->
      entry corrected i j = (entry v2 i j + 1) mod 2 ^ bits /\
      (entry v2 i j = 2 ^ bits - 1 -> entry corrected i j = 0) /\
      (entry v2 i j <> 2 ^ bits - 1 -> entry corrected i j = entry v2 i j + 1).
Proof.
  intros Hb Hdt Hm.
  assert (Hp : 0 < 2 ^ bits) by (apply Z.pow_pos_nonneg; lia).
  rewrite (unpack_qzeros_rows qzeros r c bits Hdt Hm) by lia.
  rewrite (unpack_qzeros_v2_rows qzeros r c bits Hdt Hm) by lia.
  rewrite unpacked_columns by lia.
  destruct Hm as (_ & Hl & _).
  eexists. eexists. split; [reflexivity|]. split; [reflexivity|].
  split; [reflexivity|].
  intros i j Hi Hj.
  rewrite !entry_map_rows by (rewrite ?Hl; assumption).
  rewrite corrected_at_low by exact Hb.
  set (v := raw_at (32 / bits) bits (nth i (rows qzeros) []) (Z.of_nat j)).
  assert (Hv : 0 <= v < 2 ^ bits).
  { unfold v. rewrite raw_at_low by exact Hb. apply Z.mod_pos_bound. exact Hp. }
  split; [reflexivity|]. split.
  - intros ->. replace (2 ^ bits - 1 + 1) with (2 ^ bits) by lia.
    apply Z.mod_same. lia.
  - intros Hne. apply Z.mod_small. lia.
Qed.

(** The packed fields 15 and 2 at 4 bits. *)
Lemma correction_is_plus_one_witness :
  exists corrected v2,
    unpack_qzeros (mkTensor torch_int32 [1; 1] [[47]]) 4 = Ok corrected /\
    unpack_qzeros_v2 (mkTensor torch_int32 [1; 1] [[47]]) 4 = Ok v2 /\
    entry corrected 0 0 = (entry v2 0 0 + 1) mod 2 ^ 4 /\
    entry corrected 0 1 = (entry v2 0 1 + 1) mod 2 ^ 4.
Proof.
  destruct (correction_is_plus_one 4 (mkTensor torch_int32 [1; 1] [[47]]) 1 1)
    as (corrected & v2 & Hc & Hv & _ & He).
  - lia.
  - reflexivity.
  - repeat split. repeat constructor.
  - exists corrected, v2. split; [exact Hc|]. split; [exact Hv|].
    split; apply He; simpl; lia.
Defined.

(** X4.  The edge widths.  A bit width of 0 makes each unpacking function
    raise [ZeroDivisionError]; a bit width above the 8 bits of a weight
    storage unit (up to 32) raises nothing: [unpack_qweight] returns a
    tensor with the rows of its input and no column. *)
Theorem unpack_edge_widths :
  (forall qweight, dtype_of qweight = torch_int8 ->
     unpack_qweight qweight 0 = Raise ZeroDivisionError) /\
  (forall qzeros, dtype_of qzeros = torch_int32 ->
     unpack_qzeros qzeros 0 = Raise ZeroDivisionError /\
     unpack_qzeros_v2 qzeros 0 = Raise ZeroDivisionError) /\
  (forall bits qweight (r c : nat),
     8 < bits <= 32 -> dtype_of qweight = torch_int8 -> matrix qweight r c ->
     unpack_qweight qweight bits = Ok (mkTensor torch_int8 [Z.of_nat r; 0] (repeat [] r))).
Proof.
  split; [|split].
  - intros q Hdt. unfold unpack_qweight, view. rewrite Hdt. reflexivity.
  - intros q Hdt. unfold unpack_qzeros, unpack_qzeros_v2, view. rewrite Hdt.
    split; reflexivity.
  - intros bits q r c Hb Hdt Hm.
    rewrite (unpack_qweight_rows q r c bits Hdt Hm) by lia.
    rewrite Z.div_small by lia. rewrite Z.mul_0_r.
    destruct Hm as (_ & Hl & _). do 2 f_equal.
    rewrite <- Hl, repeat_as_map. reflexivity.
Qed.

(** Sixteen-bit "fields" of a byte: nothing comes out. *)
Lemma unpack_edge_widths_witness :
  unpack_qweight (filled torch_int8 2 3 5) 0 = Raise ZeroDivisionError /\
  unpack_qweight (filled torch_int8 2 3 5) 16 = Ok (mkTensor torch_int8 [2; 0] [[]; []]).
Proof.
  destruct unpack_edge_widths as (H0 & _ & Hwide).
  split.
  - apply H0. reflexivity.
  - apply (Hwide 16 (filled torch_int8 2 3 5) 2%nat 3%nat).
    + lia.
    + reflexivity.
    + repeat split. repeat constructor.
Defined.

(** ** Construction *)

Lemma resolve_keeps (default : string) (a : Linear.init_args) (w : World) :
  let w1 := snd (resolve_database_path default a w) in
  caches w1 = caches w /\ tuning_log w1 = tuning_log w /\
  next_op_id w1 = next_op_id w /\ database w1 = database w /\
  stdout w1 = stdout w /\ nvidia_target w1 = nvidia_target w /\
  compile w1 = compile w /\ tuning_message_shown w1 = tuning_message_shown w.
Proof.
  unfold resolve_database_path.
  destruct (Linear.arg_database_path a) as [p |]; [|cbn; auto 10].
  destruct (path_exists w p); [cbn; auto 10|].
  destruct (Linear.arg_create_missing_path a); [|cbn; auto 10].
  unfold os_makedirs. destruct (makedirs_ok w p); cbn; auto 10.
Qed.

(** [__init__] step by step. *)
Lemma init_steps (default : string) (a : Linear.init_args) (w : World) :
  Linear.__init__ default a w =
  let dbp := fst (resolve_database_path default a w) in
  let w1 := snd (resolve_database_path default a w) in
  let cache := match Linear.arg_operator_cache a with
               | Some c => c
               | None => Linear.global_operator_cache
               end in
  let g := Linear._set_group_size (Linear.arg_group_size a) (Linear.arg_in_features a) in
  match torch_getattr (Linear.arg_A_dtype a) with
  | Raise e => (Raise e, w1)
  | Ok dt =>
      match Linear._validate_parameters g (Linear.arg_in_features a)
              (Linear.arg_out_features a) with
      | Raise e => (Raise e, w1)
      | Ok _ =>
          let hw := Linear._get_or_create_bitblas_operator cache dbp (config_of_args a)
                      (Linear.arg_enable_tuning a) w1 in
          (Linear._initialize_buffers
             (Linear.mk cache dbp (Linear.arg_in_features a) (Linear.arg_out_features a) g
                dt (String.eqb (Linear.arg_A_dtype a) (Linear.arg_W_dtype a))
                (Linear.arg_zeros_mode a) (fst hw)
                (Matmul.bit (fst hw)) (Matmul.source_format (fst hw))
                None None None None None [])
             (Linear.arg_in_features a) (Linear.arg_out_features a) (Linear.arg_bias a),
           snd hw)
      end
  end.
Proof.
  unfold Linear.__init__. fold (resolve_database_path default a w).
  destruct (resolve_database_path default a w) as [dbp w1]. cbn [fst snd].
  destruct (torch_getattr (Linear.arg_A_dtype a)); [|reflexivity].
  destruct (Linear._validate_parameters _ _ _); [|reflexivity].
  unfold Linear._configure_bitblas_matmul. fold (config_of_args a).
  destruct (Linear._get_or_create_bitblas_operator _ _ _ _ _). reflexivity.
Qed.

(** X5.  A layer whose [in_features] or [out_features] is not a multiple
    of 16 is rejected with the [ValueError] of [_validate_parameters]
    before an operator is looked up or built: the operator caches, the
    database, the tuning log and the printed lines are what they were. *)
Theorem init_rejects_indivisible (default : string) (a : Linear.init_args) (w : World) :
  Linear.arg_in_features a mod 16 <> 0 \/ Linear.arg_out_features a mod 16 <> 0 ->
  is_ok (torch_getattr (Linear.arg_A_dtype a)) = true ->
  let run := Linear.__init__ default a w in
  fst run = Raise (ValueError "`in_features` and `out_features` must be divisible by 16.") /\
  caches (snd run) = caches w /\ database (snd run) = database w /\
  tuning_log (snd run) = tuning_log w /\ next_op_id (snd run) = next_op_id w /\
  stdout (snd run) = stdout w.
Proof.
  intros Hdiv Hdt run. unfold run. rewrite init_steps. cbv zeta.
  destruct (torch_getattr (Linear.arg_A_dtype a)) as [dt |]; [|discriminate].
  unfold Linear._validate_parameters.
  assert (Hc : negb (Linear.arg_in_features a mod 16 =? 0)
               || negb (Linear.arg_out_features a mod 16 =? 0) = true).
  { apply orb_true_iff. destruct Hdiv as [H | H]; [left | right];
      apply negb_true_iff, Z.eqb_neq; exact H. }
  rewrite Hc. cbn [fst snd].
  destruct (resolve_keeps default a w) as (H1 & H2 & H3 & H4 & H5 & _).
  auto 6.
Qed.

(** Ten input features. *)
Lemma init_rejects_indivisible_witness :
  fst (Linear.__init__ "default"
         (Linear.mk_args 10 16 false "float16" "float16" "float16" "float16" None None
            false None Linear.opt_M true None false None None true) sample_world)
  = Raise (ValueError "`in_features` and `out_features` must be divisible by 16.").
Proof.
  apply (init_rejects_indivisible "default"
           (Linear.mk_args 10 16 false "float16" "float16" "float16" "float16" None None
              false None Linear.opt_M true None false None None true) sample_world).
  - left. cbn. discriminate.
  - reflexivity.
Defined.

(** X6.  With both feature counts multiples of 16, a group size that
    normalizes to 0 (an explicit 0, or the default with [in_features = 0])
    makes [__init__] raise [ZeroDivisionError], and a group size that does
    not divide [in_features] makes it raise the second [ValueError]; in
    both cases no operator is looked up or built. *)
Theorem init_rejects_group_size (default : string) (a : Linear.init_args) (w : World) :
  Linear.arg_in_features a mod 16 = 0 -> Linear.arg_out_features a mod 16 = 0 ->
  is_ok (torch_getattr (Linear.arg_A_dtype a)) = true ->
  let g := Linear._set_group_size (Linear.arg_group_size a) (Linear.arg_in_features a) in
  let run := Linear.__init__ default a w in
  (g = 0 -> fst run = Raise ZeroDivisionError) /\
  (g <> 0 -> Linear.arg_in_features a mod g <> 0 ->
   fst run = Raise (ValueError "`in_features` must be divisible by `group_size`.")) /\
  (g = 0 \/ Linear.arg_in_features a mod g <> 0 ->
   caches (snd run) = caches w /\ database (snd run) = database w /\
   tuning_log (snd run) = tuning_log w /\ next_op_id (snd run) = next_op_id w).
Proof.
  intros Hi Ho Hdt g run. unfold run. rewrite init_steps. cbv zeta. fold g.
  destruct (torch_getattr (Linear.arg_A_dtype a)) as [dt |]; [|discriminate].
  unfold Linear._validate_parameters, pymod.
  rewrite Hi, Ho. cbn [Z.eqb negb orb].
  destruct (resolve_keeps default a w) as (H1 & H2 & H3 & H4 & _).
  destruct (Z.eqb_spec g 0) as [Hg | Hg]; cbn [bind].
  - cbn [fst snd]. split; [reflexivity|]. split; [contradiction|]. auto.
  - destruct (Z.eqb_spec (Linear.arg_in_features a mod g) 0) as [Hm | Hm];
      cbn [negb fst snd].
    + split; [contradiction|]. split; [contradiction|].
      intros [H | H]; contradiction.
    + split; [contradiction|]. split; [reflexivity|]. auto.
Qed.

(** No input feature at the default group size, and 32 input features in
    groups of 24. *)
Lemma init_rejects_group_size_witness :
  fst (Linear.__init__ "default"
         (Linear.mk_args 0 16 false "float16" "float16" "float16" "float16" (Some (-1)) None
            false None Linear.opt_M true None false None None true) sample_world)
  = Raise ZeroDivisionError /\
  fst (Linear.__init__ "default"
         (Linear.mk_args 32 16 false "float16" "float16" "float16" "float16" (Some 24) None
            false None Linear.opt_M true None false None None true) sample_world)
  = Raise (ValueError "`in_features` must be divisible by `group_size`.").
Proof.
  split.
  - apply (init_rejects_group_size "default"
             (Linear.mk_args 0 16 false "float16" "float16" "float16" "float16" (Some (-1))
                None false None Linear.opt_M true None false None None true) sample_world);
      reflexivity.
  - apply (init_rejects_group_size "default"
             (Linear.mk_args 32 16 false "float16" "float16" "float16" "float16" (Some 24)
                None false None Linear.opt_M true None false None None true) sample_world);
      try reflexivity; cbn; discriminate.
Defined.

Ltac simp_layer :=
  cbn [bind attr fst snd
       Linear.set_zeros Linear.set_scales Linear.set_qweight Linear.set_weight
       Linear.set_bias Linear.set_buffers Linear.set_q_params
       Linear.operator_cache Linear.database_path Linear.in_features
       Linear.out_features Linear.group_size Linear.torch_dtype Linear.is_consitent
       Linear.zeros_mode Linear.bitblas_matmul Linear.bits Linear.source_format
       Linear.weight Linear.qweight Linear.scales Linear.zeros Linear.bias
       Linear.q_params] in *.

Lemma torch_zeros_spec (sh : list Z) (dt : dtype) (t : Tensor) :
  torch_zeros sh dt = Ok t ->
  dtype_of t = dt /\ shape t = sh /\ Forall (Forall (fun v => v = 0)) (rows t).
Proof.
  unfold torch_zeros. destruct (forallb _ sh); [|discriminate].
  intros H. injection H as <-. cbn [dtype_of shape rows].
  split; [reflexivity|]. split; [reflexivity|].
  apply Forall_forall. intros row Hr. apply repeat_spec in Hr. subst row.
  apply Forall_forall. intros v Hv. apply repeat_spec in Hv. exact Hv.
Qed.

(** X7.  The buffers of a layer constructed in quantized mode ([A_dtype]
    different from [W_dtype]): no dense weight; a packed weight of the
    storage dtype in the shape the handle expects; scales of the activation
    dtype and shape [(out_features, in_features // group_size)];
    zero-points of that same dtype and shape, unless the zeros mode is
    "quantized", where they are of the storage dtype and of shape
    [(in_features // group_size, out_features // 8 * bits)]; and a bias of
    [out_features] elements exactly when a bias was asked for. *)
Theorem quantized_buffers (default : string) (a : Linear.init_args) (w w' : World)
    (self : Linear.t) :
  Linear.arg_A_dtype a <> Linear.arg_W_dtype a ->
  Linear.__init__ default a w = (Ok self, w') ->
  let groups := Linear.arg_in_features a / Linear.group_size self in
  let out := Linear.arg_out_features a in
  Linear.weight self = None /\
  (exists qweight,
      Linear.qweight self = Some qweight /\ dtype_of qweight = torch_int8 /\
      shape qweight = Matmul.retrieve_weight_shape (Linear.bitblas_matmul self)) /\
  (exists scales,
      Linear.scales self = Some scales /\ dtype_of scales = Linear.torch_dtype self /\
      shape scales = [out; groups]) /\
  (exists zeros,
      Linear.zeros self = Some zeros /\
      if match Linear.arg_zeros_mode a with
         | Some m => String.eqb m "quantized"
         | None => false
         end
      then dtype_of zeros = torch_int8 /\ shape zeros = [groups; out / 8 * Linear.bits self]
      else dtype_of zeros = Linear.torch_dtype self /\ shape zeros = [out; groups]) /\
  (if Linear.arg_bias a
   then exists b, Linear.bias self = Some b /\ shape b = [out] /\
                  dtype_of b = Linear.torch_dtype self
   else Linear.bias self = None).
Proof.
  intros Hne. rewrite init_steps. cbv zeta.
  destruct (torch_getattr (Linear.arg_A_dtype a)) as [dt |]; [|discriminate].
  destruct (Linear._validate_parameters _ _ _) as [[] |] eqn:Hval; [|discriminate].
  destruct (validated_group_size _ _ _ Hval) as (Hg & _).
  rewrite (proj2 (String.eqb_neq _ _) Hne).
  set (h := fst (Linear._get_or_create_bitblas_operator _ _ _ _ _)).
  unfold Linear._initialize_buffers, Linear.consistent.
  cbn [Linear.is_consitent Linear.bitblas_matmul].
  destruct (torch_zeros (Matmul.retrieve_weight_shape h) Linear.TORCH_STORAGE_DTYPE)
    as [qw |] eqn:Hqw; [|discriminate].
  cbn [bind Linear.group_size Linear.set_qweight Linear.set_buffers Linear.torch_dtype].
  unfold floordiv. rewrite (proj2 (Z.eqb_neq _ 0) Hg). cbn [bind].
  destruct (torch_zeros [Linear.arg_out_features a; _] dt) as [sc |] eqn:Hsc;
    [|discriminate].
  cbn [bind Linear.zeros_mode Linear.set_scales Linear.set_qweight Linear.set_buffers
       Linear.group_size Linear.torch_dtype Linear.bits].
  change (int_of_digits Linear.STORAGE_DTYPE 0) with 8. cbn [Z.eqb bind].
  destruct (torch_zeros_spec _ _ _ Hqw) as (Hqd & Hqs & _).
  destruct (torch_zeros_spec _ _ _ Hsc) as (Hsd & Hss & _).
  destruct (match Linear.arg_zeros_mode a with
            | Some m => String.eqb m "quantized"
            | None => false
            end) eqn:Hmode.
  - rewrite ?(proj2 (Z.eqb_neq _ 0) Hg). cbn [bind].
    match goal with |- context [torch_zeros ?sh Linear.TORCH_STORAGE_DTYPE] =>
      destruct (torch_zeros sh Linear.TORCH_STORAGE_DTYPE) as [z |] eqn:Hz
    end; [|discriminate].
    simp_layer.
    destruct (torch_zeros_spec _ _ _ Hz) as (Hzd & Hzs & _).
    destruct (Linear.arg_bias a).
    + destruct (torch_zeros [Linear.arg_out_features a] dt) as [b |] eqn:Hb;
        cbn [bind]; intros H; [|discriminate].
      destruct (torch_zeros_spec _ _ _ Hb) as (Hbd & Hbs & _).
      injection H as <- _. cbn. repeat split; eauto 6.
    + intros H. injection H as <- _. cbn. repeat split; eauto 6.
  - rewrite ?(proj2 (Z.eqb_neq _ 0) Hg). cbn [bind]. rewrite Hsc. cbn [bind].
    pose proof Hsc as Hz. set (z := sc) in Hz |- * at 2.
    simp_layer.
    destruct (torch_zeros_spec _ _ _ Hz) as (Hzd & Hzs & _).
    destruct (Linear.arg_bias a).
    + destruct (torch_zeros [Linear.arg_out_features a] dt) as [b |] eqn:Hb;
        cbn [bind]; intros H; [|discriminate].
      destruct (torch_zeros_spec _ _ _ Hb) as (Hbd & Hbs & _).
      injection H as <- _. cbn. repeat split; eauto 6.
    + intros H. injection H as <- _. cbn. repeat split; eauto 6.
Qed.

(** A 4-bit layer of 16 inputs and 16 outputs in one group, zeros mode
    "quantized": scales of shape (16, 1), packed zero-points of shape
    (1, 8). *)
Lemma quantized_buffers_witness :
  exists self scales zeros,
    fst (Linear.__init__ "default"
           (sample_args "float16" "int4" true true (Some "quantized") true) sample_world)
      = Ok self /\
    Linear.scales self = Some scales /\ shape scales = [16; 1] /\
    Linear.zeros self = Some zeros /\ shape zeros = [1; 8] /\
    dtype_of zeros = torch_int8.
Proof.
  destruct (Linear.__init__ "default"
              (sample_args "float16" "int4" true true (Some "quantized") true) sample_world)
    as [r w'] eqn:Hinit.
  destruct r as [self | e]; [|vm_compute in Hinit; discriminate].
  destruct (quantized_buffers "default"
              (sample_args "float16" "int4" true true (Some "quantized") true)
              sample_world w' self) as (_ & _ & (sc & Hsc & _ & Hss) & (z & Hz & Hzd & Hzs) & _).
  - discriminate.
  - exact Hinit.
  - exists self, sc, z. split; [reflexivity|].
    assert (Hg : Linear.group_size self = 16 /\ Linear.bits self = 4).
    { vm_compute in Hinit. injection Hinit as <- _. split; reflexivity. }
    destruct Hg as (Hg & Hbits). rewrite Hg in Hss, Hzs. rewrite Hbits in Hzs.
    repeat split; assumption.
Defined.

(** The lookup of an operator leaves the hardware, the compiler, the
    stream and what the world records of database paths as they are. *)
Lemma operator_lookup_frame (ref : nat) (path : string) (config : MatmulConfig.t)
    (enable_tuning : bool) (w : World) :
  let w' := snd (Linear._get_or_create_bitblas_operator ref path config enable_tuning w) in
  path_exists w' = path_exists w /\ makedirs_ok w' = makedirs_ok w /\
  nvidia_target w' = nvidia_target w /\ compile w' = compile w /\
  cuda_stream w' = cuda_stream w /\ makedirs_leaves w' = makedirs_leaves w.
Proof.
  unfold Linear._get_or_create_bitblas_operator.
  set (w0 := if OperatorCache.size (caches w ref) =? 0 then _ else w).
  assert (H0 : path_exists w0 = path_exists w /\ makedirs_ok w0 = makedirs_ok w /\
               nvidia_target w0 = nvidia_target w /\ compile w0 = compile w /\
               cuda_stream w0 = cuda_stream w /\ makedirs_leaves w0 = makedirs_leaves w).
  { subst w0. destruct (OperatorCache.size (caches w ref) =? 0); [|auto 7].
    unfold OperatorCache.load_from_database.
    destruct (OperatorCache.hydrate _ _ _ _). cbn. auto 7. }
  destruct (OperatorCache.get (caches w0 ref) config); [exact H0|].
  unfold Matmul_new. cbv zeta.
  destruct enable_tuning; [|exact H0].
  destruct (negb _); cbn; exact H0.
Qed.

(** [_initialize_buffers] assigns buffers only. *)
Lemma initialize_buffers_keeps (self self' : Linear.t) (i o : Z) (b : bool) :
  Linear._initialize_buffers self i o b = Ok self' -> same_settings self' self.
Proof.
  unfold Linear._initialize_buffers.
  match goal with |- bind ?m _ = _ -> _ => destruct m as [s1 |] eqn:H1 end;
    [|discriminate].
  cbn [bind].
  assert (Hk : same_settings s1 self).
  { destruct (Linear.consistent self).
    - destruct (floordiv i (Linear.group_size self)); [|discriminate]. cbn [bind] in H1.
      destruct (torch_zeros _ _); [|discriminate]. injection H1 as <-.
      unfold same_settings. cbn. auto 20.
    - destruct (torch_zeros _ Linear.TORCH_STORAGE_DTYPE); [|discriminate].
      simp_layer.
      destruct (floordiv i (Linear.group_size self)); [|discriminate]. simp_layer.
      destruct (torch_zeros _ _); [|discriminate]. simp_layer.
      destruct (match Linear.zeros_mode self with Some _ => _ | None => _ end).
      + destruct (floordiv o _); [|discriminate]. simp_layer.
        destruct (torch_zeros _ _); [|discriminate]. injection H1 as <-.
        unfold same_settings. cbn. auto 20.
      + injection H1 as <-. unfold same_settings. cbn. auto 20. }
  clear H1. destruct b.
  - destruct (torch_zeros [o] _); cbn [bind]; intros H; [|discriminate].
    injection H as <-. exact Hk.
  - intros H. injection H as <-. exact Hk.
Qed.

(** The attributes of a constructed layer, read off the steps of
    [__init__]. *)
Lemma init_settings (default : string) (a : Linear.init_args) (w w' : World)
    (self : Linear.t) :
  Linear.__init__ default a w = (Ok self, w') ->
  let w1 := snd (resolve_database_path default a w) in
  let cache := match Linear.arg_operator_cache a with
               | Some c => c
               | None => Linear.global_operator_cache
               end in
  let g := Linear._set_group_size (Linear.arg_group_size a) (Linear.arg_in_features a) in
  let hw := Linear._get_or_create_bitblas_operator cache
              (fst (resolve_database_path default a w)) (config_of_args a)
              (Linear.arg_enable_tuning a) w1 in
  w' = snd hw /\
  torch_getattr (Linear.arg_A_dtype a) = Ok (Linear.torch_dtype self) /\
  Linear._validate_parameters g (Linear.arg_in_features a) (Linear.arg_out_features a)
    = Ok tt /\
  Linear.operator_cache self = cache /\
  Linear.database_path self = fst (resolve_database_path default a w) /\
  Linear.in_features self = Linear.arg_in_features a /\
  Linear.out_features self = Linear.arg_out_features a /\
  Linear.group_size self = g /\
  Linear.is_consitent self = String.eqb (Linear.arg_A_dtype a) (Linear.arg_W_dtype a) /\
  Linear.zeros_mode self = Linear.arg_zeros_mode a /\
  Linear.bitblas_matmul self = fst hw /\
  Linear.q_params self = [].
Proof.
  rewrite init_steps. cbv zeta.
  destruct (torch_getattr (Linear.arg_A_dtype a)) as [dt |]; [|discriminate].
  destruct (Linear._validate_parameters _ _ _) as [[] |] eqn:Hval; [|discriminate].
  intros H. injection H as Hb Hw.
  apply initialize_buffers_keeps in Hb. unfold same_settings in Hb. cbn in Hb.
  destruct Hb as (H1 & H2 & H3 & H4 & H5 & H6 & H7 & H8 & H9 & H10 & H11 & H12).
  rewrite H6. repeat split; auto.
Qed.

(** X8.  The database path of a constructed layer is the requested path
    when that path exists or, creation being allowed, can be created, and
    then the path exists once the layer is constructed; it is the default
    path in every other case: no path given, a missing path with creation
    disabled, or a path whose creation fails. *)
Theorem database_path_resolution (default : string) (a : Linear.init_args) (w w' : World)
    (self : Linear.t) :
  Linear.__init__ default a w = (Ok self, w') ->
  match Linear.arg_database_path a with
  | None => Linear.database_path self = default
  | Some p =>
      if path_exists w p || (Linear.arg_create_missing_path a && makedirs_ok w p)
      then Linear.database_path self = p /\ path_exists w' p = true
      else Linear.database_path self = default
  end.
Proof.
  intros H. apply init_settings in H. cbv zeta in H.
  destruct H as (Hw & _ & _ & _ & Hp & _). rewrite Hp. subst w'.
  destruct (operator_lookup_frame
              (match Linear.arg_operator_cache a with
               | Some c => c
               | None => Linear.global_operator_cache
               end)
              (fst (resolve_database_path default a w)) (config_of_args a)
              (Linear.arg_enable_tuning a) (snd (resolve_database_path default a w)))
    as (Hpe & _).
  cbv zeta in Hpe. rewrite Hpe. clear Hpe Hp.
  unfold resolve_database_path.
  destruct (Linear.arg_database_path a) as [p |]; [|reflexivity].
  destruct (path_exists w p) eqn:He; cbn [orb fst snd].
  - split; [reflexivity | exact He].
  - destruct (Linear.arg_create_missing_path a); cbn [andb]; [|reflexivity].
    unfold os_makedirs.
    destruct (makedirs_ok w p) eqn:Hmk; cbn [fst snd]; [|reflexivity].
    split; [reflexivity|]. cbn. rewrite String.eqb_refl. reflexivity.
Qed.

(** A layer over a missing path that can be created: the path is used, and
    it exists afterwards. *)
Lemma database_path_resolution_witness :
  let w := mkWorld "cuda" (fun _ _ => sample_kernel) 7 0%nat (fun _ => [])
             (fun _ _ => []) [] (fun _ => false) (fun _ => true)
             (fun _ q => String.eqb q "/models") false [] in
  let a := Linear.mk_args 16 16 true "float16" "int4" "float16" "float16" (Some (-1))
             (Some true) true (Some "rescale") Linear.opt_M true None false
             None (Some "/models/db") true in
  exists self w',
    Linear.__init__ "default" a w = (Ok self, w') /\
    Linear.database_path self = "/models/db" /\ path_exists w' "/models/db" = true.
Proof.
  intros w a.
  destruct (Linear.__init__ "default" a w) as [r w'] eqn:Hinit.
  destruct r as [self | e]; [|vm_compute in Hinit; discriminate].
  exists self, w'. split; [reflexivity|].
  exact (database_path_resolution "default" a w w' self Hinit).
Defined.

(** X9.  Every constructed layer has [in_features] and [out_features]
    that are multiples of 16 and a non-zero group size that divides
    [in_features]; the group size is [in_features] itself when none or -1
    was given, and the given one otherwise.  The layer is consistent
    exactly when the two dtype names are equal. *)
Theorem constructed_layer_invariants (default : string) (a : Linear.init_args)
    (w w' : World) (self : Linear.t) :
  Linear.__init__ default a w = (Ok self, w') ->
  Linear.in_features self = Linear.arg_in_features a /\
  Linear.out_features self = Linear.arg_out_features a /\
  Linear.in_features self mod 16 = 0 /\
  Linear.out_features self mod 16 = 0 /\
  Linear.group_size self <> 0 /\
  Linear.in_features self mod Linear.group_size self = 0 /\
  Linear.group_size self =
    match Linear.arg_group_size a with
    | None => Linear.in_features self
    | Some g => if g =? -1 then Linear.in_features self else g
    end /\
  Linear.consistent self = String.eqb (Linear.arg_A_dtype a) (Linear.arg_W_dtype a).
Proof.
  intros H. apply init_settings in H. cbv zeta in H.
  destruct H as (_ & _ & Hval & _ & _ & Hi & Ho & Hg & Hc & _ & _ & Hq).
  rewrite Hi, Ho, Hg. unfold Linear.consistent. rewrite Hc.
  split; [reflexivity|]. split; [reflexivity|].
  revert Hval. unfold Linear._validate_parameters.
  destruct (Linear.arg_in_features a mod 16 =? 0) eqn:E1; [|discriminate].
  destruct (Linear.arg_out_features a mod 16 =? 0) eqn:E2; [|discriminate].
  cbn [negb orb]. unfold pymod.
  destruct (Linear._set_group_size _ _ =? 0) eqn:E3; [discriminate|]. cbn [bind].
  match goal with |- context [negb (?m =? 0)] => destruct (m =? 0) eqn:E4 end;
    [|discriminate]. intros _.
  apply Z.eqb_eq in E1, E2, E4. apply Z.eqb_neq in E3.
  repeat split; auto.
Qed.

Lemma constructed_layer_invariants_witness :
  exists self w',
    Linear.__init__ "default"
      (sample_args "float16" "int4" true true (Some "rescale") true) sample_world
      = (Ok self, w') /\
    Linear.in_features self mod 16 = 0 /\ Linear.group_size self = 16 /\
    Linear.consistent self = false.
Proof.
  destruct (Linear.__init__ "default"
              (sample_args "float16" "int4" true true (Some "rescale") true) sample_world)
    as [r w'] eqn:Hinit.
  destruct r as [self | e]; [|vm_compute in Hinit; discriminate].
  exists self, w'. split; [reflexivity|].
  destruct (constructed_layer_invariants "default" _ _ _ _ Hinit)
    as (_ & _ & H16 & _ & _ & _ & Hg & Hc).
  split; [exact H16|]. split; [|exact Hc].
  rewrite Hg. cbn. 
  destruct (constructed_layer_invariants "default" _ _ _ _ Hinit) as (Hi & _).
  exact Hi.
Defined.

(** ** The operator cache *)

(** What a lookup does to the one-time message and its flag. *)
Lemma operator_lookup_message (ref : nat) (path : string) (config : MatmulConfig.t)
    (enable_tuning : bool) (w : World) :
  let w' := snd (Linear._get_or_create_bitblas_operator ref path config enable_tuning w) in
  (tuning_message_shown w' = tuning_message_shown w /\ stdout w' = stdout w) \/
  (tuning_message_shown w = false /\ tuning_message_shown w' = true /\
   stdout w' = stdout w ++ [tuning_message]).
Proof.
  unfold Linear._get_or_create_bitblas_operator.
  set (w0 := if OperatorCache.size (caches w ref) =? 0 then _ else w).
  assert (H0 : tuning_message_shown w0 = tuning_message_shown w /\ stdout w0 = stdout w).
  { subst w0. destruct (OperatorCache.size (caches w ref) =? 0); [|auto].
    unfold OperatorCache.load_from_database.
    destruct (OperatorCache.hydrate _ _ _ _). cbn. auto. }
  destruct H0 as (Hf & Hs).
  destruct (OperatorCache.get (caches w0 ref) config); [left; auto|].
  unfold Matmul_new. cbv zeta.
  destruct enable_tuning; [|left; cbn; auto].
  cbn [set_next_op_id tuning_message_shown].
  destruct (tuning_message_shown w0) eqn:Hshown; cbn [negb].
  - left. cbn. rewrite <- Hf, Hs. auto.
  - right. cbn. rewrite <- Hf, Hs. auto.
Qed.

Lemma init_message (default : string) (a : Linear.init_args) (w : World) :
  let w' := snd (Linear.__init__ default a w) in
  (tuning_message_shown w' = tuning_message_shown w /\ stdout w' = stdout w) \/
  (tuning_message_shown w = false /\ tuning_message_shown w' = true /\
   stdout w' = stdout w ++ [tuning_message]).
Proof.
  rewrite init_steps. cbv zeta.
  destruct (resolve_keeps default a w) as (_ & _ & _ & _ & Hs & _ & _ & Hf).
  destruct (torch_getattr (Linear.arg_A_dtype a)); [|left; cbn; auto].
  destruct (Linear._validate_parameters _ _ _); [|left; cbn; auto].
  cbn [snd].
  match goal with |- context [Linear._get_or_create_bitblas_operator ?r ?p ?c ?e ?w1] =>
    destruct (operator_lookup_message r p c e w1) as [(H1 & H2) | (H1 & H2 & H3)]
  end.
  - left. cbv zeta in H1, H2. rewrite H1, H2. auto.
  - right. cbv zeta in H2, H3. rewrite H2, H3, <- Hf, Hs. auto.
Qed.

Lemma printed_once_step (default : string) (a : Linear.init_args) (w : World) :
  (printed w tuning_message <= if tuning_message_shown w then 1 else 0)%nat ->
  let w' := snd (Linear.__init__ default a w) in
  (printed w' tuning_message <= if tuning_message_shown w' then 1 else 0)%nat.
Proof.
  intros Hinv w'. subst w'.
  destruct (init_message default a w) as [(H1 & H2) | (H1 & H2 & H3)];
    cbv zeta in *; unfold printed in *.
  - rewrite H1, H2. exact Hinv.
  - rewrite H2, H3. rewrite H1 in Hinv. rewrite count_occ_app. cbn [count_occ].
    destruct (string_dec tuning_message tuning_message); [|congruence]. lia.
Qed.

(** X10.  The one-time message.  In a process that has not printed it,
    however many layers are constructed one after the other, with whatever
    arguments and whether or not a construction fails, the line announcing
    the compilation of kernels is printed at most once. *)
Theorem tuning_message_printed_once (default : string) (l : list Linear.init_args)
    (w : World) :
  tuning_message_shown w = false -> printed w tuning_message = 0%nat ->
  let w' := fold_left (fun w a => snd (Linear.__init__ default a w)) l w in
  (printed w' tuning_message <= 1)%nat.
Proof.
  intros Hf Hp.
  assert (Hinv : (printed w tuning_message <= if tuning_message_shown w then 1 else 0)%nat)
    by (rewrite Hf, Hp; lia).
  clear Hf Hp. cbv zeta.
  assert (Hgen : (printed (fold_left (fun w a => snd (Linear.__init__ default a w)) l w)
                    tuning_message
                  <= if tuning_message_shown
                          (fold_left (fun w a => snd (Linear.__init__ default a w)) l w)
                     then 1 else 0)%nat).
  { revert w Hinv. induction l as [| a l IH]; intros w Hinv; cbn [fold_left].
    - exact Hinv.
    - apply IH. apply printed_once_step. exact Hinv. }
  revert Hgen.
  match goal with |- context [tuning_message_shown ?x] =>
    destruct (tuning_message_shown x) end; lia.
Qed.

(** Two tuned layers of different shapes built in a fresh process: the
    line is printed once. *)
Lemma tuning_message_printed_once_witness :
  let a1 := sample_args "float16" "int4" true true (Some "rescale") true in
  let a2 := sample_args "float16" "int2" true true (Some "original") true in
  let w' := fold_left (fun w a => snd (Linear.__init__ "default" a w)) [a1; a2]
              sample_world in
  (printed w' tuning_message <= 1)%nat /\ printed w' tuning_message = 1%nat.
Proof.
  intros a1 a2 w'. split.
  - apply (tuning_message_printed_once "default" [a1; a2] sample_world); reflexivity.
  - vm_compute. reflexivity.
Defined.

Lemma config_eqb_eq (c1 c2 : MatmulConfig.t) : MatmulConfig.eqb c1 c2 = true -> c1 = c2.
Proof. unfold MatmulConfig.eqb. destruct (MatmulConfig.eq_dec c1 c2); congruence. Qed.

Lemma get_coherent (c : Cache) (config : MatmulConfig.t) (h : Matmul.t) :
  coherent c -> OperatorCache.get c config = Some h -> Matmul.config h = config.
Proof.
  unfold coherent, OperatorCache.get. intros Hc.
  destruct (find _ c) as [e |] eqn:Hfind; [|discriminate].
  apply find_some in Hfind. destruct Hfind as (Hin & Heq).
  intros H. injection H as <-. apply config_eqb_eq in Heq. rewrite <- Heq.
  exact (proj1 (Forall_forall _ c) Hc e Hin).
Qed.

Lemma add_coherent (c : Cache) (config : MatmulConfig.t) (h : Matmul.t) :
  coherent c -> Matmul.config h = config -> coherent (OperatorCache.add c config h).
Proof.
  unfold coherent, OperatorCache.add. intros Hc Hh. constructor; [exact Hh|].
  apply Forall_forall. intros e He. apply filter_In in He.
  exact (proj1 (Forall_forall _ c) Hc e (proj1 He)).
Qed.

Lemma hydrate_coherent (entries : list (MatmulConfig.t * Kernel)) (tgt : string)
    (id : nat) (c : Cache) :
  coherent c -> coherent (fst (OperatorCache.hydrate entries tgt id c)).
Proof.
  revert id c. induction entries as [| [config k] rest IH]; intros id c Hc;
    cbn [OperatorCache.hydrate].
  - exact Hc.
  - apply IH. apply add_coherent; [exact Hc | reflexivity].
Qed.

Lemma hydrated_coherent (ref : nat) (path : string) (w : World) :
  coherent (caches w ref) -> coherent (caches (hydrated ref path w) ref).
Proof.
  intros Hc. unfold hydrated.
  destruct (OperatorCache.size (caches w ref) =? 0); [|exact Hc].
  unfold OperatorCache.load_from_database.
  pose proof (hydrate_coherent (database w path (auto_detect_nvidia_target w))
                (auto_detect_nvidia_target w) (next_op_id w) (caches w ref) Hc) as H.
  destruct (OperatorCache.hydrate _ _ _ _) as [c' id']. cbn [fst] in H.
  cbn. rewrite Nat.eqb_refl. exact H.
Qed.

(** A lookup in a coherent cache returns a handle of the requested
    configuration and leaves the cache coherent. *)
Lemma operator_lookup_coherent (ref : nat) (path : string) (config : MatmulConfig.t)
    (enable_tuning : bool) (w : World) :
  coherent (caches w ref) ->
  let hw := Linear._get_or_create_bitblas_operator ref path config enable_tuning w in
  Matmul.config (fst hw) = config /\ coherent (caches (snd hw) ref).
Proof.
  intros Hc. apply (hydrated_coherent ref path) in Hc. cbv zeta.
  destruct (OperatorCache.get (caches (hydrated ref path w) ref) config) as [h |] eqn:Hget.
  - assert (Hcall : Linear._get_or_create_bitblas_operator ref path config
                      enable_tuning w = (h, hydrated ref path w)).
    { unfold Linear._get_or_create_bitblas_operator.
      change (if OperatorCache.size (caches w ref) =? 0
              then OperatorCache.load_from_database ref path
                     (auto_detect_nvidia_target w) w
              else w) with (hydrated ref path w).
      rewrite Hget. reflexivity. }
    rewrite Hcall. cbn [fst snd]. split; [|exact Hc].
    exact (get_coherent _ _ _ Hc Hget).
  - destruct (cache_miss ref path config enable_tuning w Hget) as (w' & Hcall & Hw').
    rewrite Hcall. cbn [fst snd Matmul.config]. split; [reflexivity|].
    destruct enable_tuning.
    + destruct Hw' as (_ & Hcache & _). rewrite Hcache.
      apply add_coherent; [exact Hc | reflexivity].
    + destruct Hw' as (_ & Hcache & _). rewrite Hcache. exact Hc.
Qed.

(** X11.  When every handle of the operator cache the layer uses is stored
    under its own configuration, the handle of a constructed layer carries
    exactly the configuration [_configure_bitblas_matmul] builds from the
    arguments, whether the handle was found in the cache, loaded from the
    database or built; [bits] and [source_format] of the layer are those
    of the handle; and the cache is left in that same state. *)
Theorem handle_matches_arguments (default : string) (a : Linear.init_args)
    (w w' : World) (self : Linear.t) :
  let cache := match Linear.arg_operator_cache a with
               | Some c => c
               | None => Linear.global_operator_cache
               end in
  coherent (caches w cache) ->
  Linear.__init__ default a w = (Ok self, w') ->
  Linear.config self = config_of_args a /\
  MatmulConfig.N (Linear.config self) = Linear.out_features self /\
  MatmulConfig.K (Linear.config self) = Linear.in_features self /\
  MatmulConfig.group_size (Linear.config self) = Linear.group_size self /\
  MatmulConfig.with_bias (Linear.config self) = Linear.arg_bias a /\
  Linear.bits self = Matmul.bit (Linear.bitblas_matmul self) /\
  Linear.source_format self = Matmul.source_format (Linear.bitblas_matmul self) /\
  coherent (caches w' cache).
Proof.
  intros cache Hc Hinit.
  pose proof (init_settings _ _ _ _ _ Hinit) as Hs. cbv zeta in Hs.
  destruct Hs as (Hw & _ & _ & _ & _ & Hi & Ho & Hg & _ & _ & Hh & _).
  assert (Hc1 : coherent (caches (snd (resolve_database_path default a w)) cache)).
  { destruct (resolve_keeps default a w) as (Hk & _). cbv zeta in Hk.
    rewrite Hk. exact Hc. }
  destruct (operator_lookup_coherent cache (fst (resolve_database_path default a w))
              (config_of_args a) (Linear.arg_enable_tuning a) _ Hc1) as (Hcfg & Hc').
  fold cache in Hw, Hh. rewrite <- Hh in Hcfg. rewrite <- Hw in Hc'.
  unfold Linear.config. rewrite Hcfg, Hi, Ho, Hg.
  split; [reflexivity|]. split; [reflexivity|]. split; [reflexivity|].
  split; [reflexivity|]. split; [reflexivity|].
  split; [|split; [|exact Hc']].
  - revert Hinit. rewrite init_steps. cbv zeta.
    destruct (torch_getattr (Linear.arg_A_dtype a)); [|discriminate].
    destruct (Linear._validate_parameters _ _ _); [|discriminate].
    intros H. injection H as Hb _. apply initialize_buffers_keeps in Hb.
    unfold same_settings in Hb. cbn in Hb.
    destruct Hb as (_ & _ & _ & _ & _ & _ & _ & _ & Hm & Hbits & _).
    rewrite Hbits, Hm. reflexivity.
  - revert Hinit. rewrite init_steps. cbv zeta.
    destruct (torch_getattr (Linear.arg_A_dtype a)); [|discriminate].
    destruct (Linear._validate_parameters _ _ _); [|discriminate].
    intros H. injection H as Hb _. apply initialize_buffers_keeps in Hb.
    unfold same_settings in Hb. cbn in Hb.
    destruct Hb as (_ & _ & _ & _ & _ & _ & _ & _ & Hm & _ & Hsf & _).
    rewrite Hsf, Hm. reflexivity.
Qed.

(** The first tuned layer of a process: its handle is bound to 16 outputs,
    16 inputs and one group of 16. *)
Lemma handle_matches_arguments_witness :
  exists self w',
    Linear.__init__ "default"
      (sample_args "float16" "int4" true true (Some "rescale") true) sample_world
      = (Ok self, w') /\
    Linear.config self = sample_config "float16" (Some "rescale") /\
    coherent (caches w' 0%nat).
Proof.
  destruct (Linear.__init__ "default"
              (sample_args "float16" "int4" true true (Some "rescale") true) sample_world)
    as [r w'] eqn:Hinit.
  destruct r as [self | e]; [|vm_compute in Hinit; discriminate].
  exists self, w'. split; [reflexivity|].
  destruct (handle_matches_arguments "default"
              (sample_args "float16" "int4" true true (Some "rescale") true)
              sample_world w' self (Forall_nil _) Hinit) as (Hcfg & _ & _ & _ & _ & _ & _ & Hc).
  split; [exact Hcfg | exact Hc].
Defined.

(** ** Dispatch *)

(** [init_params] writes the parameter list and nothing else, and does not
    read the list it replaces. *)
Lemma init_params_spec (self : Linear.t) :
  (forall s1, Linear.init_params self = Ok s1 ->
     s1 = Linear.set_q_params self (Linear.q_params s1)) /\
  (forall ps, Linear.init_params (Linear.set_q_params self ps) =
     match Linear.init_params self with
     | Ok s1 => Ok (Linear.set_q_params (Linear.set_q_params self ps) (Linear.q_params s1))
     | Raise e => Raise e
     end).
Proof.
  unfold Linear.init_params, Linear.config. split.
  - intros s1.
    destruct (Linear.is_consitent self).
    + destruct (Linear.weight self); [|discriminate]. cbn [attr bind].
      destruct (Linear.void_ptrs _); [|discriminate]. cbn [bind].
      intros H. injection H as <-. reflexivity.
    + destruct (Linear.qweight self); [|discriminate]. cbn [attr bind].
      destruct (if truthy _ then _ else _); [|discriminate]. cbn [bind].
      destruct (if MatmulConfig.with_zeros _ then _ else _); [|discriminate]. cbn [bind].
      destruct (Linear.void_ptrs _); [|discriminate]. cbn [bind].
      intros H. injection H as <-. reflexivity.
  - intros ps. simp_layer.
    destruct (Linear.is_consitent self).
    + destruct (Linear.weight self); [|reflexivity]. cbn [attr bind].
      destruct (Linear.void_ptrs _); reflexivity.
    + destruct (Linear.qweight self); [|reflexivity]. cbn [attr bind].
      destruct (if truthy _ then _ else _); [|reflexivity]. cbn [bind].
      destruct (if MatmulConfig.with_zeros _ then _ else _); [|reflexivity]. cbn [bind].
      destruct (Linear.void_ptrs _); reflexivity.
Qed.

(** [forward] step by step. *)
Lemma forward_steps (self : Linear.t) (A : Tensor) (output : option Tensor) (w : World) :
  let A' := Matmul.transform_input (Linear.bitblas_matmul self) A in
  Linear.forward self A output w =
  match Linear.init_params self with
  | Raise e => Raise e
  | Ok s1 =>
      match (match output with
             | None =>
                 dt <- torch_getattr (Matmul.out_dtype (Linear.bitblas_matmul self)) ;;
                 torch_zeros (removelast (shape A') ++ [Linear.out_features self]) dt
             | Some o => Ok o
             end) with
      | Raise e => Raise e
      | Ok out =>
          Ok (s1, out,
              c_void_p A' :: Linear.q_params s1 ++ [c_void_p out]
              ++ match Matmul.dynamic_range (Linear.bitblas_matmul self) with
                 | Some _ => [py_int (prod (removelast (shape A')))]
                 | None => []
                 end
              ++ [stream_handle (cuda_stream w)])
      end
  end.
Proof.
  intros A'. unfold Linear.forward. fold A'.
  destruct (Linear.init_params self) as [s1 |] eqn:Hp; [|reflexivity].
  cbn [bind]. apply (proj1 (init_params_spec self)) in Hp.
  rewrite Hp. simp_layer.
  destruct output as [o |].
  - cbn [bind]. destruct (Matmul.dynamic_range _); cbn [app];
      rewrite <- ?app_assoc; reflexivity.
  - destruct (torch_getattr _); [|reflexivity]. cbn [bind].
    destruct (torch_zeros _ _); [|reflexivity]. cbn [bind].
    destruct (Matmul.dynamic_range _); cbn [app]; rewrite <- ?app_assoc; reflexivity.
Qed.

(** X12.  [forward] recomputes the parameter list on every call.  A call
    that returns leaves every buffer and setting of the layer as it was
    and only replaces [q_params]; the arguments of the kernel are the
    activation, the new [q_params], the output and the stream token, with
    the dynamic size before the token when the handle has a dynamic range;
    and whatever list [q_params] held before the call has no effect on the
    call. *)
Theorem forward_refreshes_parameters (self : Linear.t) (A : Tensor)
    (output : option Tensor) (w : World) :
  let A' := Matmul.transform_input (Linear.bitblas_matmul self) A in
  (forall self' out args,
     Linear.forward self A output w = Ok (self', out, args) ->
     self' = Linear.set_q_params self (Linear.q_params self') /\
     args = [c_void_p A'] ++ Linear.q_params self' ++ [c_void_p out]
            ++ match Matmul.dynamic_range (Linear.bitblas_matmul self) with
               | Some _ => [py_int (prod (removelast (shape A')))]
               | None => []
               end
            ++ [stream_handle (cuda_stream w)] /\
     Linear.forward self' A output w = Ok (self', out, args)) /\
  (forall ps,
     match Linear.forward self A output w,
           Linear.forward (Linear.set_q_params self ps) A output w with
     | Ok (s1, out1, args1), Ok (s2, out2, args2) =>
         out2 = out1 /\ args2 = args1 /\ Linear.q_params s2 = Linear.q_params s1
     | Raise e1, Raise e2 => e1 = e2
     | _, _ => False
     end).
Proof.
  intros A'.
  assert (Hstale : forall ps,
     match Linear.forward self A output w,
           Linear.forward (Linear.set_q_params self ps) A output w with
     | Ok (s1, out1, args1), Ok (s2, out2, args2) =>
         out2 = out1 /\ args2 = args1 /\ Linear.q_params s2 = Linear.q_params s1
     | Raise e1, Raise e2 => e1 = e2
     | _, _ => False
     end).
  { intros ps. rewrite !forward_steps. cbv zeta.
    rewrite (proj2 (init_params_spec self) ps). simp_layer. fold A'.
    destruct (Linear.init_params self) as [s1 |]; [|reflexivity].
    destruct (match output with Some o => _ | None => _ end) as [out |]; [|reflexivity].
    simp_layer. auto. }
  split; [|exact Hstale].
  intros self' out args Hf.
  pose proof Hf as Hf0. rewrite forward_steps in Hf. cbv zeta in Hf. fold A' in Hf.
  destruct (Linear.init_params self) as [s1 |] eqn:Hp; [|discriminate].
  destruct (match output with Some o => _ | None => _ end) as [o |] eqn:Ho; [|discriminate].
  injection Hf as <- <- <-.
  pose proof (proj1 (init_params_spec self) _ Hp) as Hs1.
  split; [exact Hs1|]. split; [reflexivity|].
  assert (Hp1 : Linear.init_params s1 = Ok s1).
  { rewrite Hs1 at 1. rewrite (proj2 (init_params_spec self)), Hp. f_equal.
    rewrite <- Hs1. destruct s1; reflexivity. }
  assert (Hm : Linear.bitblas_matmul s1 = Linear.bitblas_matmul self)
    by (rewrite Hs1; reflexivity).
  assert (Hof : Linear.out_features s1 = Linear.out_features self)
    by (rewrite Hs1; reflexivity).
  rewrite forward_steps. cbv zeta. rewrite Hp1, Hm, Hof. fold A'. rewrite Ho.
  reflexivity.
Qed.

(** The sample layer: four parameters are passed, and a second call on the
    returned layer gives the same arguments. *)
Lemma forward_refreshes_parameters_witness :
  let self := sample_layer "float16" torch_float16 (Some "rescale") in
  let A := mkTensor torch_float16 [2; 16] [] in
  let o := mkTensor torch_float16 [2; 16] [] in
  exists self' args,
    Linear.forward self A (Some o) sample_world = Ok (self', o, args) /\
    length (Linear.q_params self') = 4%nat /\
    self' = Linear.set_q_params self (Linear.q_params self') /\
    Linear.forward self' A (Some o) sample_world = Ok (self', o, args).
Proof.
  intros self A o.
  destruct (Linear.forward self A (Some o) sample_world) as [[[self' out] args] | e] eqn:Hf;
    [|vm_compute in Hf; discriminate].
  assert (Hout : out = o /\ length (Linear.q_params self') = 4%nat).
  { vm_compute in Hf. injection Hf as <- <- _. split; reflexivity. }
  destruct Hout as (-> & Hlen).
  destruct (proj1 (forward_refreshes_parameters self A (Some o) sample_world)
              self' o args Hf) as (Hs & _ & Hagain).
  exists self', args. repeat split; assumption.
Defined.

(** X13.  Dispatch of a consistent layer.  The kernel is called with the
    activation, the dense weight, the bias when the configuration has
    one, the output, the dynamic size when the handle has a dynamic range,
    and the stream token; the scales and zero-points of the layer and the
    scaling and zeros flags of the configuration play no part.  A missing
    weight, or a missing bias under a configuration with bias, raises
    [AttributeError] before an output is allocated. *)
Theorem forward_consistent_arguments (self : Linear.t) (A : Tensor)
    (output : option Tensor) (w : World) :
  Linear.consistent self = true ->
  let A' := Matmul.transform_input (Linear.bitblas_matmul self) A in
  let with_bias := MatmulConfig.with_bias (Linear.config self) in
  (Linear.weight self = None -> Linear.forward self A output w = Raise AttributeError) /\
  (Linear.weight self <> None -> with_bias = true -> Linear.bias self = None ->
   Linear.forward self A output w = Raise AttributeError) /\
  (forall weight out,
     Linear.weight self = Some weight ->
     (with_bias = true -> Linear.bias self <> None) ->
     match output with
     | Some o => out = o
     | None =>
         exists dt,
           torch_getattr (Matmul.out_dtype (Linear.bitblas_matmul self)) = Ok dt /\
           torch_zeros (removelast (shape A') ++ [Linear.out_features self]) dt = Ok out
     end ->
     let params :=
       c_void_p weight ::
       match Linear.bias self with
       | Some b => if with_bias then [c_void_p b] else []
       | None => []
       end in
     Linear.forward self A output w =
     Ok (Linear.set_q_params self params, out,
         [c_void_p A'] ++ params ++ [c_void_p out]
         ++ match Matmul.dynamic_range (Linear.bitblas_matmul self) with
            | Some _ => [py_int (prod (removelast (shape A')))]
            | None => []
            end
         ++ [stream_handle (cuda_stream w)])).
Proof.
  intros Hc A' with_bias. unfold Linear.consistent in Hc.
  rewrite forward_steps. cbv zeta. fold A'.
  unfold Linear.init_params. rewrite Hc. subst with_bias.
  split; [|split].
  - intros ->. reflexivity.
  - intros Hw Hwb Hb. destruct (Linear.weight self) as [wt |]; [|congruence].
    rewrite Hwb, Hb. reflexivity.
  - intros weight out Hw Hb Hout. rewrite Hw. cbn [attr bind].
    destruct (MatmulConfig.with_bias (Linear.config self)).
    + destruct (Linear.bias self) as [b |]; [|exfalso; apply Hb; reflexivity].
      unfold Linear.void_ptrs. cbn [app mapM attr bind]. simp_layer.
      destruct output as [o |].
      * subst out. reflexivity.
      * destruct Hout as (dt & Hdt & Hz). rewrite Hdt. cbn [bind]. rewrite Hz.
        reflexivity.
    + unfold Linear.void_ptrs. cbn [app mapM attr bind]. simp_layer.
      assert (Hp : match Linear.bias self with Some _ => [] | None => [] end
                   = @nil carg) by (destruct (Linear.bias self); reflexivity).
      rewrite Hp.
      destruct output as [o |].
      * subst out. reflexivity.
      * destruct Hout as (dt & Hdt & Hz). rewrite Hdt. cbn [bind]. rewrite Hz.
        reflexivity.
Qed.

(** A consistent float16 layer with a bias, as [__init__] builds it, on an
    activation of two rows. *)
Lemma forward_consistent_arguments_witness :
  let run := Linear.__init__ "default"
               (sample_args "float16" "float16" false false None true) sample_world in
  let A := mkTensor torch_float16 [2; 16] [] in
  let o := mkTensor torch_float16 [2; 16] [] in
  exists self weight b,
    fst run = Ok self /\ Linear.weight self = Some weight /\
    Linear.bias self = Some b /\
    Linear.forward self A (Some o) (snd run) =
    Ok (Linear.set_q_params self [c_void_p weight; c_void_p b], o,
        [c_void_p A; c_void_p weight; c_void_p b; c_void_p o; py_int 2; stream_handle 7]).
Proof.
  intros run A o.
  destruct (fst run) as [self | e] eqn:Hrun; [|vm_compute in Hrun; discriminate].
  assert (Hw : exists weight b,
             Linear.weight self = Some weight /\ Linear.bias self = Some b /\
             Linear.consistent self = true /\
             MatmulConfig.with_bias (Linear.config self) = true /\
             Matmul.transform_input (Linear.bitblas_matmul self) A = A /\
             Matmul.dynamic_range (Linear.bitblas_matmul self)
               = Some [16; 32; 64; 128; 256; 512] /\
             cuda_stream (snd run) = 7).
  { vm_compute in Hrun. injection Hrun as <-. eexists. eexists.
    repeat split; reflexivity. }
  destruct Hw as (weight & b & Hwt & Hb & Hc & Hwb & HA & Hdyn & Hst).
  exists self, weight, b. split; [reflexivity|]. split; [exact Hwt|].
  split; [exact Hb|].
  destruct (forward_consistent_arguments self A (Some o) (snd run) Hc) as (_ & _ & Hf).
  specialize (Hf weight o Hwt).
  rewrite Hb, Hwb, HA, Hdyn, Hst in Hf. apply Hf; [discriminate | reflexivity].
Defined.

(** The buffers [_initialize_buffers] leaves assigned. *)
Lemma initialize_buffers_present (self self' : Linear.t) (i o : Z) (b : bool) :
  Linear._initialize_buffers self i o b = Ok self' ->
  (if Linear.consistent self then Linear.weight self' <> None
   else Linear.qweight self' <> None /\ Linear.scales self' <> None /\
        Linear.zeros self' <> None) /\
  (b = true -> Linear.bias self' <> None).
Proof.
  unfold Linear._initialize_buffers.
  match goal with |- bind ?m _ = _ -> _ => destruct m as [s1 |] eqn:H1 end;
    [|discriminate].
  cbn [bind].
  assert (Hk : if Linear.consistent self then Linear.weight s1 <> None
               else Linear.qweight s1 <> None /\ Linear.scales s1 <> None /\
                    Linear.zeros s1 <> None).
  { destruct (Linear.consistent self).
    - destruct (floordiv i (Linear.group_size self)); [|discriminate]. cbn [bind] in H1.
      destruct (torch_zeros _ _); [|discriminate]. injection H1 as <-.
      cbn. discriminate.
    - destruct (torch_zeros _ Linear.TORCH_STORAGE_DTYPE); [|discriminate].
      simp_layer.
      destruct (floordiv i (Linear.group_size self)); [|discriminate]. simp_layer.
      destruct (torch_zeros _ _); [|discriminate]. simp_layer.
      destruct (match Linear.zeros_mode self with Some _ => _ | None => _ end).
      + destruct (floordiv o _); [|discriminate]. simp_layer.
        destruct (torch_zeros _ _); [|discriminate]. injection H1 as <-.
        cbn. repeat split; discriminate.
      + injection H1 as <-. cbn. repeat split; discriminate. }
  clear H1. destruct b.
  - destruct (torch_zeros [o] _); cbn [bind]; intros H; [|discriminate].
    injection H as <-. split; [|intros _; cbn; discriminate].
    destruct (Linear.consistent self); exact Hk.
  - intros H. injection H as <-. split; [|discriminate].
    destruct (Linear.consistent self); exact Hk.
Qed.

(** What [init_params] needs of a constructed layer. *)
Lemma handle_settings (default : string) (a : Linear.init_args) (w w' : World)
    (self : Linear.t) :
  coherent (caches w (match Linear.arg_operator_cache a with
                      | Some c => c
                      | None => Linear.global_operator_cache
                      end)) ->
  Linear.__init__ default a w = (Ok self, w') ->
  Linear.config self = config_of_args a /\
  (if Linear.consistent self then Linear.weight self <> None
   else Linear.qweight self <> None /\ Linear.scales self <> None /\
        Linear.zeros self <> None) /\
  (Linear.arg_bias a = true -> Linear.bias self <> None) /\
  Linear.is_consitent self = String.eqb (Linear.arg_A_dtype a) (Linear.arg_W_dtype a).
Proof.
  intros Hc Hinit.
  pose proof (init_settings _ _ _ _ _ Hinit) as Hs. cbv zeta in Hs.
  destruct Hs as (_ & _ & _ & _ & _ & _ & _ & _ & Hcons & _ & Hh & _).
  assert (Hc1 : coherent (caches (snd (resolve_database_path default a w))
                            (match Linear.arg_operator_cache a with
                             | Some c => c
                             | None => Linear.global_operator_cache
                             end))).
  { destruct (resolve_keeps default a w) as (Hk & _). cbv zeta in Hk.
    rewrite Hk. exact Hc. }
  destruct (operator_lookup_coherent _ (fst (resolve_database_path default a w))
              (config_of_args a) (Linear.arg_enable_tuning a) _ Hc1) as (Hcfg & _).
  rewrite <- Hh in Hcfg.
  split; [exact Hcfg|].
  revert Hinit. rewrite init_steps. cbv zeta.
  destruct (torch_getattr (Linear.arg_A_dtype a)); [|discriminate].
  destruct (Linear._validate_parameters _ _ _); [|discriminate].
  intros H. injection H as Hb _.
  pose proof (initialize_buffers_present _ _ _ _ _ Hb) as (Hp & Hbias).
  unfold Linear.consistent in Hp |- *. cbn [Linear.is_consitent] in Hp.
  rewrite Hcons. auto.
Qed.

(** X14.  A constructed layer holds every buffer its parameter list
    needs.  When the cache is coherent, [init_params] on the new layer
    raises no [AttributeError]: it returns, with one parameter in
    consistent mode and the packed weight plus one parameter per enabled
    flag (scaling, zeros) otherwise, and the bias when one was asked
    for. *)
Theorem constructed_layer_has_parameters (default : string) (a : Linear.init_args)
    (w w' : World) (self : Linear.t) :
  let cache := match Linear.arg_operator_cache a with
               | Some c => c
               | None => Linear.global_operator_cache
               end in
  coherent (caches w cache) ->
  Linear.__init__ default a w = (Ok self, w') ->
  exists self',
    Linear.init_params self = Ok self' /\
    length (Linear.q_params self') =
      ((if String.eqb (Linear.arg_A_dtype a) (Linear.arg_W_dtype a) then 1
        else 1 + (if truthy (Linear.arg_with_scaling a) then 1 else 0)
               + (if Linear.arg_with_zeros a then 1 else 0))
       + (if Linear.arg_bias a then 1 else 0))%nat.
Proof.
  intros cache Hc Hinit.
  destruct (handle_settings default a w w' self Hc Hinit) as (Hcfg & Hpres & Hbias & Hcons).
  unfold Linear.init_params. rewrite Hcfg.
  unfold config_of_args at 1 2 3 4. cbn [MatmulConfig.with_bias MatmulConfig.with_scaling
    MatmulConfig.with_zeros].
  rewrite Hcons. unfold Linear.consistent in Hpres. rewrite Hcons in Hpres.
  destruct (String.eqb (Linear.arg_A_dtype a) (Linear.arg_W_dtype a)).
  - destruct (Linear.weight self) as [wt |]; [|congruence]. cbn [attr bind].
    destruct (Linear.arg_bias a).
    + destruct (Linear.bias self) as [b |]; [|exfalso; apply Hbias; reflexivity].
      unfold Linear.void_ptrs. cbn [app mapM attr bind]. simp_layer.
      eexists. split; reflexivity.
    + unfold Linear.void_ptrs. cbn [app mapM attr bind]. simp_layer.
      eexists. split; reflexivity.
  - destruct Hpres as (Hq & Hs & Hz).
    destruct (Linear.qweight self) as [qw |]; [|congruence].
    destruct (Linear.scales self) as [sc |]; [|congruence].
    destruct (Linear.zeros self) as [z |]; [|congruence].
    cbn [attr bind].
    destruct (truthy (Linear.arg_with_scaling a)), (Linear.arg_with_zeros a),
      (Linear.arg_bias a); cbn [attr bind app];
      try (destruct (Linear.bias self) as [b |]; [|exfalso; apply Hbias; reflexivity]);
      unfold Linear.void_ptrs; cbn [app mapM attr bind]; simp_layer;
      eexists; split; reflexivity.
Qed.

(** A quantized layer with scaling, zeros and a bias, built in a fresh
    process: four parameters. *)
Lemma constructed_layer_has_parameters_witness :
  let a := sample_args "float16" "int4" true true (Some "rescale") true in
  exists self w' self',
    Linear.__init__ "default" a sample_world = (Ok self, w') /\
    Linear.init_params self = Ok self' /\
    length (Linear.q_params self') = 4%nat.
Proof.
  intros a.
  destruct (Linear.__init__ "default" a sample_world) as [r w'] eqn:Hinit.
  destruct r as [self | e]; [|vm_compute in Hinit; discriminate].
  destruct (constructed_layer_has_parameters "default" a sample_world w' self
              (Forall_nil _) Hinit)
    as (self' & Hp & Hlen).
  exists self, w', self'. split; [reflexivity|]. split; [exact Hp | exact Hlen].
Defined.

(** ** Repacking *)

(** [store_zeros] assigns the zeros buffer and nothing else. *)
Lemma store_zeros_assigns (self self' : Linear.t) (intzeros : Tensor) :
  Linear.store_zeros self intzeros = Ok self' ->
  exists z, self' = Linear.set_zeros self z.
Proof.
  unfold Linear.store_zeros.
  destruct (match MatmulConfig.zeros_mode (Linear.config self) with
            | Some m => String.eqb m "original" | None => false end).
  { destruct (to_dtype intzeros torch_float16); [|discriminate]. cbn [bind].
    intros H. injection H as <-. eexists. reflexivity. }
  destruct (match MatmulConfig.zeros_mode (Linear.config self) with
            | Some m => String.eqb m "rescale" | None => false end).
  { match goal with |- bind ?m _ = _ -> _ => destruct m end; [|discriminate].
    cbn [bind].
    match goal with |- bind ?m _ = _ -> _ => destruct m end; [|discriminate].
    cbn [bind]. destruct (tensor_mul _ _); [|discriminate]. cbn [bind].
    destruct (attr (Linear.zeros self)); [|discriminate]. cbn [bind].
    destruct (setitem_all _ _); [|discriminate]. cbn [bind].
    intros H. injection H as <-. eexists. reflexivity. }
  destruct (match MatmulConfig.zeros_mode (Linear.config self) with
            | Some m => String.eqb m "quantized" | None => false end); [|discriminate].
  destruct (transpose intzeros); [|discriminate]. cbn [bind].
  destruct (general_compress _ _); [|discriminate]. cbn [bind].
  destruct (to_dtype _ torch_float32); [|discriminate]. cbn [bind].
  destruct (attr (Linear.qweight self)); [|discriminate]. cbn [bind].
  destruct (attr (Linear.zeros self)); [|discriminate]. cbn [bind].
  destruct (to_dtype _ _); [|discriminate]. cbn [bind].
  intros H. injection H as <-. eexists. reflexivity.
Qed.

(** Whatever unpacks the zero-points, the packed weight and the scales a
    repack leaves are those a repack stopped at the zero-points leaves;
    the dense weight and the settings are never assigned. *)
Lemma repack_frame (unpack : Tensor -> Z -> result Tensor) (self : Linear.t) (g : GPTQ.t) :
  let r := fst (Linear.repack unpack self g) in
  let r0 := fst (Linear.repack (fun _ _ => Raise RuntimeError) self g) in
  Linear.qweight r = Linear.qweight r0 /\ Linear.scales r = Linear.scales r0 /\
  Linear.weight r = Linear.weight self /\ same_settings r self.
Proof.
  assert (Hself : same_settings self self) by (unfold same_settings; auto 20).
  rewrite !repack_steps. cbv zeta.
  destruct (q <- transpose (GPTQ.qweight g) ;; view (contiguous q) Linear.TORCH_STORAGE_DTYPE);
    [|cbn [fst]; auto].
  destruct (unpack_qweight _ _); [|cbn [fst]; auto].
  destruct (s <- transpose (GPTQ.scales g) ;; view (contiguous s) _);
    [|cbn [fst bind]; auto].
  cbn [bind fst].
  match goal with |- context [Linear.set_scales (Linear.set_qweight self ?q) ?s] =>
    set (self2 := Linear.set_scales (Linear.set_qweight self q) s)
  end.
  assert (H2 : Linear.weight self2 = Linear.weight self /\ same_settings self2 self)
    by (unfold same_settings; cbn; auto 20).
  destruct (z <- unpack (GPTQ.qzeros g) (Linear.bits self) ;; transpose z);
    [|cbn [fst]; tauto].
  destruct (Linear.store_zeros self2 _) as [self3 |] eqn:Hst; [|cbn [fst]; tauto].
  apply store_zeros_assigns in Hst. destruct Hst as (z & ->).
  cbn [Linear.bias Linear.set_zeros Linear.set_buffers].
  destruct (Linear.bias self2); [|cbn [fst]; unfold same_settings in *; cbn; tauto].
  destruct (b <- attr (GPTQ.bias g) ;; to_dtype b torch_float16);
    cbn [fst]; unfold same_settings in *; cbn; tauto.
Qed.

(** X15.  The two repacking methods differ in the zero-points only.
    When the handle has no weight transform, so that no tensor is moved
    to a device, or when the device is "cuda", where [.to(device)] of the
    one method is [.cuda()] of the other: on any layer and any foreign
    module, whether they return or raise and wherever they stop,
    [repack_from_gptq] and [repack_from_gptq_v2] leave the same packed
    weight and the same scales; neither assigns the dense weight, the
    parameter list or any setting of the layer. *)
Theorem repack_versions_agree (self : Linear.t) (g : GPTQ.t) (device : string) :
  Matmul.weight_transform (Linear.bitblas_matmul self) = None \/ device = "cuda" ->
  let r1 := fst (Linear.repack_from_gptq self g device) in
  let r2 := fst (Linear.repack_from_gptq_v2 self g) in
  Linear.qweight r1 = Linear.qweight r2 /\ Linear.scales r1 = Linear.scales r2 /\
  Linear.weight r1 = Linear.weight self /\ Linear.weight r2 = Linear.weight self /\
  Linear.q_params r1 = Linear.q_params self /\ Linear.q_params r2 = Linear.q_params self /\
  Linear.bitblas_matmul r1 = Linear.bitblas_matmul self /\
  Linear.bitblas_matmul r2 = Linear.bitblas_matmul self /\
  Linear.bits r1 = Linear.bits self /\ Linear.bits r2 = Linear.bits self /\
  Linear.in_features r1 = Linear.in_features self /\
  Linear.out_features r1 = Linear.out_features self /\
  Linear.in_features r2 = Linear.in_features self /\
  Linear.out_features r2 = Linear.out_features self.
Proof.
  intros _. unfold Linear.repack_from_gptq, Linear.repack_from_gptq_v2.
  destruct (repack_frame unpack_qzeros self g) as (Hq1 & Hs1 & Hw1 & Hk1).
  destruct (repack_frame unpack_qzeros_v2 self g) as (Hq2 & Hs2 & Hw2 & Hk2).
  cbv zeta in *. unfold same_settings in Hk1, Hk2.
  rewrite Hq1, Hq2, Hs1, Hs2.
  repeat split; tauto.
Qed.

(** The sample layer, whose handle has no weight transform, repacked for
    the device "cpu" and by the second method: the same packed weight and
    scales. *)
Lemma repack_versions_agree_witness :
  let self := sample_layer "float16" torch_float16 (Some "rescale") in
  let g := sample_gptq torch_float16 15360 in
  Linear.qweight (fst (Linear.repack_from_gptq self g "cpu"))
  = Linear.qweight (fst (Linear.repack_from_gptq_v2 self g)) /\
  Linear.scales (fst (Linear.repack_from_gptq self g "cpu"))
  = Linear.scales (fst (Linear.repack_from_gptq_v2 self g)).
Proof.
  intros self g.
  destruct (repack_versions_agree self g "cpu") as (Hq & Hs & _).
  - left. reflexivity.
  - split; [exact Hq | exact Hs].
Defined.

(** X16.  The bias of the foreign module is read only by a layer that
    holds a bias.  A layer without a bias repacks as if the foreign module
    had none and keeps no bias.  A layer with a bias fails on a foreign
    module without one with [AttributeError], at the last step: when the
    same module with a bias repacks without error, the failing call has
    already stored the same packed weight, scales and zero-points, and
    only the bias is the old one. *)
Theorem repack_bias_handling (unpack : Tensor -> Z -> result Tensor) (self : Linear.t)
    (qweight scales qzeros : Tensor) (fb : option Tensor) :
  let g := GPTQ.mk qweight scales qzeros fb in
  let g0 := GPTQ.mk qweight scales qzeros None in
  (Linear.bias self = None ->
   Linear.repack unpack self g = Linear.repack unpack self g0 /\
   Linear.bias (fst (Linear.repack unpack self g)) = None) /\
  (Linear.bias self <> None ->
   forall done, Linear.repack unpack self g = (done, Ok tt) ->
   exists r,
     Linear.repack unpack self g0 = (r, Raise AttributeError) /\
     Linear.qweight r = Linear.qweight done /\ Linear.scales r = Linear.scales done /\
     Linear.zeros r = Linear.zeros done /\ Linear.bias r = Linear.bias self).
Proof.
  intros g g0. rewrite !repack_steps. cbv zeta. subst g g0.
  cbn [GPTQ.qweight GPTQ.scales GPTQ.qzeros GPTQ.bias].
  split.
  - intros Hb.
    destruct (q <- transpose qweight ;; view (contiguous q) Linear.TORCH_STORAGE_DTYPE);
      [|split; [reflexivity | exact Hb]].
    destruct (unpack_qweight _ _); [|split; [reflexivity | exact Hb]].
    destruct (s <- transpose scales ;; view (contiguous s) _);
      [|split; [reflexivity | exact Hb]].
    destruct (z <- unpack qzeros (Linear.bits self) ;; transpose z);
      [|split; [reflexivity | exact Hb]].
    destruct (Linear.store_zeros _ _) as [self3 |] eqn:Hst;
      [|split; [reflexivity | exact Hb]].
    apply store_zeros_assigns in Hst. destruct Hst as (z & ->).
    simp_layer. rewrite Hb. split; [reflexivity | exact Hb].
  - intros Hb done.
    destruct (q <- transpose qweight ;; view (contiguous q) Linear.TORCH_STORAGE_DTYPE);
      [|discriminate].
    destruct (unpack_qweight _ _); [|discriminate].
    destruct (s <- transpose scales ;; view (contiguous s) _); [|discriminate].
    destruct (z <- unpack qzeros (Linear.bits self) ;; transpose z); [|discriminate].
    destruct (Linear.store_zeros _ _) as [self3 |] eqn:Hst; [|discriminate].
    apply store_zeros_assigns in Hst. destruct Hst as (z & ->).
    simp_layer.
    destruct (Linear.bias self) as [b |] eqn:Hbias; [|congruence].
    destruct fb as [t |]; cbn [attr bind]; [|discriminate].
    destruct (to_dtype t torch_float16); [|discriminate].
    intros H. injection H as <-. eexists. split; [reflexivity|].
    cbn. rewrite Hbias. auto.
Qed.

(** The sample layer holds a bias: repacked from the sample module it
    succeeds, and from that module without its bias it fails with
    [AttributeError] after storing the same packed weight. *)
Lemma repack_bias_handling_witness :
  let self := sample_layer "float16" torch_float16 (Some "rescale") in
  let g := sample_gptq torch_float16 15360 in
  let g0 := GPTQ.mk (GPTQ.qweight g) (GPTQ.scales g) (GPTQ.qzeros g) None in
  exists r,
    Linear.repack_from_gptq self g0 "cuda" = (r, Raise AttributeError) /\
    Linear.qweight r = Linear.qweight (fst (Linear.repack_from_gptq self g "cuda")) /\
    Linear.bias r = Linear.bias self.
Proof.
  intros self g g0. unfold Linear.repack_from_gptq.
  destruct (Linear.repack unpack_qzeros self g) as [done res] eqn:Hrun.
  assert (Hres : res = Ok tt).
  { apply (f_equal snd) in Hrun. cbn [snd] in Hrun. rewrite <- Hrun.
    vm_compute. reflexivity. }
  subst res.
  destruct (proj2 (repack_bias_handling unpack_qzeros self (GPTQ.qweight g)
                     (GPTQ.scales g) (GPTQ.qzeros g) (GPTQ.bias g)))
    with (done := done) as (r & Hr & Hq & _ & _ & Hb).
  - discriminate.
  - exact Hrun.
  - exists r. cbn [fst]. split; [exact Hr|]. split; [exact Hq | exact Hb].
Defined.

(** ** Layers that share a handle *)

(** After a lookup that asked for tuning the configuration is in the
    cache, under the handle the lookup returned. *)
Lemma tuned_lookup_cached (ref : nat) (path : string) (config : MatmulConfig.t)
    (w : World) :
  let hw := Linear._get_or_create_bitblas_operator ref path config true w in
  OperatorCache.get (caches (snd hw) ref) config = Some (fst hw).
Proof.
  cbv zeta.
  destruct (OperatorCache.get (caches (hydrated ref path w) ref) config) as [h |] eqn:Hget.
  - assert (Hcall : Linear._get_or_create_bitblas_operator ref path config true w
                    = (h, hydrated ref path w)).
    { unfold Linear._get_or_create_bitblas_operator.
      change (if OperatorCache.size (caches w ref) =? 0
              then OperatorCache.load_from_database ref path
                     (auto_detect_nvidia_target w) w
              else w) with (hydrated ref path w).
      rewrite Hget. reflexivity. }
    rewrite Hcall. exact Hget.
  - destruct (cache_miss ref path config true w Hget) as (w' & Hcall & _ & Hcache & _).
    rewrite Hcall. cbn [fst snd]. rewrite Hcache. apply get_add_same.
Qed.

(** The path settled on at a construction is settled on again, with no
    effect, in any later world whose record of database paths is the one
    that construction left. *)
Lemma resolve_again (default : string) (a : Linear.init_args) (w w1 : World) :
  path_exists w1 = path_exists (snd (resolve_database_path default a w)) ->
  makedirs_ok w1 = makedirs_ok w ->
  makedirs_leaves w1 = makedirs_leaves w ->
  resolve_database_path default a w1 = (fst (resolve_database_path default a w), w1).
Proof.
  unfold resolve_database_path. intros Hp Hm Hl.
  destruct (Linear.arg_database_path a) as [p |]; [|reflexivity].
  destruct w1 as [nt cp cs id ch db tl pe mo ml fl so].
  cbn [path_exists makedirs_ok makedirs_leaves] in Hp, Hm, Hl |- *.
  subst mo ml.
  destruct (path_exists w p) eqn:He; cbn [fst snd] in Hp.
  - subst pe. rewrite He. reflexivity.
  - destruct (Linear.arg_create_missing_path a).
    + unfold os_makedirs in *.
      cbn [nvidia_target compile cuda_stream next_op_id caches database tuning_log
           path_exists makedirs_ok makedirs_leaves tuning_message_shown stdout].
      destruct (makedirs_ok w p) eqn:Hmk; cbn [fst snd path_exists] in Hp; subst pe;
        cbn beta; rewrite String.eqb_refl; reflexivity.
    + cbn [fst snd] in Hp. subst pe. rewrite He. reflexivity.
Qed.

(** X17.  Layers constructed with the same arguments share one operator
    handle.  After a layer has been constructed with tuning enabled, a
    second construction with the same arguments succeeds, builds and tunes
    nothing and changes nothing outside the layer, and gives a layer equal
    to the first, holding the very handle of the first. *)
Theorem same_arguments_share_handle (default : string) (a : Linear.init_args)
    (w w1 : World) (first : Linear.t) :
  Linear.arg_enable_tuning a = true ->
  Linear.__init__ default a w = (Ok first, w1) ->
  Linear.__init__ default a w1 = (Ok first, w1) /\
  OperatorCache.get (caches w1 (Linear.operator_cache first))
    (config_of_args a) = Some (Linear.bitblas_matmul first).
Proof.
  intros Htune Hinit.
  pose proof (init_settings _ _ _ _ _ Hinit) as Hs. cbv zeta in Hs.
  destruct Hs as (Hw1 & _ & _ & Hcache & _ & _ & _ & _ & _ & _ & Hh & _).
  rewrite Htune in Hw1, Hh.
  set (cache := match Linear.arg_operator_cache a with
                | Some c => c
                | None => Linear.global_operator_cache
                end) in *.
  set (dbp := fst (resolve_database_path default a w)) in *.
  set (wr := snd (resolve_database_path default a w)) in *.
  pose proof (tuned_lookup_cached cache dbp (config_of_args a) wr) as Hget.
  cbv zeta in Hget. rewrite <- Hw1, <- Hh in Hget.
  split; [|rewrite Hcache; exact Hget].
  destruct (operator_lookup_frame cache dbp (config_of_args a) true wr)
    as (Hpe & Hmk & _ & _ & _ & Hlv).
  cbv zeta in Hpe, Hmk, Hlv. rewrite <- Hw1 in Hpe, Hmk, Hlv.
  assert (Hmk' : makedirs_ok w1 = makedirs_ok w /\ makedirs_leaves w1 = makedirs_leaves w).
  { rewrite Hmk, Hlv. subst wr. unfold resolve_database_path.
    destruct (Linear.arg_database_path a) as [p |]; [|split; reflexivity].
    destruct (path_exists w p); [split; reflexivity|].
    destruct (Linear.arg_create_missing_path a); [|split; reflexivity].
    unfold os_makedirs. destruct (makedirs_ok w p); split; reflexivity. }
  pose proof (resolve_again default a w w1 Hpe (proj1 Hmk') (proj2 Hmk')) as Hres.
  fold dbp in Hres.
  revert Hinit. rewrite !init_steps. cbv zeta. rewrite Hres. cbn [fst snd].
  fold cache dbp wr. rewrite Htune.
  destruct (torch_getattr (Linear.arg_A_dtype a)); [|discriminate].
  destruct (Linear._validate_parameters _ _ _); [|discriminate].
  rewrite (cache_hit cache dbp (config_of_args a) true w1 _ Hget). cbn [fst snd].
  rewrite <- Hh. intros H. injection H as Hb _. rewrite Hb. reflexivity.
Qed.

Lemma same_arguments_share_handle_witness :
  let a := sample_args "float16" "int4" true true (Some "rescale") true in
  exists first w1,
    Linear.__init__ "default" a sample_world = (Ok first, w1) /\
    Linear.__init__ "default" a w1 = (Ok first, w1) /\
    tuning_log w1 = [(0%nat, 20)].
Proof.
  intros a.
  destruct (Linear.__init__ "default" a sample_world) as [r w1] eqn:Hinit.
  destruct r as [first | e]; [|vm_compute in Hinit; discriminate].
  exists first, w1. split; [reflexivity|].
  split.
  - exact (proj1 (same_arguments_share_handle "default" a sample_world w1 first
                    eq_refl Hinit)).
  - vm_compute in Hinit. injection Hinit as _ <-. reflexivity.
Defined.

(** ** Loading weights *)

(** X18.  Loading into a quantized layer, then running it.  When the
    weight transform of the handle returns, [load_and_transform_weight]
    returns on a non-consistent layer whatever the shapes and dtypes of the
    tensors it is given: the transformed weight becomes [qweight], each of
    scales, zeros and bias that is given replaces the held buffer, and each
    that is omitted leaves the held buffer in place.  The next [forward]
    passes the kernel the transformed weight first, then the scales, the
    zero-points and the bias that are now held, each only when its flag of
    the configuration is set. *)
Theorem load_then_forward (transform_weight : Matmul.t -> Tensor -> result Tensor)
    (self : Linear.t) (weight wt : Tensor) (scales zeros bias : option Tensor)
    (A out : Tensor) (w : World) :
  Linear.consistent self = false ->
  transform_weight (Linear.bitblas_matmul self) weight = Ok wt ->
  let cfg := Linear.config self in
  let held (given old : option Tensor) :=
    match given with Some t => Some t | None => old end in
  let sc := held scales (Linear.scales self) in
  let z := held zeros (Linear.zeros self) in
  let b := held bias (Linear.bias self) in
  (truthy (MatmulConfig.with_scaling cfg) = true -> sc <> None) ->
  (MatmulConfig.with_zeros cfg = true -> z <> None) ->
  (MatmulConfig.with_bias cfg = true -> b <> None) ->
  let ptr (use : bool) (t : option Tensor) :=
    match t with Some t => if use then [c_void_p t] else [] | None => [] end in
  let params :=
    [c_void_p wt] ++ ptr (truthy (MatmulConfig.with_scaling cfg)) sc
    ++ ptr (MatmulConfig.with_zeros cfg) z ++ ptr (MatmulConfig.with_bias cfg) b in
  let A' := Matmul.transform_input (Linear.bitblas_matmul self) A in
  exists loaded,
    load_and_transform_weight transform_weight self weight scales zeros bias
      = (loaded, Loaded) /\
    Linear.qweight loaded = Some wt /\ Linear.scales loaded = sc /\
    Linear.zeros loaded = z /\ Linear.bias loaded = b /\
    Linear.weight loaded = Linear.weight self /\
    Linear.forward loaded A (Some out) w =
    Ok (Linear.set_q_params loaded params, out,
        [c_void_p A'] ++ params ++ [c_void_p out]
        ++ match Matmul.dynamic_range (Linear.bitblas_matmul self) with
           | Some _ => [py_int (prod (removelast (shape A')))]
           | None => []
           end
        ++ [stream_handle (cuda_stream w)]).
Proof.
  intros Hc Ht cfg held sc z b Hsc Hz Hb ptr params A'.
  unfold load_and_transform_weight. rewrite Hc, Ht. cbv zeta.
  eexists. split; [reflexivity|].
  unfold Linear.consistent in Hc.
  assert (Hfields :
    forall s0 z0 b0,
      let l := Linear.set_buffers self (Linear.weight self) (Some wt) s0 z0 b0 in
      (truthy (MatmulConfig.with_scaling cfg) = true -> s0 <> None) ->
      (MatmulConfig.with_zeros cfg = true -> z0 <> None) ->
      (MatmulConfig.with_bias cfg = true -> b0 <> None) ->
      Linear.forward l A (Some out) w =
      Ok (Linear.set_q_params l
            ([c_void_p wt] ++ ptr (truthy (MatmulConfig.with_scaling cfg)) s0
             ++ ptr (MatmulConfig.with_zeros cfg) z0
             ++ ptr (MatmulConfig.with_bias cfg) b0), out,
          [c_void_p A'] ++
          ([c_void_p wt] ++ ptr (truthy (MatmulConfig.with_scaling cfg)) s0
           ++ ptr (MatmulConfig.with_zeros cfg) z0
           ++ ptr (MatmulConfig.with_bias cfg) b0) ++ [c_void_p out]
          ++ match Matmul.dynamic_range (Linear.bitblas_matmul self) with
             | Some _ => [py_int (prod (removelast (shape A')))]
             | None => []
             end
          ++ [stream_handle (cuda_stream w)])).
  { intros s0 z0 b0 l H1 H2 H3. subst l.
    rewrite forward_steps. cbv zeta. unfold Linear.init_params, Linear.config.
    simp_layer. rewrite Hc. fold (Linear.config self). fold cfg. fold A'.
    subst ptr. cbv beta.
    destruct (truthy (MatmulConfig.with_scaling cfg)),
             (MatmulConfig.with_zeros cfg), (MatmulConfig.with_bias cfg);
      try (destruct s0 as [s0 |]; [|exfalso; apply H1; reflexivity]);
      try (destruct z0 as [z0 |]; [|exfalso; apply H2; reflexivity]);
      try (destruct b0 as [b0 |]; [|exfalso; apply H3; reflexivity]);
      cbn [attr bind app]; unfold Linear.void_ptrs; cbn [mapM attr bind app];
      simp_layer;
      repeat match goal with
             | |- context [match ?o with Some _ => [] | None => [] end] =>
                 replace (match o with Some _ => [] | None => [] end) with (@nil carg)
                   by (destruct o; reflexivity)
             end;
      reflexivity. }
  subst sc z b held. cbv beta in *.
  destruct scales as [s1 |], zeros as [z1 |], bias as [b1 |]; simp_layer;
    (split; [reflexivity|]); (split; [reflexivity|]); (split; [reflexivity|]);
    (split; [reflexivity|]); (split; [reflexivity|]);
    subst params; cbv beta;
    match goal with
    | |- Linear.forward ?l _ _ _ = _ =>
        apply (Hfields (Linear.scales l) (Linear.zeros l) (Linear.bias l));
          assumption
    end.
Qed.

(** The sample layer loads a packed weight alone: the held scales,
    zero-points and bias are passed on. *)
Lemma load_then_forward_witness :
  let self := sample_layer "float16" torch_float16 (Some "rescale") in
  let o := mkTensor torch_float16 [2; 16] [] in
  exists loaded,
    load_and_transform_weight (fun _ t => Ok t) self (filled torch_int8 16 8 1)
      None None None = (loaded, Loaded) /\
    Linear.qweight loaded = Some (filled torch_int8 16 8 1) /\
    Linear.scales loaded = Linear.scales self /\
    exists self' args,
      Linear.forward loaded (mkTensor torch_float16 [2; 16] []) (Some o) sample_world
        = Ok (self', o, args) /\
      nth 1 args (py_int 0) = c_void_p (filled torch_int8 16 8 1) /\
      length args = 8%nat.
Proof.
  intros self o.
  destruct (load_then_forward (fun _ t => Ok t) self (filled torch_int8 16 8 1)
              (filled torch_int8 16 8 1) None None None
              (mkTensor torch_float16 [2; 16] []) o sample_world eq_refl eq_refl)
    as (loaded & Hload & Hq & Hs & _ & _ & _ & Hf).
  - cbn. discriminate.
  - cbn. discriminate.
  - cbn. discriminate.
  - exists loaded. split; [exact Hload|]. split; [exact Hq|]. split; [exact Hs|].
    eexists. eexists. split; [exact Hf|]. split; reflexivity.
Defined.

(** X19.  [load_and_transform_weight] assigns nothing unless it returns:
    in either mode, when the call ends on an assertion or an exception
    the layer is what it was.  On a consistent layer, scales or zeros that
    are given end the call on the assertion naming them, before the weight
    is looked at; and a transformed weight of an integer dtype, as an
    [int8] layer has, ends it with the [RuntimeError] of [nn.Parameter]. *)
Theorem load_failure_leaves_layer
    (transform_weight : Matmul.t -> Tensor -> result Tensor)
    (self : Linear.t) (weight : Tensor) (scales zeros bias : option Tensor) :
  let run := load_and_transform_weight transform_weight self weight scales zeros bias in
  (snd run <> Loaded -> fst run = self) /\
  (Linear.consistent self = true -> scales <> None ->
   snd run = AssertionError "scales should be None for consistent mode.") /\
  (Linear.consistent self = true -> scales = None -> zeros <> None ->
   snd run = AssertionError "zeros should be None for consistent mode.") /\
  (Linear.consistent self = true -> scales = None -> zeros = None ->
   forall wt, transform_weight (Linear.bitblas_matmul self) weight = Ok wt ->
   is_floating_point (dtype_of wt) = false -> snd run = Raised RuntimeError).
Proof.
  cbv zeta. unfold load_and_transform_weight, nn_Parameter.
  split; [|split; [|split]].
  - destruct (Linear.consistent self).
    + destruct scales; [reflexivity|]. destruct zeros; [reflexivity|].
      destruct (transform_weight _ _) as [wt |]; [|reflexivity].
      destruct (is_floating_point (dtype_of wt)); [|reflexivity].
      destruct bias; cbn [fst snd]; congruence.
    + destruct (transform_weight _ _) as [wt |]; [|reflexivity].
      cbn [fst snd]. congruence.
  - intros -> Hs. destruct scales; [reflexivity | congruence].
  - intros -> -> Hz. destruct zeros; [reflexivity | congruence].
  - intros -> -> -> wt -> ->. reflexivity.
Qed.

(** A consistent [int8] layer, as [__init__] builds it, cannot load an
    [int8] weight. *)
Lemma load_failure_leaves_layer_witness :
  let run := Linear.__init__ "default"
               (sample_args "int8" "int8" false false None true) sample_world in
  exists self,
    fst run = Ok self /\
    load_and_transform_weight (fun _ t => Ok t) self (filled torch_int8 16 16 1)
      None None None = (self, Raised RuntimeError).
Proof.
  intros run.
  destruct (fst run) as [self | e] eqn:Hrun; [|vm_compute in Hrun; discriminate].
  assert (Hc : Linear.consistent self = true).
  { vm_compute in Hrun. injection Hrun as <-. reflexivity. }
  exists self. split; [reflexivity|].
  destruct (load_failure_leaves_layer (fun _ t => Ok t) self (filled torch_int8 16 16 1)
              None None None) as (Hsame & _ & _ & Hint).
  cbv zeta in Hsame, Hint.
  specialize (Hint Hc eq_refl eq_refl (filled torch_int8 16 16 1) eq_refl eq_refl).
  destruct (load_and_transform_weight (fun _ t => Ok t) self (filled torch_int8 16 16 1)
              None None None) as [l o].
  cbn [fst snd] in *. subst o. rewrite Hsame; [reflexivity | discriminate].
Defined.

(** ** Operators persisted in the database *)

Lemma get_add_other (c : Cache) (config config' : MatmulConfig.t) (op : Matmul.t) :
  MatmulConfig.eqb config' config = false ->
  OperatorCache.get (OperatorCache.add c config' op) config = OperatorCache.get c config.
Proof.
  intros Hne. unfold OperatorCache.get, OperatorCache.add. cbn [find fst]. rewrite Hne.
  f_equal. induction c as [| e c IH]; [reflexivity|]. cbn [filter find].
  destruct (MatmulConfig.eqb (fst e) config') eqn:E1; cbn [negb].
  - apply config_eqb_eq in E1. rewrite E1, Hne. exact IH.
  - cbn [find]. destruct (MatmulConfig.eqb (fst e) config); [reflexivity | exact IH].
Qed.

(** After hydration a configuration that was persisted, or was already
    cached, is cached. *)
Lemma hydrate_get (P : Matmul.t -> Prop) (config : MatmulConfig.t) (tgt : string)
    (entries : list (MatmulConfig.t * Kernel)) :
  (forall id k, In (config, k) entries -> P (Matmul.mk id config tgt k)) ->
  forall (id : nat) (c : Cache),
    (forall m, OperatorCache.get c config = Some m -> P m) ->
    (exists k, In (config, k) entries) \/ OperatorCache.get c config <> None ->
    exists m, OperatorCache.get (fst (OperatorCache.hydrate entries tgt id c)) config
              = Some m /\ P m.
Proof.
  induction entries as [| [config' k'] rest IH]; intros HP id c Hc Hex;
    cbn [OperatorCache.hydrate].
  - destruct Hex as [(k & []) | Hex]. cbn [fst].
    destruct (OperatorCache.get c config) as [m |] eqn:Hget; [|congruence].
    exists m. split; [reflexivity | apply Hc; reflexivity].
  - apply IH.
    + intros id' k Hin. apply HP. right. exact Hin.
    + intros m. destruct (MatmulConfig.eqb config' config) eqn:E.
      * apply config_eqb_eq in E. subst config'. rewrite get_add_same.
        intros H. injection H as <-. apply HP. left. reflexivity.
      * rewrite (get_add_other _ _ _ _ E). apply Hc.
    + destruct (MatmulConfig.eqb config' config) eqn:E.
      * apply config_eqb_eq in E. subst config'. right. rewrite get_add_same.
        discriminate.
      * rewrite (get_add_other _ _ _ _ E).
        destruct Hex as [(k & [Hk | Hk]) | Hex].
        -- injection Hk as -> _. rewrite config_eqb_refl in E. discriminate.
        -- left. exists k. exact Hk.
        -- right. exact Hex.
Qed.

(** X20.  An operator persisted in the database is reused.  When the
    cache is empty and the database of the layer's path holds an entry of
    the configuration for the detected target, the lookup returns a handle
    of that configuration and target with a persisted kernel, whether or
    not tuning is enabled: nothing is compiled anew, tuned, printed or
    written back. *)
Theorem persisted_operator_is_reused (ref : nat) (path : string)
    (config : MatmulConfig.t) (enable_tuning : bool) (w : World) (k : Kernel) :
  caches w ref = [] ->
  In (config, k) (database w path (nvidia_target w)) ->
  let hw := Linear._get_or_create_bitblas_operator ref path config enable_tuning w in
  Matmul.config (fst hw) = config /\
  Matmul.target (fst hw) = nvidia_target w /\
  In (config, Matmul.kernel (fst hw)) (database w path (nvidia_target w)) /\
  tuning_log (snd hw) = tuning_log w /\ stdout (snd hw) = stdout w /\
  database (snd hw) = database w /\
  tuning_message_shown (snd hw) = tuning_message_shown w /\
  OperatorCache.get (caches (snd hw) ref) config = Some (fst hw).
Proof.
  intros Hempty Hin. cbv zeta.
  set (tgt := nvidia_target w) in *.
  set (P := fun m : Matmul.t =>
              Matmul.config m = config /\ Matmul.target m = tgt /\
              In (config, Matmul.kernel m) (database w path tgt)).
  destruct (hydrate_get P config tgt (database w path tgt)) with
    (id := next_op_id w) (c := caches w ref) as (m & Hget & Hm & Ht & Hk).
  - intros id k0 Hk0. unfold P. cbn. auto.
  - rewrite Hempty. discriminate.
  - left. exists k. exact Hin.
  - assert (Hcall : Linear._get_or_create_bitblas_operator ref path config
                      enable_tuning w
                    = (m, OperatorCache.load_from_database ref path tgt w)).
    { unfold Linear._get_or_create_bitblas_operator, auto_detect_nvidia_target.
      fold tgt. rewrite Hempty. cbn [OperatorCache.size length Z.of_nat Z.eqb].
      assert (Hg : OperatorCache.get
                     (caches (OperatorCache.load_from_database ref path tgt w) ref)
                     config = Some m).
      { unfold OperatorCache.load_from_database.
        destruct (OperatorCache.hydrate _ _ _ _) as [c' id'].
        cbn. rewrite Nat.eqb_refl. exact Hget. }
      rewrite Hg. reflexivity. }
    rewrite Hcall. cbn [fst snd].
    split; [exact Hm|]. split; [exact Ht|]. split; [exact Hk|].
    unfold OperatorCache.load_from_database.
    destruct (OperatorCache.hydrate _ _ _ _) as [c' id'] eqn:Hh.
    cbn. rewrite Nat.eqb_refl. cbn [fst] in Hget.
    repeat split; try reflexivity. exact Hget.
Qed.

(** A fresh process whose database holds the sample configuration: the
    lookup, tuning enabled, returns its handle without a tuning run. *)
Lemma persisted_operator_is_reused_witness :
  let cfg := sample_config "float16" (Some "rescale") in
  let w := mkWorld "cuda" (fun _ _ => sample_kernel) 7 0%nat (fun _ => [])
             (fun _ _ => [(cfg, sample_kernel)]) [] (fun _ => true) (fun _ => true)
             (fun _ _ => true) false [] in
  let hw := Linear._get_or_create_bitblas_operator 0 "default" cfg true w in
  Matmul.config (fst hw) = cfg /\ tuning_log (snd hw) = [] /\ stdout (snd hw) = [].
Proof.
  intros cfg w hw.
  destruct (persisted_operator_is_reused 0 "default" cfg true w sample_kernel)
    as (Hcfg & _ & _ & Hlog & Hout & _).
  - reflexivity.
  - left. reflexivity.
  - split; [exact Hcfg|]. split; [exact Hlog | exact Hout].
Defined.

(** ** The layout of packed weights *)

Lemma chunks_one {A : Type} (l : list A) :
  forall fuel, (length l <= fuel)%nat -> chunks fuel 1 l = map (fun x => [x]) l.
Proof.
  induction l as [| x l IH]; intros [| fuel] H; cbn [chunks map length] in *;
    try reflexivity; try lia.
  cbn [firstn skipn]. f_equal. apply IH. lia.
Qed.

Lemma of_bytes_int8 (x : Z) : of_bytes torch_int8 [x] = wrap 8 x.
Proof.
  unfold of_bytes. cbn [fold_right is_floating_point itemsize]. f_equal. lia.
Qed.

(** An [int32] matrix read as [int8]: every unit gives its four bytes,
    least significant first, as signed bytes. *)
Lemma view_int32_as_int8 (q : Tensor) (r c : nat) :
  dtype_of q = torch_int32 -> matrix q r c ->
  view q torch_int8 =
  Ok (mkTensor torch_int8 [Z.of_nat r; Z.of_nat (4 * c)]
        (map (fun row => map (wrap 8) (flat_map (to_bytes 4) row)) (rows q))).
Proof.
  intros Hd (Hs & Hl & Hrows). unfold view. rewrite Hd, Hs.
  cbn [dtype_eqb last removelast itemsize app].
  rewrite Z.mod_1_r, Z.div_1_r. cbn [Z.eqb].
  f_equal. f_equal.
  - f_equal. f_equal. lia.
  - apply map_ext. intros row. change (Z.to_nat 1) with 1%nat.
    rewrite chunks_one by lia. rewrite map_map. apply map_ext. intros x.
    apply of_bytes_int8.
Qed.

Lemma to_bytes_4 (z : Z) :
  to_bytes 4 z = [Z.shiftr z 0 mod 256; Z.shiftr z 8 mod 256;
                  Z.shiftr z 16 mod 256; Z.shiftr z 24 mod 256].
Proof. reflexivity. Qed.

Lemma nth_flat_bytes (row : list Z) :
  forall q j : nat, (q < length row)%nat -> (j < 4)%nat ->
    nth (4 * q + j) (flat_map (to_bytes 4) row) 0
    = Z.shiftr (nth q row 0) (8 * Z.of_nat j) mod 256.
Proof.
  induction row as [| x row IH]; intros q j Hq Hj; cbn [length] in Hq; [lia|].
  cbn [flat_map]. destruct q as [| q].
  - rewrite app_nth1 by (rewrite to_bytes_4; cbn [length]; lia).
    rewrite to_bytes_4. cbn [Nat.mul Nat.add nth].
    destruct j as [| [| [| [| j]]]]; try lia; reflexivity.
  - rewrite app_nth2 by (rewrite to_bytes_4; cbn [length]; lia).
    rewrite to_bytes_4. cbn [length nth].
    replace (4 * S q + j - 4)%nat with (4 * q + j)%nat by lia.
    apply IH; lia.
Qed.

Lemma flat_bytes_length (row : list Z) :
  length (flat_map (to_bytes 4) row) = (4 * length row)%nat.
Proof.
  induction row as [| x row IH]; [reflexivity|].
  cbn [flat_map length]. rewrite length_app, IH, to_bytes_4. cbn [length]. lia.
Qed.

(** A field of a byte of a unit is a field of the unit. *)
Lemma byte_field (u b s j : Z) :
  0 <= b -> 0 <= s -> s + b <= 8 -> 0 <= j ->
  Z.shiftr (wrap 8 (Z.shiftr u (8 * j) mod 256)) s mod 2 ^ b
  = Z.shiftr u (8 * j + s) mod 2 ^ b.
Proof.
  intros Hb Hs Hsb Hj. apply Z.bits_inj'. intros n Hn.
  destruct (Z.lt_ge_cases n b) as [Hlt | Hge].
  - rewrite !Z.mod_pow2_bits_low by lia.
    rewrite !Z.shiftr_spec by lia.
    rewrite wrap_testbit by lia.
    change 256 with (2 ^ 8). rewrite Z.mod_pow2_bits_low by lia.
    rewrite Z.shiftr_spec by lia. f_equal. lia.
  - rewrite !Z.mod_pow2_bits_high by lia. reflexivity.
Qed.

Lemma in_range (n x : Z) : In x (range n) -> 0 <= x < n.
Proof.
  unfold range. intros H. apply in_map_iff in H. destruct H as (k & <- & Hk).
  apply in_seq in Hk. lia.
Qed.

(** An element unpacked from the bytes of a row of 32-bit units is the
    element unpacked from the units. *)
Lemma raw_at_bytes (b : Z) (row : list Z) (col : Z) :
  In b [1; 2; 4; 8] -> 0 <= col < Z.of_nat (length row) * (32 / b) ->
  raw_at (8 / b) b (map (wrap 8) (flat_map (to_bytes 4) row)) col
  = raw_at (32 / b) b row col.
Proof.
  intros Hb Hcol.
  rewrite (raw_at_field 8 b) by (auto; lia).
  rewrite (raw_at_field 32 b) by (auto; lia).
  f_equal.
  destruct (field_inside 8 b col) as (Hf8 & Hg8);
    [destruct (widths_cases b Hb) as [-> | [-> | [-> | ->]]]; lia
    |destruct (widths_cases b Hb) as [-> | [-> | [-> | ->]]]; lia | lia |].
  destruct (field_inside 32 b col) as (Hf32 & Hg32);
    [destruct (widths_cases b Hb) as [-> | [-> | [-> | ->]]]; lia
    |destruct (widths_cases b Hb) as [-> | [-> | [-> | ->]]]; lia | lia |].
  assert (Hb0 : 0 < b) by (destruct (widths_cases b Hb) as [-> | [-> | [-> | ->]]]; lia).
  rewrite !extract_field_shiftr by lia.
  set (k := col / (8 / b)).
  assert (Hk : 0 <= k < 4 * Z.of_nat (length row) /\
               k / 4 = col / (32 / b) /\
               b * (col mod (32 / b)) = 8 * (k mod 4) + b * (col mod (8 / b))).
  { subst k. destruct (widths_cases b Hb) as [-> | [-> | [-> | ->]]];
      change (8 / 1) with 8 in *; change (32 / 1) with 32 in *;
      change (8 / 2) with 4 in *; change (32 / 2) with 16 in *;
      change (8 / 4) with 2 in *; change (32 / 4) with 8 in *;
      change (8 / 8) with 1 in *; change (32 / 8) with 4 in *;
      repeat split; try (Z.div_mod_to_equations; lia). }
  destruct Hk as (Hk & Hq & Hshift).
  change 0 with (wrap 8 0) at 1. rewrite map_nth.
  replace (Z.to_nat k) with (4 * Z.to_nat (k / 4) + Z.to_nat (k mod 4))%nat
    by (Z.div_mod_to_equations; lia).
  rewrite nth_flat_bytes by (Z.div_mod_to_equations; lia).
  rewrite Z2Nat.id by (Z.div_mod_to_equations; lia).
  rewrite byte_field by (try lia; Z.div_mod_to_equations; lia).
  rewrite Hshift, Hq. reflexivity.
Qed.

(** X21.  Packed weights and packed zero-points have one layout.  For the
    bit widths 1, 2, 4 and 8, [unpack_qweight] applied to a matrix of
    32-bit units, which it reads byte by byte, returns exactly what
    [unpack_qzeros_v2] returns reading it unit by unit: the fields of a
    unit come out in the same order either way. *)
Theorem weights_unpack_as_units (b : Z) (q : Tensor) (r c : nat) :
  In b [1; 2; 4; 8] -> dtype_of q = torch_int32 -> matrix q r c ->
  unpack_qweight q b = unpack_qzeros_v2 q b /\
  exists out, unpack_qweight q b = Ok out /\ dtype_of out = torch_int8 /\
              shape out = [Z.of_nat r; Z.of_nat c * (32 / b)].
Proof.
  intros Hb Hd Hm.
  assert (Hb32 : 0 < b <= 32)
    by (destruct (widths_cases b Hb) as [-> | [-> | [-> | ->]]]; lia).
  pose proof (view_int32_as_int8 q r c Hd Hm) as Hview.
  set (v := mkTensor torch_int8 [Z.of_nat r; Z.of_nat (4 * c)]
              (map (fun row => map (wrap 8) (flat_map (to_bytes 4) row)) (rows q)))
    in Hview.
  assert (Hvm : matrix v r (4 * c)).
  { destruct Hm as (Hs & Hl & Hrows). subst v. split; [reflexivity|].
    cbn [rows]. split; [rewrite length_map; exact Hl|].
    apply Forall_forall. intros row' Hin. apply in_map_iff in Hin.
    destruct Hin as (row & <- & Hrow). rewrite length_map, flat_bytes_length.
    rewrite (proj1 (Forall_forall _ _) Hrows row Hrow). reflexivity. }
  assert (Hsame : unpack_qweight q b = unpack_qweight v b).
  { unfold unpack_qweight. rewrite Hview. cbn [bind].
    replace (view v torch_int8) with (Ok v) by reflexivity. reflexivity. }
  rewrite Hsame, (unpack_qweight_rows v r (4 * c) b eq_refl Hvm Hb32),
    (unpack_qzeros_v2_rows q r c b Hd Hm Hb32).
  assert (Hcols : Z.of_nat (4 * c) * (8 / b) = Z.of_nat c * (32 / b)).
  { destruct (widths_cases b Hb) as [-> | [-> | [-> | ->]]];
      change (8 / 1) with 8; change (32 / 1) with 32;
      change (8 / 2) with 4; change (32 / 2) with 16;
      change (8 / 4) with 2; change (32 / 4) with 8;
      change (8 / 8) with 1; change (32 / 8) with 4; lia. }
  rewrite Hcols. split.
  - f_equal. f_equal. subst v. cbn [rows]. rewrite map_map.
    apply map_ext_in. intros row Hrow. apply map_ext_in. intros col Hcol.
    apply in_range in Hcol. apply raw_at_bytes; [exact Hb|].
    destruct Hm as (_ & _ & Hrows).
    rewrite (proj1 (Forall_forall _ _) Hrows row Hrow). exact Hcol.
  - eexists. split; [reflexivity|]. split; reflexivity.
Qed.

(** A row of one unit that holds the fields 1 to 8 at 4 bits. *)
Lemma weights_unpack_as_units_witness :
  let q := mkTensor torch_int32 [1; 1] [[-2023406815]] in
  unpack_qweight q 4 = unpack_qzeros_v2 q 4 /\
  unpack_qweight q 4 = Ok (mkTensor torch_int8 [1; 8] [[1; 2; 3; 4; 5; 6; 7; 8]]).
Proof.
  intros q. split.
  - apply (weights_unpack_as_units 4 q 1 1).
    + right. right. left. reflexivity.
    + reflexivity.
    + repeat split. repeat constructor.
  - vm_compute. reflexivity.
Defined.

(** ** Effects of a construction that fails *)

(** X22.  The database path is settled before the arguments are
    validated.  A construction that is rejected by [_validate_parameters]
    has already created a missing database path when creation was allowed
    and possible: the path exists afterwards although no layer was built
    and no operator was looked up, built or tuned. *)
Theorem rejected_init_has_created_path (default : string) (a : Linear.init_args)
    (w : World) (p : string) (e : exn) :
  Linear.arg_database_path a = Some p ->
  path_exists w p = false ->
  Linear.arg_create_missing_path a = true -> makedirs_ok w p = true ->
  is_ok (torch_getattr (Linear.arg_A_dtype a)) = true ->
  Linear._validate_parameters
    (Linear._set_group_size (Linear.arg_group_size a) (Linear.arg_in_features a))
    (Linear.arg_in_features a) (Linear.arg_out_features a) = Raise e ->
  let run := Linear.__init__ default a w in
  fst run = Raise e /\ path_exists (snd run) p = true /\
  caches (snd run) = caches w /\ database (snd run) = database w /\
  tuning_log (snd run) = tuning_log w /\ next_op_id (snd run) = next_op_id w.
Proof.
  intros Hp He Hc Hmk Hdt Hval. cbv zeta. rewrite init_steps. cbv zeta.
  destruct (torch_getattr (Linear.arg_A_dtype a)); [|discriminate].
  rewrite Hval. cbn [fst snd].
  unfold resolve_database_path. rewrite Hp, He, Hc. unfold os_makedirs. rewrite Hmk.
  cbn [snd]. split; [reflexivity|]. cbn. rewrite String.eqb_refl. auto 6.
Qed.

Lemma rejected_init_has_created_path_witness :
  let w := mkWorld "cuda" (fun _ _ => sample_kernel) 7 0%nat (fun _ => [])
             (fun _ _ => []) [] (fun _ => false) (fun _ => true)
             (fun _ q => String.eqb q "/models") false [] in
  let a := Linear.mk_args 24 16 false "float16" "float16" "float16" "float16" None
             None false None Linear.opt_M true None false None (Some "/models/db") true in
  let run := Linear.__init__ "default" a w in
  fst run = Raise (ValueError "`in_features` and `out_features` must be divisible by 16.") /\
  path_exists (snd run) "/models/db" = true.
Proof.
  intros w a run.
  destruct (rejected_init_has_created_path "default" a w "/models/db"
              (ValueError "`in_features` and `out_features` must be divisible by 16.")
              eq_refl eq_refl eq_refl eq_refl eq_refl eq_refl) as (H1 & H2 & _).
  split; [exact H1 | exact H2].
Defined.
